(** * companysift: confidence scoring and aggregator filtering

    A shallow embedding of the scoring and filtering core of the
    repository (src/scoring/confidence.py, src/scoring/url_quality.py,
    src/filtering/blocklist.py, src/filtering/domain_frequency.py) and
    the properties its specification states about it.

    Conventions of the embedding.
    - A Python [str] is a [string] of 8-bit characters.  The character
      classes ([isalnum], [isspace], the regular-expression classes) and
      the case mappings are those of ASCII; a character above 127 is a
      symbol that is neither a letter, a digit nor a space.
    - A Python [int] is a [Z]; a Python [float] is an exact rational [Q].
      The rounding of binary64 arithmetic is modelled where a statement
      is about it: [Float.binary64] rounds a rational to the nearest
      double, and [FloatScorer] is the constructor of the scorer in
      rounded arithmetic.
    - A raised exception is a value [Raise e] of the type [res]; the
      [try ... except (ValueError, AttributeError)] blocks of the source
      are [catch].
    - [urllib.parse.urlparse] is library code outside the repository.
      The components are parametric in [urlparse_netloc], which returns
      the [netloc] of the parsed URL or [None] when the library raises
      [ValueError]; [Py.urlsplit_netloc] is the instance used for the
      concrete scenarios.
    - A Python [set] of strings that the code pops from or iterates over
      is a duplicate-free list in the iteration order of the hash table,
      given by the parameter [set_order]; a set that is only tested for
      membership or measured is a [gset].
    - A Python [dict] is an association list in insertion order. *)

From Stdlib Require Import ZArith QArith Qround Qabs Qpower Lqa Lia Sorted Ascii.
From stdpp Require Import base list strings gmap.

(** ** Python runtime primitives *)

Module Py.

(** *** Exceptions *)

Inductive exn : Set :=
  | ValueError | AttributeError | TypeError | ZeroDivisionError.

Inductive res (A : Type) : Type :=
  | Ok (a : A)
  | Raise (e : exn).
Arguments Ok {A} a.
Arguments Raise {A} e.

#[global] Instance res_ret : MRet res := fun A a => Ok a.
#[global] Instance res_bind : MBind res := fun A B f m =>
  match m with
  | Ok a => f a
  | Raise e => Raise e
  end.

(** [try: body except (ValueError, AttributeError): return dflt] *)
Definition catch {A} (body : res A) (dflt : A) : res A :=
  match body with
  | Raise ValueError | Raise AttributeError => Ok dflt
  | r => r
  end.

Definition returns {A} (r : res A) : Prop := exists a, r = Ok a.

(** *** Characters *)

Definition code (c : ascii) : N := N_of_ascii c.

Definition is_upper (c : ascii) : bool := (65 <=? code c)%N && (code c <=? 90)%N.
Definition is_lower (c : ascii) : bool := (97 <=? code c)%N && (code c <=? 122)%N.
Definition is_digit (c : ascii) : bool := (48 <=? code c)%N && (code c <=? 57)%N.
Definition isalnum (c : ascii) : bool := is_upper c || is_lower c || is_digit c.
(** the class [\w] *)
Definition is_word (c : ascii) : bool := isalnum c || (code c =? 95)%N.
(** [str.isspace] on one character *)
Definition isspace (c : ascii) : bool :=
  ((9 <=? code c)%N && (code c <=? 13)%N) ||
  ((28 <=? code c)%N && (code c <=? 32)%N).

Definition lower_char (c : ascii) : ascii :=
  if is_upper c then ascii_of_N (code c + 32) else c.
Definition upper_char (c : ascii) : ascii :=
  if is_lower c then ascii_of_N (code c - 32) else c.

(** *** Strings *)

Fixpoint str_map (f : ascii -> ascii) (s : string) : string :=
  match s with
  | EmptyString => EmptyString
  | String c s' => String (f c) (str_map f s')
  end.

Fixpoint str_filter (p : ascii -> bool) (s : string) : string :=
  match s with
  | EmptyString => EmptyString
  | String c s' => if p c then String c (str_filter p s') else str_filter p s'
  end.

Fixpoint str_forallb (p : ascii -> bool) (s : string) : bool :=
  match s with
  | EmptyString => true
  | String c s' => p c && str_forallb p s'
  end.

Definition lower : string -> string := str_map lower_char.
Definition upper : string -> string := str_map upper_char.

Definition len (s : string) : Z := Z.of_nat (String.length s).

Definition is_empty (s : string) : bool :=
  match s with EmptyString => true | _ => false end.

(** [s.startswith(p)] *)
Fixpoint startswith (s p : string) : bool :=
  match p, s with
  | EmptyString, _ => true
  | String a p', String b s' => if Ascii.eqb a b then startswith s' p' else false
  | String _ _, EmptyString => false
  end.

(** [p in s] *)
Fixpoint contains (s p : string) : bool :=
  startswith s p ||
  match s with
  | EmptyString => false
  | String _ s' => contains s' p
  end.

Fixpoint take (n : nat) (s : string) : string :=
  match n, s with
  | S n', String c s' => String c (take n' s')
  | _, _ => EmptyString
  end.

Fixpoint drop (n : nat) (s : string) : string :=
  match n, s with
  | S n', String _ s' => drop n' s'
  | _, _ => s
  end.

(** [s.endswith(p)] *)
Definition endswith (s p : string) : bool :=
  (String.length p <=? String.length s)%nat &&
  String.eqb (drop (String.length s - String.length p) s) p.

(** [s.lstrip()], [s.rstrip()], [s.strip()] *)
Fixpoint lstrip (s : string) : string :=
  match s with
  | String c s' => if isspace c then lstrip s' else s
  | EmptyString => EmptyString
  end.

Fixpoint rstrip (s : string) : string :=
  match s with
  | EmptyString => EmptyString
  | String c s' =>
      match rstrip s' with
      | EmptyString => if isspace c then EmptyString else String c EmptyString
      | t => String c t
      end
  end.

Definition strip (s : string) : string := rstrip (lstrip s).

(** [s.split(sep)] for a one-character separator: empty fields are kept *)
Fixpoint split_on (sep : ascii) (s : string) : list string :=
  match s with
  | EmptyString => [EmptyString]
  | String c s' =>
      if Ascii.eqb c sep then EmptyString :: split_on sep s'
      else match split_on sep s' with
           | w :: ws => String c w :: ws
           | [] => [String c EmptyString]
           end
  end.

(** [s.split()]: maximal runs of characters that are not spaces *)
Fixpoint split_ws (s : string) : list string :=
  match s with
  | EmptyString => []
  | String c s' =>
      if isspace c then split_ws s'
      else match s' with
           | EmptyString => [String c EmptyString]
           | String c' _ =>
               if isspace c' then String c EmptyString :: split_ws s'
               else match split_ws s' with
                    | w :: ws => String c w :: ws
                    | [] => [String c EmptyString]
                    end
           end
  end.

(** [sep.join(ws)] *)
Fixpoint join (sep : string) (ws : list string) : string :=
  match ws with
  | [] => EmptyString
  | [w] => w
  | w :: ws' => w +:+ sep +:+ join sep ws'
  end.

(** [re.sub(r'[^\w]', ' ', s)] *)
Definition sub_nonword (s : string) : string :=
  str_map (fun c => if is_word c then c else " "%char) s.

(** [''.join(c for c in s if c.isalnum())] *)
Definition alnum_only (s : string) : string := str_filter isalnum s.

(** [s.replace(c, '')] for a one-character [c] *)
Definition remove_char (c : ascii) (s : string) : string :=
  str_filter (fun a => negb (Ascii.eqb a c)) s.

(** [sum(1 for ca, cb in zip(a, b) if ca == cb)] *)
Fixpoint zip_matches (a b : string) : Z :=
  match a, b with
  | String ca a', String cb b' =>
      ((if Ascii.eqb ca cb then 1 else 0) + zip_matches a' b')%Z
  | _, _ => 0%Z
  end.

Fixpoint chars (s : string) : list ascii :=
  match s with
  | EmptyString => []
  | String c s' => c :: chars s'
  end.

(** [len(set(a) & set(b))] *)
Definition common_chars (a b : string) : Z :=
  Z.of_nat (length (filter (fun c => c ∈ chars b) (remove_dups (chars a)))).

(** [l[-k:]] *)
Definition last_n {A} (k : nat) (l : list A) : list A :=
  skipn (length l - k) l.

(** [w in ws] for a list of strings *)
Definition mem (w : string) (ws : list string) : bool := bool_decide (w ∈ ws).

(** *** Numbers *)

Definition Qltb (x y : Q) : bool := negb (Qle_bool y x).

(** [max(a, b)] and [min(a, b)]: the first argument unless the second
    is strictly larger (smaller) *)
Definition max (a b : Q) : Q := if Qltb a b then b else a.
Definition min (a b : Q) : Q := if Qltb b a then b else a.

(** [a / b] *)
Definition div (a b : Q) : res Q :=
  if Qeq_bool b 0 then Raise ZeroDivisionError else Ok (a / b)%Q.

(** Rounding of an exact value to the nearest integer, ties to even. *)
Definition round_half_even (q : Q) : Z :=
  let f := Qfloor q in
  let r := (q - inject_Z f)%Q in
  if Qltb r (1 # 2) then f
  else if Qltb (1 # 2) r then (f + 1)%Z
  else if Z.even f then f else (f + 1)%Z.

(** [round(x, ndigits)] *)
Definition round (x : Q) (ndigits : nat) : Q :=
  let scale := inject_Z (10 ^ Z.of_nat ndigits) in
  (inject_Z (round_half_even (x * scale)) / scale)%Q.

(** *** Dictionaries in insertion order *)

Definition dict (V : Type) : Type := list (string * V).

Fixpoint dict_get {V} (d : dict V) (k : string) : option V :=
  match d with
  | [] => None
  | (k', v) :: d' => if String.eqb k' k then Some v else dict_get d' k
  end.

(** [d[k] = f(d[k])] on a [defaultdict] with default [dflt]: an existing
    key keeps its place, a new key goes last *)
Fixpoint dict_update {V} (dflt : V) (f : V -> V) (k : string) (d : dict V) : dict V :=
  match d with
  | [] => [(k, f dflt)]
  | (k', v) :: d' =>
      if String.eqb k' k then (k', f v) :: d'
      else (k', v) :: dict_update dflt f k d'
  end.

(** *** urllib.parse: the netloc of a URL

    The part of [urlsplit] that decides the [netloc]: leading control
    characters and spaces and all tabs and line breaks are dropped, a
    leading scheme is split off at the first colon, and when the rest
    starts with two slashes the netloc runs up to the first of [/ ? #].
    An unbalanced square bracket in the netloc raises [ValueError]. *)

Definition is_scheme_char (c : ascii) : bool :=
  isalnum c || (code c =? 43)%N || (code c =? 45)%N || (code c =? 46)%N.

Fixpoint lstrip_c0 (s : string) : string :=
  match s with
  | String c s' => if (code c <=? 32)%N then lstrip_c0 s' else s
  | EmptyString => EmptyString
  end.

(** the text before and after the first character satisfying [p] *)
Fixpoint break_at (p : ascii -> bool) (s : string) : string * option string :=
  match s with
  | EmptyString => (EmptyString, None)
  | String c s' =>
      if p c then (EmptyString, Some s')
      else let '(a, b) := break_at p s' in (String c a, b)
  end.

Definition drop_scheme (url : string) : string :=
  match break_at (fun c => Ascii.eqb c ":"%char) url with
  | (String c0 sch, Some rest) =>
      if (is_upper c0 || is_lower c0) && str_forallb is_scheme_char sch
      then rest else url
  | _ => url
  end.

Definition has_char (c : ascii) (s : string) : bool :=
  negb (str_forallb (fun a => negb (Ascii.eqb a c)) s).

Definition urlsplit_netloc (url : string) : option string :=
  let url := lstrip_c0 url in
  let url := str_filter (fun c => negb ((code c =? 9)%N || (code c =? 10)%N || (code c =? 13)%N)) url in
  let url := drop_scheme url in
  if startswith url "//" then
    let netloc :=
      fst (break_at (fun c => Ascii.eqb c "/"%char || Ascii.eqb c "?"%char || Ascii.eqb c "#"%char)
                    (drop 2 url)) in
    if xorb (has_char "["%char netloc) (has_char "]"%char netloc) then None
    else Some netloc
  else Some EmptyString.

(** [urlparse(url).netloc] for a parser [urlparse_netloc] *)
Definition netloc_of (urlparse_netloc : string -> option string) (u : string) : res string :=
  match urlparse_netloc u with
  | Some n => Ok n
  | None => Raise ValueError
  end.

(** What is known of the iteration order of a set: it lists the
    elements of the set. *)
Definition valid_set_order (set_order : list string -> list string) : Prop :=
  forall l, Permutation (set_order l) l.

(** [l.sort(key=key, reverse=True)]: a stable sort, larger keys first *)
Fixpoint insert_desc {A} (key : A -> Q) (x : A) (l : list A) : list A :=
  match l with
  | [] => [x]
  | y :: l' => if Qltb (key x) (key y) then y :: insert_desc key x l' else x :: l
  end.

Definition sort_desc {A} (key : A -> Q) (l : list A) : list A :=
  foldr (insert_desc key) [] l.

(** [d[k] = v] on a plain [dict] *)
Fixpoint dict_set {V} (k : string) (v : V) (d : dict V) : dict V :=
  match d with
  | [] => [(k, v)]
  | (k', v') :: d' =>
      if String.eqb k' k then (k', v) :: d' else (k', v') :: dict_set k v d'
  end.

(** The parts of a parsed URL that the analyzers read. *)
Record ParseResult : Type := {
  netloc : string;
  path : string;
  query : string
}.

(** The rest of a URL after its scheme and netloc. *)
Definition after_netloc (url : string) : string :=
  let url := lstrip_c0 url in
  let url := str_filter (fun c => negb ((code c =? 9)%N || (code c =? 10)%N || (code c =? 13)%N)) url in
  let url := drop_scheme url in
  if startswith url "//" then
    match break_at (fun c => Ascii.eqb c "/"%char || Ascii.eqb c "?"%char || Ascii.eqb c "#"%char)
                   (drop 2 url) with
    | (netloc, Some rest) =>
        drop (2 + String.length netloc) url
    | (_, None) => EmptyString
    end
  else url.

(** [urlsplit] as far as netloc, path and query go: the fragment is cut
    at the first [#], the query at the first [?].  Path parameters
    after a [;] stay in the path. *)
Definition urlsplit_parts (url : string) : option ParseResult :=
  match urlsplit_netloc url with
  | None => None
  | Some netloc =>
      let rest := fst (break_at (fun c => Ascii.eqb c "#"%char) (after_netloc url)) in
      let '(path, query) := break_at (fun c => Ascii.eqb c "?"%char) rest in
      Some {| netloc := netloc; path := path; query := default EmptyString query |}
  end.

End Py.

(** ** Binary floating point

    The rounding binary64 arithmetic applies to the exact result of
    every operation: to the nearest number with a significand of 53
    bits, ties to even.  The exponent is not bounded, so overflow and
    underflow are not modelled. *)

Module Float.
Import Py.
#[local] Open Scope Q_scope.






End Float.

(** ** Data model (src/core/models.py, src/search/client.py) *)

Record Company : Type := {
  company_number : string;
  company_name : string;
  postcode : string;
  sic_codes : option string
}.

Record SearchResult : Type := {
  url : string;
  title : string;
  snippet : string;
  position : Z
}.

(** ** Confidence scorer (src/scoring/confidence.py) *)

Module ConfidenceScorer.
Import Py.
#[local] Open Scope Q_scope.

(** The weight mapping, with its four keys. *)
Record Weights : Type := {
  domain_match : Q;
  tld_relevance : Q;
  search_position : Q;
  title_match : Q
}.

Definition default_weights : Weights :=
  {| domain_match := 0.4; tld_relevance := 0.4;
     search_position := 0.1; title_match := 0.1 |}.

(** [sum(self.weights.values())] *)
Definition total_weight (w : Weights) : Q :=
  (domain_match w + tld_relevance w + search_position w + title_match w)%Q.

(** [ConfidenceScorer.__init__]: the stored weights *)
Definition __init__ (weights : option Weights) : Weights :=
  let w := match weights with Some w => w | None => default_weights end in
  let total := total_weight w in
  if Qltb 0 total then
    {| domain_match := domain_match w / total;
       tld_relevance := tld_relevance w / total;
       search_position := search_position w / total;
       title_match := title_match w / total |}
  else w.

Definition common_suffixes : list string :=
  ["LIMITED"; "LTD"; "PLC"; "LLC"; "INC"; "CORP"; "CO"; "GROUP"].

Definition _clean_company_name_for_matching (name : string) : string :=
  let clean_name := upper (sub_nonword name) in
  let words := split_ws clean_name in
  if (1 <? length words)%nat then
    let last_word := List.last words EmptyString in
    if mem last_word common_suffixes then join " " (removelast words)
    else name
  else name.

(** The result of the nested function [simple_edit_distance]: a bare
    number when one argument is empty, a pair otherwise. *)
Inductive edit_result : Type :=
  | Bare (d : Z)
  | Pair (approx_distance match_percentage : Q).

Definition simple_edit_distance (a b : string) : edit_result :=
  if is_empty a || is_empty b then Bare (Z.max (len a) (len b))
  else
    let length_diff := Z.abs (len a - len b) in
    let matches := zip_matches a b in
    let max_len := Z.max (len a) (len b) in
    let match_percentage :=
      if (0 <? max_len)%Z then (inject_Z matches / inject_Z max_len)%Q else 0%Q in
    let approx_distance :=
      (inject_Z length_diff + inject_Z (len a - matches) * 0.5)%Q in
    Pair approx_distance match_percentage.

(** [edit_dist, match_pct = simple_edit_distance(...)] *)
Definition unpack (r : edit_result) : res (Q * Q) :=
  match r with
  | Bare _ => Raise TypeError
  | Pair d p => Ok (d, p)
  end.

(** The edit-distance ratio computed in place at lines 156-158 and
    again at lines 185-187. *)
Definition inline_edit_distance_ratio (length_diff : Z) (cn dc : string) : res Q :=
  let matches := zip_matches cn dc in
  let edit_dist := (inject_Z length_diff + inject_Z (len cn - matches) * 0.5)%Q in
  div edit_dist (inject_Z (Z.max (len cn) (len dc))).

(** Lines 151-176: containment either way, then the fallbacks. *)
Definition fuzzy_containment (company_words : list string)
    (cn dc : string) (match_ratio : Q) : res Q :=
  if contains dc cn || contains cn dc then
    let length_diff := Z.abs (len cn - len dc) in
    if (0 <? length_diff)%Z then
      edit_distance_ratio ← inline_edit_distance_ratio length_diff cn dc;
      if Qltb 0.2 edit_distance_ratio then Ok (max match_ratio 0.6)
      else Ok (max match_ratio 0.9)
    else Ok (max match_ratio 0.9)
  else if negb (bool_decide (company_words = [])) &&
          existsb (fun word => contains dc word) company_words then
    Ok (max match_ratio 0.7)
  else if (3 <=? len dc)%Z && contains cn dc then
    Ok (max match_ratio 0.8)
  else if startswith dc (take 4 cn) || startswith cn (take 4 dc) then
    Ok (max match_ratio 0.5)
  else Ok match_ratio.

(** Lines 179-195: prefix matching. *)
Definition prefix_matching (cn dc : string) (match_ratio : Q) : res Q :=
  let company_prefix := take (Nat.min 4 (String.length cn)) cn in
  if startswith dc company_prefix then
    let length_diff := Z.abs (len cn - len dc) in
    if (0 <? length_diff)%Z then
      edit_distance_ratio ← inline_edit_distance_ratio length_diff cn dc;
      if Qltb 0.2 edit_distance_ratio then Ok (max match_ratio 0.3)
      else Ok (max match_ratio 0.8)
    else Ok (max match_ratio 0.8)
  else Ok match_ratio.

(** Lines 197-202: hyphen normalization. *)
Definition hyphen_normalization (cn dc : string) (match_ratio : Q) : Q :=
  let domain_no_hyphen := remove_char "-"%char dc in
  let company_no_hyphen := remove_char "-"%char cn in
  if contains domain_no_hyphen company_no_hyphen ||
     contains company_no_hyphen domain_no_hyphen
  then max match_ratio 0.95 else match_ratio.

(** Lines 204-206: acronym matching. *)
Definition acronym_matching (cn dc : string) (match_ratio : Q) : Q :=
  if (len cn <=? 4)%Z && contains dc (lower cn)
  then max match_ratio 0.9 else match_ratio.

(** [''.join(word[0] for word in company_words if len(word) > 0)] *)
Definition initials (company_words : list string) : string :=
  foldr (fun word acc =>
           match word with
           | String c _ => String c acc
           | EmptyString => acc
           end) EmptyString company_words.

(** Lines 208-227: initialism matching. *)
Definition initialism_matching (company_words : list string)
    (cn dc : string) (match_ratio : Q) : res Q :=
  let company_initials := initials company_words in
  if (2 <=? len company_initials)%Z &&
     contains dc (lower company_initials) &&
     (2 <=? length company_words)%nat then
    initials_score ←
      (if (0 <? len cn)%Z && (0 <? len dc)%Z then
         let overlap := common_chars cn dc in
         similarity ← div (inject_Z overlap) (inject_Z (Z.max (len cn) (len dc)));
         if Qltb similarity 0.4 then Ok (max 0.2 (0.5 * similarity * 1.5)%Q)
         else Ok 0.5%Q
       else Ok 0.5%Q);
    Ok (max match_ratio initials_score)
  else Ok match_ratio.

(** Lines 229-272: the edit-distance check on a moderate ratio. *)
Definition edit_distance_check (cn dc : string) (match_ratio : Q) : res Q :=
  if Qle_bool 0.5 match_ratio && Qle_bool match_ratio 0.75 then
    '(edit_dist, match_pct) ← unpack (simple_edit_distance cn dc);
    let max_length := Z.max (len cn) (len dc) in
    if (0 <? max_length)%Z then
      let edit_distance_ratio := (edit_dist / inject_Z max_length)%Q in
      if Qltb 0.5 edit_distance_ratio then
        let penalty := min 0.6 (edit_distance_ratio * 1.5)%Q in
        Ok (max 0.15 (match_ratio * (1.0 - penalty))%Q)
      else if Qltb edit_distance_ratio 0.1 && Qltb 0.8 match_pct then
        Ok (min 0.95 (match_ratio * 1.1)%Q)
      else Ok match_ratio
    else Ok match_ratio
  else Ok match_ratio.

(** The UK postcode pattern [^[A-Z]{1,2}\d[A-Z\d]? ?\d[A-Z]{2}$] of
    [re.match]: the string is matched, from its start to its end,
    against one of the eight expansions of the counted and optional
    atoms. *)
Fixpoint match_classes (cls : list (ascii -> bool)) (s : string) : bool :=
  match cls, s with
  | [], EmptyString => true
  | p :: cls', String c s' => p c && match_classes cls' s'
  | _, _ => false
  end.

Definition uk_postcode_expansions : list (list (ascii -> bool)) :=
  let is_space_char := fun c : ascii => Ascii.eqb c " "%char in
  let upper_or_digit := fun c => is_upper c || is_digit c in
  letters ← [[is_upper; is_upper]; [is_upper]];
  opt1 ← [[upper_or_digit]; []];
  opt2 ← [[is_space_char]; []];
  [letters ++ [is_digit] ++ opt1 ++ opt2 ++ [is_digit; is_upper; is_upper]].

Definition matches_uk_postcode (s : string) : bool :=
  existsb (fun cls => match_classes cls s) uk_postcode_expansions.

Definition uk_tlds : list string := [".co.uk"; ".uk"; ".org.uk"; ".me.uk"; ".net.uk"].
Definition country_tlds : list string :=
  [".us"; ".ca"; ".au"; ".de"; ".fr"; ".jp"; ".cn"; ".ae"; ".sg"].
Definition common_tlds : list string := [".com"; ".org"; ".net"; ".io"; ".biz"].

Definition _calculate_position_score (result : SearchResult) : Q :=
  if (position result <=? 0)%Z then 0.0
  else if (position result =? 1)%Z then 1.0
  else if (position result =? 2)%Z then 0.8
  else if (position result <=? 5)%Z then 0.6
  else if (position result <=? 10)%Z then 0.4
  else max 0.0 (0.7 - inject_Z (position result) * 0.05)%Q.

Definition stop_words : list string :=
  ["the"; "and"; "of"; "for"; "a"; "an"; "in"; "on"; "at"; "to"].

(** [{word for word in s.split() if word not in stop_words and len(word) > 2}] *)
Definition content_words (s : string) : gset string :=
  list_to_set (filter (fun word => negb (mem word stop_words) && (2 <? len word)%Z)
                      (split_ws s)).

Section WithLibrary.

Variable urlparse_netloc : string -> option string.
Variable set_order : list string -> list string.

(** [set(words)], in iteration order *)
Definition mk_set (words : list string) : list string :=
  set_order (remove_dups words).

(** Lines 107-122: the registrable domain of a netloc. *)
Definition main_domain (netloc : string) : string :=
  let domain := lower netloc in
  let domain := if startswith domain "www." then drop 4 domain else domain in
  let domain_parts := split_on "."%char domain in
  let n := length domain_parts in
  if (2 <? n)%nat then
    if mem (nth (n - 2) domain_parts EmptyString) ["co"; "com"; "org"; "net"] &&
       mem (nth (n - 1) domain_parts EmptyString) ["uk"]
    then join "." (last_n 3 domain_parts)
    else join "." (last_n 2 domain_parts)
  else domain.

Definition _calculate_domain_match (company : Company) (result : SearchResult) : res Q :=
  if is_empty (url result) then Ok 0.0
  else catch (
    netloc ← netloc_of urlparse_netloc (url result);
    let domain := main_domain netloc in
    let company_name_cleaned := _clean_company_name_for_matching (company_name company) in
    let company_name := lower (sub_nonword company_name_cleaned) in
    let company_words := mk_set (split_ws company_name) in
    let domain_words :=
      filter (fun word => (2 <? len word)%Z) (split_ws (sub_nonword domain)) in
    let matches :=
      Z.of_nat (length (filter (fun word => mem word domain_words) company_words)) in
    match company_words with
    | [] => Ok 0.0
    | first_word :: company_words' =>
        match_ratio ← div (inject_Z matches) (inject_Z (Z.of_nat (length company_words)));
        (* [company_words.pop()] removes [first_word] from the set *)
        let company_words := company_words' in
        let match_ratio :=
          if startswith domain first_word then min 1.0 (match_ratio + 0.2)%Q
          else match_ratio in
        let company_name_clean := alnum_only company_name in
        let domain_clean := alnum_only domain in
        match_ratio ← fuzzy_containment company_words company_name_clean domain_clean match_ratio;
        match_ratio ← prefix_matching company_name_clean domain_clean match_ratio;
        let match_ratio := hyphen_normalization company_name_clean domain_clean match_ratio in
        let match_ratio := acronym_matching company_name_clean domain_clean match_ratio in
        match_ratio ← initialism_matching company_words company_name_clean domain_clean match_ratio;
        edit_distance_check company_name_clean domain_clean match_ratio
    end) 0.0.

Definition _calculate_tld_relevance (result : SearchResult) (company : Company) : res Q :=
  if is_empty (url result) then Ok 0.0
  else catch (
    netloc ← netloc_of urlparse_netloc (url result);
    let domain := lower netloc in
    let is_uk_company :=
      negb (is_empty (postcode company)) &&
      matches_uk_postcode (strip (upper (postcode company))) in
    if existsb (fun tld => endswith domain tld) uk_tlds then
      Ok (if is_uk_company then 1.0 else 0.8)
    else if is_uk_company && endswith domain ".in" then Ok 0.05
    else if is_uk_company && existsb (fun tld => endswith domain tld) country_tlds then
      Ok 0.1
    else if existsb (fun tld => endswith domain tld) common_tlds then
      Ok (if is_uk_company then 0.5 else 0.7)
    else Ok 0.2) 0.2.

Definition _calculate_title_match (company : Company) (result : SearchResult) : res Q :=
  if is_empty (title result) then Ok 0.0
  else catch (
    let company_name := lower (sub_nonword (company_name company)) in
    let title := lower (sub_nonword (title result)) in
    let company_words := content_words company_name in
    let title_words := content_words title in
    if bool_decide (company_words = ∅) then Ok 0.0
    else
      let intersection := company_words ∩ title_words in
      let union := company_words ∪ title_words in
      if bool_decide (union = ∅) then Ok 0.0
      else
        similarity ← div (inject_Z (Z.of_nat (size intersection)))
                         (inject_Z (Z.of_nat (size union)));
        if contains title company_name then Ok (min 1.0 (similarity + 0.3)%Q)
        else Ok similarity) 0.0.

(** [calculate_score] of a scorer whose stored weights are [weights]. *)
Definition calculate_score (weights : Weights) (company : Company)
    (result : SearchResult) : res Q :=
  domain_score ← _calculate_domain_match company result;
  tld_score ← _calculate_tld_relevance result company;
  let position_score := _calculate_position_score result in
  title_score ← _calculate_title_match company result;
  let confidence :=
    (domain_score * domain_match weights +
     tld_score * tld_relevance weights +
     position_score * search_position weights +
     title_score * title_match weights)%Q in
  Ok (round (confidence * 100) 2).

Fixpoint filter_by_confidence (weights : Weights) (results : list SearchResult)
    (company : Company) (threshold : Q) : res (list SearchResult) :=
  match results with
  | [] => Ok []
  | result :: rest =>
      score ← calculate_score weights company result;
      filtered ← filter_by_confidence weights rest company threshold;
      Ok (if Qle_bool threshold score then result :: filtered else filtered)
  end.

Definition _approximate_confidence (result : SearchResult) : res Q :=
  if is_empty (title result) || is_empty (url result) then Ok 0.0
  else
    let title_quality :=
      min 1.0 (inject_Z (Z.of_nat (length (split_ws (title result)))) / 5.0) in
    let position_quality :=
      max 0.0 (1.0 - inject_Z (position result - 1) * 0.2) in
    netloc ← netloc_of urlparse_netloc (url result);
    let domain := lower netloc in
    let domain_quality :=
      if contains domain "companycheck" || contains domain "globaldatabase" then 0.1
      else if existsb (fun ext => contains domain ext) [".co.uk"; ".com"; ".org"] then 0.8
      else 0.5 in
    Ok ((title_quality * 0.4 + position_quality * 0.4 + domain_quality * 0.2) * 100).

End WithLibrary.

End ConfidenceScorer.

(** ** The constructor of the scorer in rounded arithmetic
    (src/scoring/confidence.py)

    [ConfidenceScorer.__init__] with the result of every division
    rounded by [fl] and the sum of the weights computed by [fsum]; with
    [fl] the identity and [fsum] the exact sum it is the constructor
    above. *)

Module FloatScorer.
Import Py ConfidenceScorer.
#[local] Open Scope Q_scope.

Section Rounded.

(** The rounding applied to the exact result of one operation. *)
Variable fl : Q -> Q.


(** [sum(self.weights.values())], the built-in being library code. *)
Variable fsum : Weights -> Q.

(** [ConfidenceScorer.__init__]: the stored weights *)
Definition __init__ (weights : option Weights) : Weights :=
  let w := match weights with Some w => w | None => default_weights end in
  let total_weight := fsum w in
  if Qltb 0 total_weight then
    {| domain_match := fl (domain_match w / total_weight);
       tld_relevance := fl (tld_relevance w / total_weight);
       search_position := fl (search_position w / total_weight);
       title_match := fl (title_match w / total_weight) |}
  else w.

End Rounded.

End FloatScorer.

(** ** Static blocklist filter (src/filtering/blocklist.py) *)

Module BlocklistFilter.
Import Py.

(** [BlocklistFilter.__init__]: the stored blocklist *)
Definition __init__ (blocklist : list string) : list string :=
  map (fun domain => strip (lower domain))
      (filter (fun domain => negb (is_empty (strip domain))) blocklist).

(** [update_blocklist]: the blocklist stored afterwards *)
Definition update_blocklist (new_blocklist : list string) : list string :=
  map (fun domain => strip (lower domain))
      (filter (fun domain => negb (is_empty (strip domain))) new_blocklist).

Section WithLibrary.

Variable urlparse_netloc : string -> option string.

Definition _is_blocked (blocklist : list string) (u : string) : res bool :=
  if is_empty u then Ok false
  else catch (
    netloc ← netloc_of urlparse_netloc u;
    let domain := lower netloc in
    let domain := if startswith domain "www." then drop 4 domain else domain in
    Ok (existsb (fun blocked_domain =>
                   String.eqb domain blocked_domain ||
                   endswith domain ("." +:+ blocked_domain)) blocklist)) false.

Fixpoint filter_results (blocklist : list string) (results : list SearchResult)
    : res (list SearchResult) :=
  match results with
  | [] => Ok []
  | result :: rest =>
      blocked ← _is_blocked blocklist (url result);
      kept ← filter_results blocklist rest;
      Ok (if (blocked : bool) then kept else result :: kept)
  end.

End WithLibrary.

End BlocklistFilter.

(** ** Domain frequency tracker (src/filtering/domain_frequency.py) *)

Module DomainFrequencyTracker.
Import Py.

Record Tracker : Type := {
  domain_counts : dict Z;
  company_domains : dict (gset string);
  total_searches : Z
}.

Definition __init__ : Tracker :=
  {| domain_counts := []; company_domains := []; total_searches := 0 |}.

(** [self.domain_counts[domain] += 1; self.company_domains[domain].add(company_name)] *)
Definition record_domain (company_name domain : string) (t : Tracker) : Tracker :=
  {| domain_counts := dict_update 0%Z (fun c => (c + 1)%Z) domain (domain_counts t);
     company_domains :=
       dict_update (∅ : gset string) (fun s => s ∪ {[company_name]}) domain (company_domains t);
     total_searches := total_searches t |}.

(** [self.domain_counts.get(domain, 0)] *)
Definition count_of (t : Tracker) (domain : string) : Z :=
  default 0%Z (dict_get (domain_counts t) domain).

(** The frequency of [get_domain_stats] and [_is_aggregator]:
    [count / self.total_searches if self.total_searches > 0 else 0] *)
Definition frequency (t : Tracker) (count : Z) : Q :=
  if (0 <? total_searches t)%Z then (inject_Z count / inject_Z (total_searches t))%Q
  else 0%Q.

Definition _is_aggregator (t : Tracker) (domain : string)
    (threshold : Q) (min_occurrences : Z) : bool :=
  let count := count_of t domain in
  (min_occurrences <=? count)%Z && Qle_bool threshold (frequency t count).

(** The body of the loop of [identify_aggregators]. *)
Fixpoint aggregators_of (items : dict Z) (total : Z) (threshold : Q)
    (min_occurrences : Z) (aggregators : gset string) : res (gset string) :=
  match items with
  | [] => Ok aggregators
  | (domain, count) :: items' =>
      frequency ← div (inject_Z count) (inject_Z total);
      aggregators_of items' total threshold min_occurrences
        (if (min_occurrences <=? count)%Z && Qle_bool threshold frequency
         then aggregators ∪ {[domain]} else aggregators)
  end.

Definition identify_aggregators (t : Tracker) (threshold : Q) (min_occurrences : Z)
    : res (gset string) :=
  if (total_searches t =? 0)%Z then Ok ∅
  else aggregators_of (domain_counts t) (total_searches t) threshold min_occurrences ∅.

(** The default arguments [threshold=0.3, min_occurrences=3]. *)
Definition default_threshold : Q := 0.3%Q.
Definition default_min_occurrences : Z := 3.

(** The dictionary returned by [get_domain_stats]; the list of
    companies is kept as the set it is made from. *)
Record DomainStats : Type := {
  stats_count : Z;
  stats_frequency : Q;
  stats_companies : gset string;
  stats_is_aggregator : bool
}.

Definition get_domain_stats (t : Tracker) (domain : string) : DomainStats :=
  let count := count_of t domain in
  {| stats_count := count;
     stats_frequency := frequency t count;
     stats_companies := default ∅ (dict_get (company_domains t) domain);
     stats_is_aggregator := _is_aggregator t domain default_threshold default_min_occurrences |}.

(** The dictionary returned by [get_summary]. *)
Record Summary : Type := {
  summary_total_searches : Z;
  unique_domains : Z;
  identified_aggregators : Z;
  aggregator_domains : gset string;
  average_domains_per_search : Q
}.

Definition get_summary (t : Tracker) : res Summary :=
  aggregators ← identify_aggregators t default_threshold default_min_occurrences;
  let unique_domains := Z.of_nat (length (domain_counts t)) in
  average ←
    (if (0 <? total_searches t)%Z
     then div (inject_Z unique_domains) (inject_Z (total_searches t))
     else Ok 0%Q);
  Ok {| summary_total_searches := total_searches t;
        unique_domains := unique_domains;
        identified_aggregators := Z.of_nat (size aggregators);
        aggregator_domains := aggregators;
        average_domains_per_search := average |}.

Definition reset (t : Tracker) : Tracker :=
  {| domain_counts := []; company_domains := []; total_searches := 0 |}.

Section WithLibrary.

Variable urlparse_netloc : string -> option string.

Definition _extract_domain (u : string) : res string :=
  domain ← netloc_of urlparse_netloc u;
  let domain := if startswith domain "www." then drop 4 domain else domain in
  Ok (hd EmptyString (split_on ":"%char domain)).

(** The loop of [track_search_results]; an exception leaves the updates
    made so far in place. *)
Fixpoint track_loop (company_name : string) (search_results : list SearchResult)
    (t : Tracker) : Tracker * res unit :=
  match search_results with
  | [] => (t, Ok tt)
  | result :: rest =>
      match _extract_domain (url result) with
      | Ok domain => track_loop company_name rest (record_domain company_name domain t)
      | Raise e => (t, Raise e)
      end
  end.

Definition track_search_results (company_name : string)
    (search_results : list SearchResult) (t : Tracker) : Tracker * res unit :=
  track_loop company_name search_results
    {| domain_counts := domain_counts t;
       company_domains := company_domains t;
       total_searches := total_searches t + 1 |}.

(** The states a tracker goes through from construction, under calls of
    [track_search_results] (whether they return or raise). *)
Inductive reachable : Tracker -> Prop :=
  | reachable_init : reachable __init__
  | reachable_track t company_name search_results :
      reachable t ->
      reachable (fst (track_search_results company_name search_results t)).

(** The domains a call of [track_search_results] counts when every
    URL parses. *)
Definition call_domains (search_results : list SearchResult) : list string :=
  omap (fun result =>
          match _extract_domain (url result) with
          | Ok domain => Some domain
          | Raise _ => None
          end) search_results.

(** The states reached when no call lists a domain twice. *)
Inductive reachable_distinct : Tracker -> Prop :=
  | reachable_distinct_init : reachable_distinct __init__
  | reachable_distinct_track t company_name search_results :
      reachable_distinct t ->
      NoDup (call_domains search_results) ->
      reachable_distinct (fst (track_search_results company_name search_results t)).

End WithLibrary.

End DomainFrequencyTracker.

(** ** Combined filter (src/filtering/domain_frequency.py) *)

Module EnhancedBlocklistFilter.
Import Py DomainFrequencyTracker.

(** An entry of the report of [get_suspected_aggregators]. *)
Record Suspect : Type := {
  domain : string;
  count : Z;
  frequency : Q;
  companies : gset string
}.

(** The loop of [get_suspected_aggregators]. *)
Fixpoint suspected_of (static_blocklist : list string) (t : Tracker)
    (confirmed_aggregators : gset string) (min_suspicion : Q)
    (items : dict Z) : res (list Suspect) :=
  match items with
  | [] => Ok []
  | (domain, count) :: items' =>
      if mem domain static_blocklist || bool_decide (domain ∈ confirmed_aggregators)
      then suspected_of static_blocklist t confirmed_aggregators min_suspicion items'
      else
        frequency ← div (inject_Z count) (inject_Z (total_searches t));
        suspected ← suspected_of static_blocklist t confirmed_aggregators min_suspicion items';
        Ok (if Qle_bool min_suspicion frequency
            then {| domain := domain; count := count; frequency := frequency;
                    companies := default ∅ (dict_get (company_domains t) domain) |}
                 :: suspected
            else suspected)
  end.

Definition get_suspected_aggregators (static_blocklist : list string) (t : Tracker)
    (min_suspicion : Q) : res (list Suspect) :=
  confirmed_aggregators ← identify_aggregators t default_threshold default_min_occurrences;
  suspected ← suspected_of static_blocklist t confirmed_aggregators min_suspicion
                (domain_counts t);
  Ok (sort_desc frequency suspected).

(** The dictionary returned by [get_filtering_report]. *)
Record Report : Type := {
  static_blocklist_size : Z;
  dynamic_aggregators_detected : Z;
  total_blocked_domains : Z;
  frequency_summary : Summary
}.

Definition get_filtering_report (static_blocklist : list string) (t : Tracker)
    : res Report :=
  let static_blocked := Z.of_nat (length static_blocklist) in
  aggregators ← identify_aggregators t default_threshold default_min_occurrences;
  let dynamic_aggregators := Z.of_nat (size aggregators) in
  summary ← get_summary t;
  Ok {| static_blocklist_size := static_blocked;
        dynamic_aggregators_detected := dynamic_aggregators;
        total_blocked_domains := (static_blocked + dynamic_aggregators)%Z;
        frequency_summary := summary |}.

Section WithLibrary.

Variable urlparse_netloc : string -> option string.

Fixpoint _apply_static_filter (static_blocklist : list string)
    (results : list SearchResult) : res (list SearchResult) :=
  match results with
  | [] => Ok []
  | result :: rest =>
      domain ← _extract_domain urlparse_netloc (url result);
      filtered ← _apply_static_filter static_blocklist rest;
      Ok (if mem domain static_blocklist then filtered else result :: filtered)
  end.

(** The last loop of [_apply_dynamic_filter]. *)
Fixpoint drop_aggregators (aggregators : gset string)
    (results : list SearchResult) : res (list SearchResult) :=
  match results with
  | [] => Ok []
  | result :: rest =>
      domain ← _extract_domain urlparse_netloc (url result);
      filtered ← drop_aggregators aggregators rest;
      Ok (if bool_decide (domain ∈ aggregators) then filtered else result :: filtered)
  end.

Definition _apply_dynamic_filter (results : list SearchResult) (company_name : string)
    (t : Tracker) : Tracker * res (list SearchResult) :=
  let '(t, tracked) := track_search_results urlparse_netloc company_name results t in
  (t, _ ← tracked;
      aggregators ← identify_aggregators t default_threshold default_min_occurrences;
      drop_aggregators aggregators results).

Definition filter_results (static_blocklist : list string)
    (results : list SearchResult) (company_name : string) (t : Tracker)
    : Tracker * res (list SearchResult) :=
  match _apply_static_filter static_blocklist results with
  | Ok filtered => _apply_dynamic_filter filtered company_name t
  | Raise e => (t, Raise e)
  end.

End WithLibrary.

End EnhancedBlocklistFilter.

(** ** URL quality analyzer (src/scoring/url_quality.py) *)

Module URLQualityAnalyzer.
Import Py.
#[local] Open Scope Q_scope.

Definition _aggregator_keywords : list string :=
  ["company"; "business"; "data"; "check"; "directory";
   "search"; "info"; "profile"; "register"; "database";
   "browse"; "insight"; "report"; "detail"; "find";
   "check"; "verify"; "search"; "lookup"; "directory"].

(** [re.compile(r'[A-Z][a-z]+|[a-z]+').findall(s)], scanning from the
    left: [cur] is the match in progress (reversed) and [pending] an
    upper-case letter that still needs a lower-case letter after it. *)
Fixpoint findall_go (cur : option string) (pending : option ascii) (s : string)
    : list string :=
  match s with
  | EmptyString => option_list (String.rev <$> cur)
  | String c s' =>
      if is_lower c then
        match cur, pending with
        | Some w, _ => findall_go (Some (String c w)) None s'
        | None, Some u => findall_go (Some (String c (String u EmptyString))) None s'
        | None, None => findall_go (Some (String c EmptyString)) None s'
        end
      else
        option_list (String.rev <$> cur) ++
        findall_go None (if is_upper c then Some c else None) s'
  end.

Definition _company_word_regex_findall (s : string) : list string :=
  findall_go None None s.

Definition _analyze_domain (company_name domain : string) : Q :=
  let score := 100.0 in
  let company_words := _company_word_regex_findall (lower company_name) in
  let name_match := existsb (fun word => contains (lower domain) word) company_words in
  let score := if negb name_match then score - 50.0 else score in
  let score :=
    foldl (fun score keyword =>
             if contains (lower domain) keyword then score - 20.0 else score)
          score _aggregator_keywords in
  let score :=
    if startswith (lower domain) (remove_char " "%char (lower company_name))
    then score + 10.0
    else if existsb (fun word => contains (lower domain) word) company_words
    then score + 5.0
    else score in
  max 0.0 (min 100.0 score).

Definition _genuine_paths : list string :=
  ["/about"; "/company"; "/about-us"; "/contact"; "/team"].

Definition _aggregator_paths : list string :=
  ["/company/"; "/companies/"; "/business/"; "/profile/";
   "/search/"; "/insight/"; "/report/"; "/detail.php";
   "/browse/"; "/company-profiles"; "/directory/";
   "/company_number"; "/companyname"; "/comp/"].

Definition _clean_domain (domain : string) : string :=
  let domain := if startswith domain "www." then drop 4 domain else domain in
  hd EmptyString (split_on ":"%char domain).

Definition _analyze_path (path : string) : Q :=
  let score := 100.0 in
  let path_lower := lower path in
  let score :=
    if existsb (fun pattern => contains path_lower (lower pattern)) _aggregator_paths
    then score - 30.0 else score in
  let score :=
    if existsb (fun pattern => contains path_lower (lower pattern)) _genuine_paths
    then score + 10.0 else score in
  max 0.0 (min 100.0 score).

Definition _analyze_parameters (query : string) : Q :=
  let score := 100.0 in
  if is_empty query then score
  else
    let query_lower := lower query in
    let score :=
      if existsb (fun param => contains query_lower param)
                 ["company"; "comp"; "business"; "id"; "number"]
      then score - 40.0 else score in
    max 0.0 (min 100.0 score).

Definition _analyze_tld (domain : string) : Q :=
  let parts := split_on "."%char domain in
  let tld := lower (List.last parts EmptyString) in
  let trusted_tlds := ["co.uk"; "com"; "uk"; "org"; "net"; "io"; "ai"; "uk"] in
  if mem tld trusted_tlds then 100.0
  else if (len tld <=? 3)%Z then 90.0
  else 70.0.

Section WithLibrary.

Variable urlparse : string -> option ParseResult.

(** [except Exception] catches whatever the body raises. *)
Definition calculate_url_quality (company_name u : string) : Q :=
  match urlparse u with
  | Some parsed =>
      let domain := _clean_domain (netloc parsed) in
      let domain_score := _analyze_domain company_name domain in
      let path_score := _analyze_path (path parsed) in
      let param_score := _analyze_parameters (query parsed) in
      let tld_score := _analyze_tld domain in
      let final_score :=
        domain_score * 0.4 + path_score * 0.3 + param_score * 0.2 + tld_score * 0.1 in
      round final_score 1
  | None => 50.0
  end.

Definition is_high_quality (min_quality_threshold : Q) (company_name u : string) : bool :=
  Qle_bool min_quality_threshold (calculate_url_quality company_name u).

End WithLibrary.

End URLQualityAnalyzer.

(** ** Cache of URL quality scores (src/scoring/url_quality.py) *)

Module URLQualityCache.
Import Py.

Definition cache_key (company_name u : string) : string * string :=
  (lower company_name, u).

Section WithLibrary.

Variable urlparse : string -> option ParseResult.

(** [get_score]: the cache afterwards and the score returned. *)
Definition get_score (company_name u : string) (_cache : gmap (string * string) Q)
    : gmap (string * string) Q * Q :=
  let key := cache_key company_name u in
  match _cache !! key with
  | Some score => (_cache, score)
  | None =>
      let score := URLQualityAnalyzer.calculate_url_quality urlparse company_name u in
      (<[key := score]> _cache, score)
  end.

Definition is_high_quality (min_quality_threshold : Q) (company_name u : string)
    (_cache : gmap (string * string) Q) : gmap (string * string) Q * bool :=
  let '(_cache, score) := get_score company_name u _cache in
  (_cache, Qle_bool min_quality_threshold score).

End WithLibrary.

Definition clear_cache (_cache : gmap (string * string) Q) : gmap (string * string) Q := ∅.

Definition get_cache_size (_cache : gmap (string * string) Q) : Z :=
  Z.of_nat (size _cache).

End URLQualityCache.

(** ** Persistence of the tracker (src/filtering/domain_frequency.py)

    The cache is the dictionary held in memory; the file it is written
    to by [save_cache] is not modelled. *)

Module DomainCachePersistence.
Import Py.

Record Cache : Type := {
  domain_counts : dict Z;
  company_domains : dict (list string);
  total_searches : Z
}.

(** The cache of [_load_cache] when there is no file, and of
    [clear_cache]. *)
Definition empty_cache : Cache :=
  {| domain_counts := []; company_domains := []; total_searches := 0 |}.

Definition update_cache (domain company_name : string) (cache : Cache) : Cache :=
  let counts :=
    dict_set domain (default 0%Z (dict_get (domain_counts cache) domain) + 1)%Z
             (domain_counts cache) in
  let known := default [] (dict_get (company_domains cache) domain) in
  let companies :=
    if mem company_name known then company_domains cache
    else dict_set domain (known ++ [company_name]) (company_domains cache) in
  {| domain_counts := counts; company_domains := companies;
     total_searches := total_searches cache |}.

Definition increment_search_count (cache : Cache) : Cache :=
  {| domain_counts := domain_counts cache;
     company_domains := company_domains cache;
     total_searches := total_searches cache + 1 |}.

(** [load_into_tracker]: the state of the tracker afterwards. *)
Definition load_into_tracker (cache : Cache) : DomainFrequencyTracker.Tracker :=
  {| DomainFrequencyTracker.domain_counts := domain_counts cache;
     DomainFrequencyTracker.company_domains :=
       map (fun '(domain, companies) => (domain, (list_to_set companies : gset string)))
           (company_domains cache);
     DomainFrequencyTracker.total_searches := total_searches cache |}.

Definition clear_cache (cache : Cache) : Cache := empty_cache.

End DomainCachePersistence.

(** ** The specification's reading of the filters and of the analyzer *)

Module Spec.
Import Py.
#[local] Open Scope Q_scope.

(** The domain normalizer of section 4.1: the network location,
    lower-cased, without a leading [www.] and without a port suffix
    (what follows the first colon, as the normalizers of the
    repository cut it); the empty string for an empty or malformed
    URL. *)
Definition normalize (urlparse_netloc : string -> option string)
    (u : string) : string :=
  if is_empty u then EmptyString
  else match urlparse_netloc u with
       | Some netloc =>
           let domain := lower netloc in
           let domain := if startswith domain "www." then drop 4 domain else domain in
           hd EmptyString (split_on ":"%char domain)
       | None => EmptyString
       end.

(** A blocklist entry counts once trimmed and lower-cased; a blank
    entry is no entry. *)
Definition entry_of (raw : string) : string := lower (strip raw).

(** [domain] is the entry itself or a subdomain of it. *)
Definition matches_entry (domain entry : string) : Prop :=
  domain = entry \/ exists sub, domain = sub +:+ "." +:+ entry.

Definition blocked (blocklist : list string) (domain : string) : Prop :=
  exists raw, raw ∈ blocklist /\ entry_of raw <> EmptyString /\
              matches_entry domain (entry_of raw).

(** The domain sub-analysis as the specification words it: twenty
    points for each aggregator keyword that occurs in the domain. *)
Definition keywords_found (keywords : list string) (domain : string) : list string :=
  filter (fun keyword => contains domain keyword) (remove_dups keywords).

Definition analyze_domain (keywords : list string) (company_name domain : string) : Q :=
  let tokens := URLQualityAnalyzer._company_word_regex_findall (lower company_name) in
  let token_appears := existsb (fun token => contains (lower domain) token) tokens in
  let score := 100 in
  let score := if token_appears then score else score - 50 in
  let score := score - 20 * inject_Z (Z.of_nat (length (keywords_found keywords (lower domain)))) in
  let score :=
    if startswith (lower domain) (remove_char " "%char (lower company_name))
    then score + 10
    else if token_appears then score + 5 else score in
  max 0 (min 100 score).

End Spec.

(** ** Predicates of the statements *)

Module Props.
Import Py.
#[local] Open Scope Q_scope.

(** A sub-score is a fraction. *)
Definition unit_interval (q : Q) : Prop := 0 <= q <= 1.

(** A weight mapping without negative weights. *)
Definition nonneg_weights (w : ConfidenceScorer.Weights) : Prop :=
  0 <= ConfidenceScorer.domain_match w /\ 0 <= ConfidenceScorer.tld_relevance w /\
  0 <= ConfidenceScorer.search_position w /\ 0 <= ConfidenceScorer.title_match w.

(** The words of the cleaned company name, before they are put in
    iteration order. *)
Definition company_words_of (company : Company) : list string :=
  remove_dups
    (split_ws (lower (sub_nonword
       (ConfidenceScorer._clean_company_name_for_matching (company_name company))))).

(** The URL of [result] parses. *)
Definition parses (urlparse_netloc : string -> option string)
    (result : SearchResult) : Prop :=
  urlparse_netloc (url result) <> None.

(** [a] comes before [b] in an order of decreasing keys. *)
Definition desc {A} (key : A -> Q) (a b : A) : Prop := key b <= key a.

(** The entry reported for a domain [d] seen [c] times. *)
Definition suspect_entry (t : DomainFrequencyTracker.Tracker) (d : string) (c : Z)
    : EnhancedBlocklistFilter.Suspect :=
  {| EnhancedBlocklistFilter.domain := d;
     EnhancedBlocklistFilter.count := c;
     EnhancedBlocklistFilter.frequency :=
       inject_Z c / inject_Z (DomainFrequencyTracker.total_searches t);
     EnhancedBlocklistFilter.companies :=
       default ∅ (dict_get (DomainFrequencyTracker.company_domains t) d) |}.

(** [d] is a confirmed aggregator: at least [default_min_occurrences]
    occurrences and a frequency of at least [default_threshold]. *)
Definition confirmed (t : DomainFrequencyTracker.Tracker) (d : string) : Prop :=
  DomainFrequencyTracker.total_searches t <> 0%Z /\
  exists c, (d, c) ∈ DomainFrequencyTracker.domain_counts t /\
            (DomainFrequencyTracker.default_min_occurrences <= c)%Z /\
            DomainFrequencyTracker.default_threshold
              <= inject_Z c / inject_Z (DomainFrequencyTracker.total_searches t).

(** The test of [_is_blocked] on the string it compares. *)
Definition entry_test (domain blocked_domain : string) : bool :=
  String.eqb domain blocked_domain || endswith domain ("." +:+ blocked_domain).

(** The string [_is_blocked] compares with the entries: the netloc,
    lower-cased, without a leading [www.], its port left in place. *)
Definition compared_domain (urlparse_netloc : string -> option string)
    (u : string) : string :=
  if is_empty u then EmptyString
  else match urlparse_netloc u with
       | Some netloc =>
           let domain := lower netloc in
           if startswith domain "www." then drop 4 domain else domain
       | None => EmptyString
       end.

(** The netloc of the URL of [result], when it parses, has no colon,
    hence no port. *)
Definition portless (urlparse_netloc : string -> option string)
    (result : SearchResult) : Prop :=
  forall netloc, urlparse_netloc (url result) = Some netloc ->
                 str_forallb (fun c => negb (Ascii.eqb c ":"%char)) netloc = true.

(** The standard model of floating-point arithmetic: [fl] returns the
    exact result with a relative error of at most [u]. *)
Definition standard_model (fl : Q -> Q) (u : Q) : Prop :=
  0 <= u /\ forall x, Qabs (fl x - x) <= u * Qabs x.

(** The accuracy of a summation of the four weights: the sum of
    non-negative values is returned with a relative error of at most
    [4 * u] below and [5 * u] above, which four rounded additions
    keep to. *)
Definition sum_model (fsum : ConfidenceScorer.Weights -> Q) (u : Q) : Prop :=
  forall w, nonneg_weights w ->
    ConfidenceScorer.total_weight w * (1 - 4 * u) <= fsum w
      <= ConfidenceScorer.total_weight w * (1 + 5 * u).

End Props.

(** ** Concrete scenarios *)

Module Examples.
Import Py.
#[local] Open Scope Q_scope.

Definition acme : Company :=
  {| company_number := "12345678"; company_name := "ACME SOFTWARE LIMITED";
     postcode := "SW1A 1AA"; sic_codes := None |}.

Definition acme_site : SearchResult :=
  {| url := "https://acmesoftware.co.uk"; title := "Acme Software Ltd";
     snippet := ""; position := 1 |}.

(** A URL on which [urlparse] raises [ValueError]. *)
Definition unparseable : SearchResult :=
  {| url := "http://[bad"; title := ""; snippet := ""; position := 0 |}.

Definition page (u : string) : SearchResult :=
  {| url := u; title := ""; snippet := ""; position := 1 |}.


Definition heavy_weights : ConfidenceScorer.Weights :=
  {| ConfidenceScorer.domain_match := 0.6; ConfidenceScorer.tld_relevance := 0.3;
     ConfidenceScorer.search_position := 0.2; ConfidenceScorer.title_match := 0.1 |}.

(** One search whose two results share a domain. *)
Definition doubled : DomainFrequencyTracker.Tracker :=
  fst (DomainFrequencyTracker.track_search_results urlsplit_netloc "A"
         [page "https://a.com/1"; page "https://a.com/2"]
         DomainFrequencyTracker.__init__).

(** One search with one result. *)
Definition single : DomainFrequencyTracker.Tracker :=
  fst (DomainFrequencyTracker.track_search_results urlsplit_netloc "A"
         [page "https://a.com/1"] DomainFrequencyTracker.__init__).

(** Two searches, the first with two results. *)
Definition two_searches : DomainFrequencyTracker.Tracker :=
  fst (DomainFrequencyTracker.track_search_results urlsplit_netloc "B" []
         (fst (DomainFrequencyTracker.track_search_results urlsplit_netloc "A"
                 [page "https://a.com/1"; page "https://b.com"]
                 DomainFrequencyTracker.__init__))).


(** A page of a blocklisted domain, reached through a port. *)
Definition with_port : SearchResult := page "https://blocked.co.uk:8080/x".

End Examples.

(** ** Invariants of the tracker and predicates of the further properties *)

Module Invariants.
Import Py.
#[local] Open Scope Q_scope.

(** The two dictionaries of a tracker hold the same domains in the same
    order, each once; every count is at least 1; every set of companies
    is non-empty and no larger than the count of its domain. *)
Definition well_formed (t : DomainFrequencyTracker.Tracker) : Prop :=
  NoDup (map fst (DomainFrequencyTracker.domain_counts t)) /\
  map fst (DomainFrequencyTracker.company_domains t)
    = map fst (DomainFrequencyTracker.domain_counts t) /\
  (forall d c, dict_get (DomainFrequencyTracker.domain_counts t) d = Some c ->
     (1 <= c)%Z) /\
  (forall d s, dict_get (DomainFrequencyTracker.company_domains t) d = Some s ->
     s <> ∅ /\ (Z.of_nat (size s) <= DomainFrequencyTracker.count_of t d)%Z).

(** The number of searches is not negative, nothing is recorded before
    the first search, and no domain has more companies than there were
    searches. *)
Definition companies_bounded (t : DomainFrequencyTracker.Tracker) : Prop :=
  (0 <= DomainFrequencyTracker.total_searches t)%Z /\
  (DomainFrequencyTracker.total_searches t = 0%Z ->
     DomainFrequencyTracker.domain_counts t = [] /\
     DomainFrequencyTracker.company_domains t = []) /\
  forall d s, dict_get (DomainFrequencyTracker.company_domains t) d = Some s ->
              (Z.of_nat (size s) <= DomainFrequencyTracker.total_searches t)%Z.

(** The conversion of one cached entry by [load_into_tracker]. *)
Definition to_set (entry : string * list string) : string * gset string :=
  let '(domain, companies) := entry in (domain, list_to_set companies).

(** Two weight mappings hold the same numbers. *)
Definition weights_eq (w w' : ConfidenceScorer.Weights) : Prop :=
  ConfidenceScorer.domain_match w == ConfidenceScorer.domain_match w' /\
  ConfidenceScorer.tld_relevance w == ConfidenceScorer.tld_relevance w' /\
  ConfidenceScorer.search_position w == ConfidenceScorer.search_position w' /\
  ConfidenceScorer.title_match w == ConfidenceScorer.title_match w'.

(** Every weight of [w] multiplied by [k]. *)
Definition scale_weights (k : Q) (w : ConfidenceScorer.Weights)
    : ConfidenceScorer.Weights :=
  {| ConfidenceScorer.domain_match := k * ConfidenceScorer.domain_match w;
     ConfidenceScorer.tld_relevance := k * ConfidenceScorer.tld_relevance w;
     ConfidenceScorer.search_position := k * ConfidenceScorer.search_position w;
     ConfidenceScorer.title_match := k * ConfidenceScorer.title_match w |}.

(** The netloc ends in one of the UK TLDs of [_calculate_tld_relevance]. *)
Definition has_uk_tld (netloc : string) : bool :=
  existsb (fun tld => endswith (lower netloc) tld) ConfidenceScorer.uk_tlds.

(** Every score held by the cache is the score the analyzer computes
    for a company name and a URL with that key. *)
Definition cache_coherent (urlparse : string -> option ParseResult)
    (cache : gmap (string * string) Q) : Prop :=
  forall company_name u score,
    cache !! URLQualityCache.cache_key company_name u = Some score ->
    score = URLQualityAnalyzer.calculate_url_quality urlparse company_name u.

(** The number of entries of [l], counted with repetitions, on which
    [p] holds. *)
Definition hits (p : string -> bool) (l : list string) : nat :=
  length (filter (fun k => p k) l).

End Invariants.

(** ** Further scenarios *)

Module Scenarios.
Import Py.
#[local] Open Scope Q_scope.

(** The candidate of [Examples.acme_site] at another position. *)
Definition ranked (p : Z) : SearchResult :=
  {| url := "https://acmesoftware.co.uk"; title := "Acme Software Ltd";
     snippet := ""; position := p |}.

(** A candidate whose title is the company's name. *)
Definition namesake : SearchResult :=
  {| url := "https://example.org"; title := "ACME SOFTWARE LIMITED";
     snippet := ""; position := 2 |}.

(** A cache with one sighting and no search counted. *)
Definition sighting_only : DomainCachePersistence.Cache :=
  DomainCachePersistence.update_cache "a.com" "A" DomainCachePersistence.empty_cache.

End Scenarios.

(** * Properties *)

Import Py Props Examples.


Section QFacts.
#[local] Open Scope Q_scope.

Lemma Qltb_true x y : Qltb x y = true <-> x < y.
Proof.
  unfold Qltb. rewrite negb_true_iff, <- not_true_iff_false, Qle_bool_iff.
  split; intros H; [by apply Qnot_le_lt | by apply Qlt_not_le].
Qed.

Lemma Qltb_false x y : Qltb x y = false <-> y <= x.
Proof. unfold Qltb. by rewrite negb_false_iff, Qle_bool_iff. Qed.

Lemma Qle_bool_false x y : Qle_bool x y = false <-> y < x.
Proof.
  rewrite <- not_true_iff_false, Qle_bool_iff.
  split; intros H; [by apply Qnot_le_lt | by apply Qlt_not_le].
Qed.

Lemma div_ok a b : ~ b == 0 -> div a b = Ok (a / b).
Proof.
  intros Hb. unfold div. destruct (Qeq_bool b 0) eqn:E; [|done].
  by apply Qeq_bool_iff in E.
Qed.

Lemma div_zero a b : b == 0 -> div a b = Raise ZeroDivisionError.
Proof.
  intros Hb. unfold div. destruct (Qeq_bool b 0) eqn:E; [done|].
  apply Qeq_bool_iff in Hb. congruence.
Qed.

Lemma inject_Z_nonzero z : z <> 0%Z -> ~ inject_Z z == 0.
Proof. intros Hz H. apply Hz. by apply (inject_Z_injective z 0%Z). Qed.

Lemma inject_Z_pos z : (0 < z)%Z -> 0 < inject_Z z.
Proof. intros Hz. by rewrite (Zlt_Qlt 0 z) in Hz. Qed.

Lemma inject_Z_nonneg z : (0 <= z)%Z -> 0 <= inject_Z z.
Proof. intros Hz. by rewrite (Zle_Qle 0 z) in Hz. Qed.

Lemma Qdiv_nonneg a b : 0 <= a -> 0 < b -> 0 <= a / b.
Proof. intros Ha Hb. apply Qle_shift_div_l; [done | lra]. Qed.

Lemma Qdiv_le_1 a b : a <= b -> 0 < b -> a / b <= 1.
Proof. intros Ha Hb. apply Qle_shift_div_r; [done | lra]. Qed.

Lemma ratio_unit (a b : Z) :
  (0 <= a <= b)%Z -> (0 < b)%Z -> 0 <= inject_Z a / inject_Z b <= 1.
Proof.
  intros [Ha Hab] Hb. split.
  - apply Qdiv_nonneg; [by apply inject_Z_nonneg | by apply inject_Z_pos].
  - apply Qdiv_le_1; [by rewrite <- Zle_Qle | by apply inject_Z_pos].
Qed.

End QFacts.

Ltac qcases :=
  repeat match goal with
  | |- context [Qltb ?a ?b] =>
      let H := fresh "Hq" in
      destruct (Qltb a b) eqn:H;
      [apply Qltb_true in H | apply Qltb_false in H]
  | |- context [Qle_bool ?a ?b] =>
      let H := fresh "Hq" in
      destruct (Qle_bool a b) eqn:H;
      [apply Qle_bool_iff in H | apply Qle_bool_false in H]
  end.

Section StringFacts.

Lemma len_nonneg s : (0 <= len s)%Z.
Proof. unfold len. lia. Qed.

Lemma len_empty s : len s = 0%Z <-> s = EmptyString.
Proof. unfold len. destruct s; simpl; split; intros; try done; lia. Qed.

Lemma is_empty_true s : is_empty s = true <-> s = EmptyString.
Proof. by destruct s. Qed.

Lemma startswith_empty s : startswith s EmptyString = true.
Proof. by destruct s. Qed.

Lemma contains_empty s : contains s EmptyString = true.
Proof. destruct s; simpl; by rewrite ?startswith_empty. Qed.

End StringFacts.


Section DomainMatch.
#[local] Open Scope Q_scope.

Lemma max_len_pos cn dc :
  (0 < Z.abs (len cn - len dc))%Z -> (0 < Z.max (len cn) (len dc))%Z.
Proof. pose proof (len_nonneg cn). pose proof (len_nonneg dc). lia. Qed.

Lemma inline_edit_distance_ratio_ok d cn dc :
  (0 < Z.abs (len cn - len dc))%Z ->
  exists r, ConfidenceScorer.inline_edit_distance_ratio d cn dc = Ok r.
Proof.
  intros H. unfold ConfidenceScorer.inline_edit_distance_ratio.
  rewrite div_ok; [eauto|].
  apply inject_Z_nonzero. pose proof (max_len_pos _ _ H). lia.
Qed.

Lemma fuzzy_containment_ok ws cn dc mr :
  unit_interval mr ->
  exists q, ConfidenceScorer.fuzzy_containment ws cn dc mr = Ok q /\ unit_interval q /\ mr <= q.
Proof.
  unfold unit_interval, ConfidenceScorer.fuzzy_containment. intros Hmr.
  destruct (contains dc cn || contains cn dc).
  - destruct (0 <? Z.abs (len cn - len dc))%Z eqn:Hd.
    + apply Z.ltb_lt in Hd.
      destruct (inline_edit_distance_ratio_ok (Z.abs (len cn - len dc)) cn dc Hd) as [r ->].
      unfold mbind, res_bind. unfold max. qcases; eexists; (split; [done|]); lra.
    + unfold max. qcases; eexists; (split; [done|]); lra.
  - repeat match goal with |- context [if ?b then _ else _] => destruct b end;
    unfold max; qcases; eexists; (split; [done|]); lra.
Qed.

Lemma prefix_matching_ok cn dc mr :
  unit_interval mr ->
  exists q, ConfidenceScorer.prefix_matching cn dc mr = Ok q /\ unit_interval q /\ mr <= q.
Proof.
  unfold unit_interval, ConfidenceScorer.prefix_matching. intros Hmr.
  destruct (startswith dc _).
  - destruct (0 <? Z.abs (len cn - len dc))%Z eqn:Hd.
    + apply Z.ltb_lt in Hd.
      destruct (inline_edit_distance_ratio_ok (Z.abs (len cn - len dc)) cn dc Hd) as [r ->].
      unfold mbind, res_bind. unfold max. qcases; eexists; (split; [done|]); lra.
    + unfold max. qcases; eexists; (split; [done|]); lra.
  - eexists; (split; [done|]); lra.
Qed.

Lemma hyphen_normalization_ok cn dc mr :
  unit_interval mr ->
  unit_interval (ConfidenceScorer.hyphen_normalization cn dc mr) /\
  mr <= ConfidenceScorer.hyphen_normalization cn dc mr /\
  (cn = EmptyString \/ dc = EmptyString -> 0.95 <= ConfidenceScorer.hyphen_normalization cn dc mr).
Proof.
  unfold unit_interval, ConfidenceScorer.hyphen_normalization. intros Hmr.
  destruct (contains _ _ || contains _ _) eqn:Hc.
  - unfold max. qcases; repeat split; try lra; intros _; lra.
  - repeat split; try lra. intros [-> | ->]; simpl in Hc;
      rewrite contains_empty in Hc; by rewrite ?orb_true_r in Hc.
Qed.

Lemma acronym_matching_ok cn dc mr :
  unit_interval mr ->
  unit_interval (ConfidenceScorer.acronym_matching cn dc mr) /\ mr <= ConfidenceScorer.acronym_matching cn dc mr.
Proof.
  unfold unit_interval, ConfidenceScorer.acronym_matching. intros Hmr.
  destruct (_ && _); unfold max; qcases; lra.
Qed.

Lemma initialism_matching_ok ws cn dc mr :
  unit_interval mr ->
  exists q, ConfidenceScorer.initialism_matching ws cn dc mr = Ok q /\ unit_interval q /\ mr <= q.
Proof.
  unfold unit_interval, ConfidenceScorer.initialism_matching. intros Hmr.
  destruct (_ && _ && _); [|eexists; split; [done|lra]].
  destruct ((0 <? len cn)%Z && (0 <? len dc)%Z) eqn:Hpos.
  - apply andb_true_iff in Hpos as [H1%Z.ltb_lt H2%Z.ltb_lt].
    rewrite div_ok by (apply inject_Z_nonzero; lia).
    unfold mbind, res_bind.
    assert (0 <= inject_Z (common_chars cn dc) / inject_Z (Z.max (len cn) (len dc))).
    { apply Qdiv_nonneg; [|apply inject_Z_pos; lia].
      apply inject_Z_nonneg. unfold common_chars. lia. }
    unfold max. qcases; eexists; (split; [done|]); lra.
  - unfold mbind, res_bind. unfold max. qcases; eexists; (split; [done|]); lra.
Qed.

Lemma edit_distance_check_ok cn dc mr :
  unit_interval mr ->
  (cn = EmptyString \/ dc = EmptyString -> 0.95 <= mr) ->
  exists q, ConfidenceScorer.edit_distance_check cn dc mr = Ok q /\ unit_interval q.
Proof.
  unfold unit_interval, ConfidenceScorer.edit_distance_check. intros Hmr Hempty.
  destruct (Qle_bool 0.5 mr && Qle_bool mr 0.75) eqn:Hband;
    [|eexists; split; [done|lra]].
  apply andb_true_iff in Hband as [H1%Qle_bool_iff H2%Qle_bool_iff].
  unfold ConfidenceScorer.simple_edit_distance.
  destruct (is_empty cn || is_empty dc) eqn:He.
  { apply orb_true_iff in He as [He%is_empty_true | He%is_empty_true];
      (assert (0.95 <= mr) by auto); lra. }
  unfold mbind, res_bind, ConfidenceScorer.unpack.
  destruct (0 <? Z.max (len cn) (len dc))%Z; [|eexists; split; [done|lra]].
  unfold max, min. qcases; eexists; (split; [done|]); nra.
Qed.

End DomainMatch.

Section SubScores.
#[local] Open Scope Q_scope.

Lemma domain_match_chain ws cn dc mr :
  unit_interval mr ->
  exists q,
    (mr1 ← ConfidenceScorer.fuzzy_containment ws cn dc mr;
     mr2 ← ConfidenceScorer.prefix_matching cn dc mr1;
     mr5 ← ConfidenceScorer.initialism_matching ws cn dc
             (ConfidenceScorer.acronym_matching cn dc (ConfidenceScorer.hyphen_normalization cn dc mr2));
     ConfidenceScorer.edit_distance_check cn dc mr5) = Ok q /\ unit_interval q.
Proof.
  intros Hmr. unfold mbind, res_bind.
  destruct (fuzzy_containment_ok ws cn dc mr Hmr) as (mr1 & -> & H1 & _).
  destruct (prefix_matching_ok cn dc mr1 H1) as (mr2 & -> & H2 & _).
  destruct (hyphen_normalization_ok cn dc mr2 H2) as (H3 & _ & H3e).
  destruct (acronym_matching_ok cn dc _ H3) as (H4 & H4m).
  destruct (initialism_matching_ok ws cn dc _ H4) as (mr5 & -> & H5 & H5m).
  apply edit_distance_check_ok; [done|].
  intros He. specialize (H3e He). lra.
Qed.

Lemma _calculate_position_score_ok result :
  unit_interval (ConfidenceScorer._calculate_position_score result).
Proof.
  unfold ConfidenceScorer._calculate_position_score, unit_interval.
  destruct (position result <=? 0)%Z; [lra|].
  destruct (position result =? 1)%Z; [lra|].
  destruct (position result =? 2)%Z; [lra|].
  destruct (position result <=? 5)%Z; [lra|].
  destruct (position result <=? 10)%Z eqn:H10; [lra|].
  apply Z.leb_gt in H10. rewrite (Zlt_Qlt 10 (position result)) in H10.
  change (inject_Z 10) with 10 in H10.
  unfold max. qcases; lra.
Qed.

Lemma _calculate_title_match_ok company result :
  exists q, ConfidenceScorer._calculate_title_match company result = Ok q /\ unit_interval q.
Proof.
  unfold ConfidenceScorer._calculate_title_match, unit_interval.
  destruct (is_empty (title result)); [exists 0.0; split; [done | lra]|].
  cbv zeta.
  case_bool_decide; [exists 0.0; split; [done | lra]|].
  case_bool_decide as Hu; [exists 0.0; split; [done | lra]|].
  match goal with
  | |- context [div (inject_Z (Z.of_nat (size ?i))) (inject_Z (Z.of_nat (size ?u)))] =>
      assert (Hiu : (size i <= size u)%nat)
        by (apply subseteq_size; etrans;
            [apply intersection_subseteq_l | apply union_subseteq_l]);
      assert (Hpos : (0 < size u)%nat)
        by (apply Nat.neq_0_lt_0; intros Hsz; apply size_empty_iff in Hsz;
            apply Hu; by apply leibniz_equiv);
      rewrite div_ok by (apply inject_Z_nonzero; lia);
      destruct (ratio_unit (Z.of_nat (size i)) (Z.of_nat (size u))); [lia | lia |]
  end.
  unfold mbind, res_bind. cbv beta iota.
  destruct (contains _ _); unfold catch;
    (eexists; split; [reflexivity|]); unfold min; qcases; lra.
Qed.

(** Rounding *)

Lemma round_half_even_bounds q (n : Z) :
  0 <= q <= inject_Z n -> (0 <= round_half_even q <= n)%Z.
Proof.
  intros [H0 Hn]. unfold round_half_even.
  pose proof (Qfloor_le q) as Hfl.
  pose proof (Qlt_floor q) as Hlt.
  assert (Hf0 : (0 <= Qfloor q)%Z).
  { change 0%Z with (Qfloor (inject_Z 0)). by apply Qfloor_resp_le. }
  assert (Hfn : (Qfloor q <= n)%Z).
  { rewrite <- (Qfloor_Z n). by apply Qfloor_resp_le. }
  assert (Hup : inject_Z (Qfloor q) < q -> (Qfloor q + 1 <= n)%Z).
  { intros Hgt. assert (Hq : inject_Z (Qfloor q) < inject_Z n) by lra.
    rewrite <- Zlt_Qlt in Hq. lia. }
  qcases; try lia.
  all: destruct (Z.even (Qfloor q)); try lia.
  all: split; [lia|]; apply Hup; lra.
Qed.

Lemma round2_bounds x : 0 <= x <= 100 -> 0 <= round x 2 <= 100.
Proof.
  intros Hx. unfold round.
  change (inject_Z (10 ^ Z.of_nat 2)) with 100.
  destruct (round_half_even_bounds (x * 100) 10000) as [Hlo Hhi].
  { change (inject_Z 10000) with 10000. lra. }
  rewrite (Zle_Qle 0) in Hlo. rewrite (Zle_Qle _ 10000) in Hhi.
  change (inject_Z 0) with 0 in Hlo. change (inject_Z 10000) with 10000 in Hhi.
  split.
  - apply Qle_shift_div_l; lra.
  - apply Qle_shift_div_r; lra.
Qed.

(** Weights *)

Lemma default_weights_nonneg : nonneg_weights ConfidenceScorer.default_weights.
Proof. unfold nonneg_weights; simpl; repeat split; lra. Qed.

Lemma init_total w :
  0 < ConfidenceScorer.total_weight w -> ConfidenceScorer.total_weight (ConfidenceScorer.__init__ (Some w)) == 1.
Proof.
  intros Hpos. unfold ConfidenceScorer.__init__.
  destruct (Qltb 0 (ConfidenceScorer.total_weight w)) eqn:E;
    [|apply Qltb_false in E; lra].
  unfold ConfidenceScorer.total_weight in *. simpl. field. lra.
Qed.

Lemma init_nonneg w :
  nonneg_weights w ->
  nonneg_weights (ConfidenceScorer.__init__ (Some w)) /\ ConfidenceScorer.total_weight (ConfidenceScorer.__init__ (Some w)) <= 1.
Proof.
  intros (H1 & H2 & H3 & H4).
  destruct (Qlt_le_dec 0 (ConfidenceScorer.total_weight w)) as [Hpos | Hle].
  - split; [|rewrite init_total by done; lra].
    unfold ConfidenceScorer.__init__. apply Qltb_true in Hpos as E. rewrite E.
    unfold nonneg_weights; simpl.
    repeat split; by apply Qdiv_nonneg.
  - unfold ConfidenceScorer.__init__. apply Qltb_false in Hle as E. rewrite E.
    split; [done | lra].
Qed.

Lemma weighted_sum_bounds w d t p ti :
  nonneg_weights w -> ConfidenceScorer.total_weight w <= 1 ->
  unit_interval d -> unit_interval t -> unit_interval p -> unit_interval ti ->
  0 <= (d * ConfidenceScorer.domain_match w + t * ConfidenceScorer.tld_relevance w +
        p * ConfidenceScorer.search_position w + ti * ConfidenceScorer.title_match w) * 100 <= 100.
Proof.
  unfold nonneg_weights, unit_interval, ConfidenceScorer.total_weight.
  intros (H1 & H2 & H3 & H4) Ht Hd Htl Hp Hti. split; nra.
Qed.

End SubScores.

Section Scores.
#[local] Open Scope Q_scope.

Variable urlparse_netloc : string -> option string.
Variable set_order : list string -> list string.

Lemma _calculate_domain_match_ok company result :
  exists q, ConfidenceScorer._calculate_domain_match urlparse_netloc set_order company result = Ok q /\
            unit_interval q.
Proof.
  unfold ConfidenceScorer._calculate_domain_match.
  destruct (is_empty (url result)); [exists 0.0; split; [done | unfold unit_interval; lra]|].
  unfold netloc_of.
  destruct (urlparse_netloc (url result)) as [netloc|];
    [|exists 0.0; split; [done | unfold unit_interval; lra]].
  unfold mbind, res_bind. cbv beta iota zeta.
  destruct (ConfidenceScorer.mk_set set_order _) as [|first_word ws] eqn:Hws;
    [exists 0.0; split; [done | unfold unit_interval; lra]|].
  lazymatch goal with
  | |- context [div (inject_Z ?a) (inject_Z ?b)] =>
      assert (Hr : unit_interval (inject_Z a / inject_Z b));
      [apply ratio_unit;
       [split; [lia|]; apply inj_le; apply length_filter | simpl length; lia]
      | rewrite (div_ok (inject_Z a) (inject_Z b))
          by (apply inject_Z_nonzero; simpl length; lia);
        set (mr0 := inject_Z a / inject_Z b) in * ]
  end.
  match goal with
  | |- context [ConfidenceScorer.fuzzy_containment ws ?cn ?dc ?mr] =>
      destruct (domain_match_chain ws cn dc mr) as (q & Hq & Hu)
  end.
  { unfold unit_interval in *. destruct (startswith _ _); [|done].
    unfold min. qcases; lra. }
  exists q. split; [|done].
  cbv beta iota. unfold mbind, res_bind in Hq. by rewrite Hq.
Qed.


Lemma _calculate_tld_relevance_ok result company :
  exists q, ConfidenceScorer._calculate_tld_relevance urlparse_netloc result company = Ok q /\
            unit_interval q.
Proof.
  unfold ConfidenceScorer._calculate_tld_relevance, unit_interval.
  destruct (is_empty (url result)); [exists 0.0; split; [done | lra]|].
  unfold netloc_of.
  destruct (urlparse_netloc (url result)) as [netloc|];
    [|exists 0.2; split; [done | lra]].
  unfold mbind, res_bind. cbv beta iota zeta.
  repeat match goal with
         | |- context [if ?b then _ else _] => destruct b
         end;
    (eexists; split; [reflexivity | lra]).
Qed.

Lemma calculate_score_ok w company result :
  nonneg_weights w -> ConfidenceScorer.total_weight w <= 1 ->
  exists s, ConfidenceScorer.calculate_score urlparse_netloc set_order w company result = Ok s /\
            0 <= s <= 100.
Proof.
  intros Hw Ht. unfold ConfidenceScorer.calculate_score.
  destruct (_calculate_domain_match_ok company result) as (d & -> & Hd).
  destruct (_calculate_tld_relevance_ok result company) as (t & -> & Htl).
  destruct (_calculate_title_match_ok company result) as (ti & -> & Hti).
  unfold mbind, res_bind. cbv beta iota zeta.
  eexists; split; [reflexivity|].
  apply round2_bounds, weighted_sum_bounds; auto using _calculate_position_score_ok.
Qed.

End Scores.

Section Dict.
Context {V : Type}.

Lemma eqb_decide (a b : string) : String.eqb a b = bool_decide (a = b).
Proof.
  destruct (String.eqb_spec a b); [by rewrite bool_decide_eq_true_2 | by rewrite bool_decide_eq_false_2].
Qed.

Lemma dict_get_update (dflt : V) f k k' (d : dict V) :
  dict_get (dict_update dflt f k d) k' =
  if bool_decide (k' = k) then Some (f (default dflt (dict_get d k))) else dict_get d k'.
Proof.
  induction d as [|[k0 v] d IH]; simpl.
  - rewrite eqb_decide. repeat case_bool_decide; congruence.
  - rewrite (eqb_decide k0 k). destruct (decide (k0 = k)) as [-> | Hne].
    + rewrite bool_decide_eq_true_2 by done. simpl.
      rewrite (eqb_decide k k'). repeat case_bool_decide; congruence.
    + rewrite bool_decide_eq_false_2 by done. simpl.
      rewrite IH, (eqb_decide k0 k'). repeat case_bool_decide; congruence.
Qed.

Lemma dict_get_elem_of (d : dict V) k v : dict_get d k = Some v -> (k, v) ∈ d.
Proof.
  induction d as [|[k0 v0] d IH]; simpl; [done|].
  rewrite eqb_decide. case_bool_decide as E.
  - intros [= ->]. rewrite E. left.
  - intros H'. right. auto.
Qed.

End Dict.

Section Aggregators.
#[local] Open Scope Q_scope.

Lemma aggregators_of_spec items total threshold min_occurrences acc :
  total <> 0%Z ->
  exists s, DomainFrequencyTracker.aggregators_of items total threshold min_occurrences acc = Ok s /\
    forall d, d ∈ s <->
      d ∈ acc \/
      exists c, (d, c) ∈ items /\ (min_occurrences <= c)%Z /\
                threshold <= inject_Z c / inject_Z total.
Proof.
  intros Ht. revert acc.
  induction items as [|[d0 c0] items IH]; intros acc; simpl.
  - exists acc. split; [done|]. intros d. split; [auto|].
    intros [H | (c & H & _)]; [done | by apply elem_of_nil in H].
  - rewrite div_ok by by apply inject_Z_nonzero.
    unfold mbind, res_bind.
    match goal with |- context [DomainFrequencyTracker.aggregators_of _ _ _ _ ?a] =>
      destruct (IH a) as (s & -> & Hs) end.
    exists s. split; [done|]. intros d. rewrite Hs. clear Hs IH.
    destruct (min_occurrences <=? c0)%Z eqn:Hm;
      [apply Z.leb_le in Hm | apply Z.leb_gt in Hm];
      (destruct (Qle_bool threshold (inject_Z c0 / inject_Z total)) eqn:Hq;
       [apply Qle_bool_iff in Hq | apply Qle_bool_false in Hq]); simpl.
    + rewrite elem_of_union, elem_of_singleton. split.
      * intros [[H | ->] | (c & H & H')]; eauto.
        -- right. exists c0. split; [left | done].
        -- right. exists c. split; [by right | done].
      * intros [H | (c & [[= -> ->] | H]%elem_of_cons & H')]; eauto.
    + split.
      * intros [H | (c & H & H')]; eauto. right. exists c. split; [by right | done].
      * intros [H | (c & [[= -> ->] | H]%elem_of_cons & H1 & H2)]; eauto. lra.
    + split.
      * intros [H | (c & H & H')]; eauto. right. exists c. split; [by right | done].
      * intros [H | (c & [[= -> ->] | H]%elem_of_cons & H1 & H2)]; eauto. lia.
    + split.
      * intros [H | (c & H & H')]; eauto. right. exists c. split; [by right | done].
      * intros [H | (c & [[= -> ->] | H]%elem_of_cons & H1 & H2)]; eauto. lia.
Qed.

Lemma identify_aggregators_spec t threshold min_occurrences :
  exists s, DomainFrequencyTracker.identify_aggregators t threshold min_occurrences = Ok s /\
    (forall d, d ∈ s <->
       DomainFrequencyTracker.total_searches t <> 0%Z /\
       exists c, (d, c) ∈ DomainFrequencyTracker.domain_counts t /\ (min_occurrences <= c)%Z /\
                 threshold <= inject_Z c / inject_Z (DomainFrequencyTracker.total_searches t)).
Proof.
  unfold DomainFrequencyTracker.identify_aggregators.
  destruct (DomainFrequencyTracker.total_searches t =? 0)%Z eqn:E.
  - apply Z.eqb_eq in E. exists ∅. split; [done|].
    intros d. split; [by intros ?%elem_of_empty | intros [H _]; done].
  - apply Z.eqb_neq in E.
    destruct (aggregators_of_spec (DomainFrequencyTracker.domain_counts t) (DomainFrequencyTracker.total_searches t)
                threshold min_occurrences ∅ E) as (s & -> & Hs).
    exists s. split; [done|]. intros d. rewrite Hs. split.
    + intros [?%elem_of_empty | H]; [done | by split].
    + intros [_ H]. by right.
Qed.

End Aggregators.

Section Tracking.

Variable urlparse_netloc : string -> option string.

Lemma count_of_record company d0 t d :
  DomainFrequencyTracker.count_of (DomainFrequencyTracker.record_domain company d0 t) d =
  if bool_decide (d = d0) then (DomainFrequencyTracker.count_of t d0 + 1)%Z else DomainFrequencyTracker.count_of t d.
Proof.
  unfold DomainFrequencyTracker.count_of, DomainFrequencyTracker.record_domain. simpl.
  rewrite dict_get_update. by case_bool_decide.
Qed.

Lemma track_loop_bound company rs : forall t T,
  DomainFrequencyTracker.total_searches t = T ->
  NoDup (DomainFrequencyTracker.call_domains urlparse_netloc rs) ->
  (forall d, DomainFrequencyTracker.count_of t d <= T)%Z ->
  (forall d, d ∈ DomainFrequencyTracker.call_domains urlparse_netloc rs -> DomainFrequencyTracker.count_of t d <= T - 1)%Z ->
  DomainFrequencyTracker.total_searches (fst (DomainFrequencyTracker.track_loop urlparse_netloc company rs t)) = T /\
  forall d, (DomainFrequencyTracker.count_of (fst (DomainFrequencyTracker.track_loop urlparse_netloc company rs t)) d <= T)%Z.
Proof.
  induction rs as [|r rs IH]; intros t T Ht Hnd Hall Hcall; simpl; [done|].
  unfold DomainFrequencyTracker.call_domains in Hnd, Hcall. simpl in Hnd, Hcall.
  destruct (DomainFrequencyTracker._extract_domain urlparse_netloc (url r)) as [d0|e] eqn:E; [|done].
  simpl in Hnd, Hcall. apply NoDup_cons in Hnd as [Hnotin Hnd].
  apply IH; [done | done | |].
  - intros d. rewrite count_of_record. case_bool_decide; [|done].
    subst d. assert (d0 ∈ d0 :: DomainFrequencyTracker.call_domains urlparse_netloc rs) as Hin by left.
    specialize (Hcall d0 Hin). lia.
  - intros d Hd. rewrite count_of_record. case_bool_decide as Heq.
    + subst d. done.
    + apply Hcall. by right.
Qed.

Lemma reachable_distinct_bound t :
  DomainFrequencyTracker.reachable_distinct urlparse_netloc t ->
  forall d, (DomainFrequencyTracker.count_of t d <= DomainFrequencyTracker.total_searches t)%Z.
Proof.
  induction 1 as [|t company rs Hr IH Hnd]; [done|].
  unfold DomainFrequencyTracker.track_search_results.
  match goal with |- context [DomainFrequencyTracker.track_loop _ _ _ ?t0] => set (t1 := t0) end.
  destruct (track_loop_bound company rs t1 (DomainFrequencyTracker.total_searches t + 1)%Z) as [Ht Hc];
    [done | done | | | ].
  - intros d. specialize (IH d). unfold DomainFrequencyTracker.count_of in *. simpl. lia.
  - intros d _. specialize (IH d). unfold DomainFrequencyTracker.count_of in *. simpl. lia.
  - intros d. rewrite Ht. apply Hc.
Qed.

End Tracking.

Section Sorting.
#[local] Open Scope Q_scope.
Context {A : Type} (key : A -> Q).

Lemma insert_desc_perm x l : insert_desc key x l ≡ₚ x :: l.
Proof.
  induction l as [|y l IH]; simpl; [done|].
  destruct (Qltb (key x) (key y)); [|done].
  rewrite IH. apply Permutation_swap.
Qed.

Lemma sort_desc_perm l : sort_desc key l ≡ₚ l.
Proof.
  induction l as [|x l IH]; simpl; [done|].
  rewrite insert_desc_perm. by rewrite IH.
Qed.

Lemma insert_desc_sorted x l :
  StronglySorted (desc key) l -> StronglySorted (desc key) (insert_desc key x l).
Proof.
  induction 1 as [|y l Hs IH Hy]; simpl.
  - repeat constructor.
  - destruct (Qltb (key x) (key y)) eqn:E.
    + apply Qltb_true in E. constructor; [done|].
      rewrite insert_desc_perm. constructor; [|done]. unfold desc. lra.
    + apply Qltb_false in E. constructor; [by constructor|].
      constructor; [done|].
      eapply Forall_impl; [exact Hy|]. unfold desc. intros z Hz. simpl in Hz. lra.
Qed.

Lemma sort_desc_sorted l : StronglySorted (desc key) (sort_desc key l).
Proof.
  induction l as [|x l IH]; simpl; [constructor|]. by apply insert_desc_sorted.
Qed.

End Sorting.

Section Suspected.
#[local] Open Scope Q_scope.

Lemma suspected_of_spec static t confirmed min_suspicion items :
  DomainFrequencyTracker.total_searches t <> 0%Z ->
  exists l, EnhancedBlocklistFilter.suspected_of static t confirmed min_suspicion items = Ok l /\
    forall s, s ∈ l <->
      exists d c, (d, c) ∈ items /\ (d ∉ static) /\ (d ∉ confirmed) /\
                  min_suspicion <= inject_Z c / inject_Z (DomainFrequencyTracker.total_searches t) /\
                  s = suspect_entry t d c.
Proof.
  intros Ht. induction items as [|[d0 c0] items (l & IH & Hl)]; simpl.
  - exists []. split; [done|]. intros s. split; [by intros ?%elem_of_nil|].
    by intros (d & c & ?%elem_of_nil & _).
  - unfold mem. rewrite IH.
    destruct (bool_decide (d0 ∈ static) || bool_decide (d0 ∈ confirmed)) eqn:Hskip.
    + exists l. split; [done|]. intros s. rewrite Hl. split.
      * intros (d & c & H & H'). exists d, c. split; [by right | done].
      * intros (d & c & [[= -> ->] | H]%elem_of_cons & H1 & H2 & H');
          [|by exists d, c].
        apply orb_true_iff in Hskip as [H%bool_decide_eq_true | H%bool_decide_eq_true]; done.
    + apply orb_false_iff in Hskip as [H1%bool_decide_eq_false H2%bool_decide_eq_false].
      rewrite div_ok by by apply inject_Z_nonzero.
      unfold mbind, res_bind.
      destruct (Qle_bool min_suspicion _) eqn:Hq;
        [apply Qle_bool_iff in Hq | apply Qle_bool_false in Hq];
        (eexists; split; [reflexivity|]); intros s.
      * rewrite elem_of_cons, Hl. split.
        -- intros [-> | (d & c & H & H')].
           ++ exists d0, c0. split; [left | done].
           ++ exists d, c. split; [by right | done].
        -- intros (d & c & [[= -> ->] | H]%elem_of_cons & H'); [left; apply H'|].
           right. by exists d, c.
      * rewrite Hl. split.
        -- intros (d & c & H & H'). exists d, c. split; [by right | done].
        -- intros (d & c & [[= -> ->] | H]%elem_of_cons & H3 & H4 & H5 & H');
             [lra | by exists d, c].
Qed.

End Suspected.

Section Strings.

Lemma app_cons c s t : String c s +:+ t = String c (s +:+ t).
Proof. reflexivity. Qed.

Lemma app_nil_l t : EmptyString +:+ t = t.
Proof. reflexivity. Qed.

Lemma length_app s1 s2 :
  String.length (s1 +:+ s2) = (String.length s1 + String.length s2)%nat.
Proof.
  induction s1 as [|c s1 IH]; [done|].
  rewrite app_cons. simpl. by rewrite IH.
Qed.

Lemma take_drop n s : take n s +:+ drop n s = s.
Proof.
  revert s. induction n as [|n IH]; intros [|c s]; simpl; try done.
  by rewrite app_cons, IH.
Qed.

Lemma length_take n s : (n <= String.length s)%nat -> String.length (take n s) = n.
Proof.
  revert s. induction n as [|n IH]; intros [|c s]; simpl; try done; try lia.
  intros H. rewrite IH; lia.
Qed.

Lemma drop_app s1 s2 : drop (String.length s1) (s1 +:+ s2) = s2.
Proof.
  induction s1 as [|c s1 IH]; [by destruct s2|].
  rewrite app_cons. simpl. apply IH.
Qed.

Lemma endswith_spec s p : endswith s p = true <-> exists pre, s = pre +:+ p.
Proof.
  unfold endswith. rewrite andb_true_iff, Nat.leb_le, String.eqb_eq. split.
  - intros [Hlen Hd]. exists (take (String.length s - String.length p) s).
    symmetry. etrans; [|apply (take_drop (String.length s - String.length p))].
    by rewrite Hd.
  - intros [pre ->]. rewrite length_app. split; [lia|].
    replace (String.length pre + String.length p - String.length p)%nat
      with (String.length pre) by lia.
    apply drop_app.
Qed.

Lemma isspace_lower_char c : isspace (lower_char c) = isspace c.
Proof. by destruct c as [[] [] [] [] [] [] [] []]. Qed.

Lemma lower_char_idemp c : lower_char (lower_char c) = lower_char c.
Proof. by destruct c as [[] [] [] [] [] [] [] []]. Qed.

Lemma lower_idemp s : lower (lower s) = lower s.
Proof.
  unfold lower. induction s as [|c s IH]; simpl; [done|].
  by rewrite lower_char_idemp, IH.
Qed.

Lemma lower_empty s : lower s = EmptyString <-> s = EmptyString.
Proof. by destruct s. Qed.

Lemma lstrip_lower s : lstrip (lower s) = lower (lstrip s).
Proof.
  unfold lower. induction s as [|c s IH]; simpl; [done|].
  rewrite isspace_lower_char. by destruct (isspace c).
Qed.

Lemma rstrip_lower s : rstrip (lower s) = lower (rstrip s).
Proof.
  unfold lower. induction s as [|c s IH]; simpl; [done|].
  rewrite IH, isspace_lower_char.
  destruct (rstrip s); simpl; [by destruct (isspace c) | done].
Qed.

Lemma strip_lower s : strip (lower s) = lower (strip s).
Proof. unfold strip. by rewrite lstrip_lower, rstrip_lower. Qed.

Lemma is_empty_false s : is_empty s = false <-> s <> EmptyString.
Proof. by destruct s. Qed.

End Strings.

Section Blocklist.

Variable urlparse_netloc : string -> option string.

Lemma init_elem_of blocklist e :
  e ∈ BlocklistFilter.__init__ blocklist <->
  exists raw, raw ∈ blocklist /\ Spec.entry_of raw <> EmptyString /\ e = Spec.entry_of raw.
Proof.
  unfold BlocklistFilter.__init__, Spec.entry_of. rewrite list_elem_of_fmap. split.
  - intros (raw & -> & [Hne Hin]%list_elem_of_filter).
    exists raw. rewrite strip_lower. split; [done|]. split; [|done].
    rewrite lower_empty. apply is_empty_false. by destruct (is_empty (strip raw)).
  - intros (raw & Hin & Hne & ->). exists raw. rewrite strip_lower. split; [done|].
    apply list_elem_of_filter. split; [|done].
    rewrite lower_empty in Hne. apply is_empty_false in Hne. by rewrite Hne.
Qed.

Lemma init_lower blocklist : BlocklistFilter.__init__ (map lower blocklist) = BlocklistFilter.__init__ blocklist.
Proof.
  unfold BlocklistFilter.__init__. induction blocklist as [|d bl IH]; [done|].
  simpl map. rewrite !filter_cons. rewrite strip_lower.
  assert (E : is_empty (lower (strip d)) = is_empty (strip d)) by by destruct (strip d).
  rewrite E. destruct (is_empty (strip d)); simpl.
  - apply IH.
  - rewrite lower_idemp. f_equal. apply IH.
Qed.

Lemma entry_test_spec domain entry :
  entry_test domain entry = true <-> Spec.matches_entry domain entry.
Proof.
  unfold entry_test, Spec.matches_entry.
  rewrite orb_true_iff, String.eqb_eq, endswith_spec. done.
Qed.

Lemma entry_test_empty entry :
  entry <> EmptyString -> entry_test EmptyString entry = false.
Proof. intros H. unfold entry_test, endswith. by destruct entry. Qed.

Lemma _is_blocked_domain stored u :
  Forall (fun e => e <> EmptyString) stored ->
  BlocklistFilter._is_blocked urlparse_netloc stored u =
  Ok (existsb (entry_test (compared_domain urlparse_netloc u)) stored).
Proof.
  intros Hne.
  assert (Hempty : existsb (entry_test EmptyString) stored = false).
  { apply not_true_iff_false. intros (e & He & H)%existsb_exists.
    rewrite entry_test_empty in H; [done|].
    rewrite Forall_forall in Hne. apply Hne. by apply list_elem_of_In. }
  unfold BlocklistFilter._is_blocked, compared_domain, netloc_of.
  destruct (is_empty u); [by rewrite Hempty|].
  destruct (urlparse_netloc u) as [netloc|]; simpl; [done | by rewrite Hempty].
Qed.

Lemma init_nonempty blocklist :
  Forall (fun e => e <> EmptyString) (BlocklistFilter.__init__ blocklist).
Proof.
  apply Forall_forall. intros e (raw & _ & Hne & ->)%init_elem_of. done.
Qed.

Lemma blocked_spec blocklist domain :
  existsb (entry_test domain) (BlocklistFilter.__init__ blocklist) = true <->
  Spec.blocked blocklist domain.
Proof.
  unfold Spec.blocked. rewrite existsb_exists. split.
  - intros (e & (raw & Hin & Hne & ->)%list_elem_of_In%init_elem_of & Ht).
    exists raw. by rewrite <- entry_test_spec.
  - intros (raw & Hin & Hne & Hm). exists (Spec.entry_of raw). split.
    + apply list_elem_of_In, init_elem_of. eauto.
    + by apply entry_test_spec.
Qed.

Lemma filter_results_filter stored results :
  Forall (fun e => e <> EmptyString) stored ->
  BlocklistFilter.filter_results urlparse_netloc stored results =
  Ok (List.filter
        (fun r => negb (existsb (entry_test (compared_domain urlparse_netloc (url r)))
                                stored))
        results).
Proof.
  intros Hne. induction results as [|r rs IH]; simpl; [done|].
  rewrite _is_blocked_domain by done. rewrite IH.
  unfold mbind, res_bind. by destruct (existsb _ stored).
Qed.

End Blocklist.

Section Ports.

Lemma split_on_absent sep s :
  str_forallb (fun c => negb (Ascii.eqb c sep)) s = true -> split_on sep s = [s].
Proof.
  induction s as [|c s IH]; simpl; [done|].
  intros [Hc Hs]%andb_true_iff. apply negb_true_iff in Hc. rewrite Hc.
  by rewrite IH.
Qed.

Lemma lower_char_colon c :
  Ascii.eqb (lower_char c) ":"%char = Ascii.eqb c ":"%char.
Proof. destruct c as [[] [] [] [] [] [] [] []]; reflexivity. Qed.

Lemma str_forallb_lower s :
  str_forallb (fun c => negb (Ascii.eqb c ":"%char)) (lower s) =
  str_forallb (fun c => negb (Ascii.eqb c ":"%char)) s.
Proof.
  unfold lower. induction s as [|c s IH]; simpl; [done|].
  by rewrite lower_char_colon, IH.
Qed.

Lemma str_forallb_drop p n s :
  str_forallb p s = true -> str_forallb p (drop n s) = true.
Proof.
  revert s. induction n as [|n IH]; intros s; [by destruct s|].
  destruct s as [|c s]; simpl; [done|]. intros [_ Hs]%andb_true_iff. by apply IH.
Qed.

Variable urlparse_netloc : string -> option string.

(** Without a port, the string [_is_blocked] compares is the
    normalized domain. *)
Lemma normalize_portless r :
  portless urlparse_netloc r ->
  Spec.normalize urlparse_netloc (url r) = compared_domain urlparse_netloc (url r).
Proof.
  intros Hp. unfold Spec.normalize, compared_domain.
  destruct (is_empty (url r)); [done|].
  destruct (urlparse_netloc (url r)) as [netloc|] eqn:E; [|done].
  specialize (Hp netloc E). cbv zeta.
  rewrite split_on_absent; [done|].
  destruct (startswith (lower netloc) "www.").
  - apply str_forallb_drop. by rewrite str_forallb_lower.
  - by rewrite str_forallb_lower.
Qed.

End Ports.

Section Subsequences.

Variable urlparse_netloc : string -> option string.
Variable set_order : list string -> list string.

Lemma _is_blocked_returns stored u :
  exists b, BlocklistFilter._is_blocked urlparse_netloc stored u = Ok b.
Proof.
  unfold BlocklistFilter._is_blocked, netloc_of. destruct (is_empty u); [eauto|].
  destruct (urlparse_netloc u); simpl; eauto.
Qed.

Lemma blocklist_filter_sublist stored results :
  exists out, BlocklistFilter.filter_results urlparse_netloc stored results = Ok out /\
              out `sublist_of` results.
Proof.
  induction results as [|r rs (out & IH & Hsub)]; simpl.
  - exists []. by split.
  - destruct (_is_blocked_returns stored (url r)) as [b ->]. rewrite IH.
    unfold mbind, res_bind. destruct b; eexists; (split; [reflexivity|]).
    + by apply sublist_cons.
    + by apply sublist_skip.
Qed.

Lemma calculate_score_returns weights company result :
  exists s, ConfidenceScorer.calculate_score urlparse_netloc set_order weights company result = Ok s.
Proof.
  unfold ConfidenceScorer.calculate_score.
  destruct (_calculate_domain_match_ok urlparse_netloc set_order company result)
    as (d & -> & _).
  destruct (_calculate_tld_relevance_ok urlparse_netloc result company) as (t & -> & _).
  destruct (_calculate_title_match_ok company result) as (ti & -> & _).
  unfold mbind, res_bind. eauto.
Qed.

Lemma filter_by_confidence_sublist weights results company threshold :
  exists out,
    ConfidenceScorer.filter_by_confidence urlparse_netloc set_order weights results company threshold
      = Ok out /\
    out `sublist_of` results.
Proof.
  induction results as [|r rs (out & IH & Hsub)]; simpl.
  - exists []. by split.
  - destruct (calculate_score_returns weights company r) as [s ->]. rewrite IH.
    unfold mbind, res_bind. destruct (Qle_bool threshold s); eexists; (split; [reflexivity|]).
    + by apply sublist_skip.
    + by apply sublist_cons.
Qed.

Lemma _extract_domain_cases u :
  match urlparse_netloc u with
  | Some _ => exists d, DomainFrequencyTracker._extract_domain urlparse_netloc u = Ok d
  | None => DomainFrequencyTracker._extract_domain urlparse_netloc u = Raise ValueError
  end.
Proof.
  unfold DomainFrequencyTracker._extract_domain, netloc_of.
  destruct (urlparse_netloc u); simpl; eauto.
Qed.

Lemma _extract_domain_parses r :
  (parses urlparse_netloc) r -> exists d, DomainFrequencyTracker._extract_domain urlparse_netloc (url r) = Ok d.
Proof.
  unfold parses. intros H. pose proof (_extract_domain_cases (url r)) as Hc.
  by destruct (urlparse_netloc (url r)).
Qed.

Lemma static_filter_cases static results :
  match EnhancedBlocklistFilter._apply_static_filter urlparse_netloc static results with
  | Ok out => out `sublist_of` results /\ Forall (parses urlparse_netloc) results
  | Raise e => e = ValueError /\ exists r, r ∈ results /\ urlparse_netloc (url r) = None
  end.
Proof.
  induction results as [|r rs IH]; simpl; [by split|].
  pose proof (_extract_domain_cases (url r)) as Hc.
  destruct (urlparse_netloc (url r)) as [n|] eqn:En.
  - destruct Hc as [d ->]. unfold mbind, res_bind.
    destruct (EnhancedBlocklistFilter._apply_static_filter urlparse_netloc static rs) as [out|e].
    + destruct IH as [Hsub Hall].
      assert ((parses urlparse_netloc) r) by (unfold parses; congruence).
      destruct (mem d static); (split; [|by constructor]).
      * by apply sublist_cons.
      * by apply sublist_skip.
    + destruct IH as (-> & r' & Hin & Hr'). split; [done|].
      exists r'. split; [by right | done].
  - rewrite Hc. simpl. split; [done|]. exists r. split; [left | done].
Qed.

Lemma track_loop_returns company results : forall t,
  Forall (parses urlparse_netloc) results ->
  snd (DomainFrequencyTracker.track_loop urlparse_netloc company results t) = Ok tt.
Proof.
  induction results as [|r rs IH]; intros t Hall; simpl; [done|].
  apply Forall_cons in Hall as [Hr Hall].
  destruct (_extract_domain_parses r Hr) as [d ->]. by apply IH.
Qed.

Lemma drop_aggregators_sublist aggregators results :
  Forall (parses urlparse_netloc) results ->
  exists out, EnhancedBlocklistFilter.drop_aggregators urlparse_netloc aggregators results = Ok out /\
              out `sublist_of` results.
Proof.
  induction 1 as [|r rs Hr Hall (out & IH & Hsub)]; simpl.
  - exists []. by split.
  - destruct (_extract_domain_parses r Hr) as [d ->]. rewrite IH.
    unfold mbind, res_bind. case_bool_decide; eexists; (split; [reflexivity|]).
    + by apply sublist_cons.
    + by apply sublist_skip.
Qed.

Lemma enhanced_filter_cases static results company t :
  match snd (EnhancedBlocklistFilter.filter_results urlparse_netloc static results company t) with
  | Ok out => out `sublist_of` results
  | Raise e => e = ValueError /\ exists r, r ∈ results /\ urlparse_netloc (url r) = None
  end.
Proof.
  unfold EnhancedBlocklistFilter.filter_results.
  pose proof (static_filter_cases static results) as Hs.
  destruct (EnhancedBlocklistFilter._apply_static_filter urlparse_netloc static results) as [filtered|e];
    [|done].
  destruct Hs as [Hsub Hall].
  assert (Hf : Forall (parses urlparse_netloc) filtered).
  { rewrite Forall_forall in Hall |- *. intros r Hr. eauto using elem_of_sublist. }
  unfold EnhancedBlocklistFilter._apply_dynamic_filter.
  pose proof (track_loop_returns company filtered
    {| DomainFrequencyTracker.domain_counts := DomainFrequencyTracker.domain_counts t;
       DomainFrequencyTracker.company_domains := DomainFrequencyTracker.company_domains t;
       DomainFrequencyTracker.total_searches := DomainFrequencyTracker.total_searches t + 1 |} Hf) as Ht.
  unfold DomainFrequencyTracker.track_search_results.
  destruct (DomainFrequencyTracker.track_loop _ _ _ _) as [t' tracked]. simpl in Ht. subst tracked.
  simpl.
  destruct (identify_aggregators_spec t' DomainFrequencyTracker.default_threshold DomainFrequencyTracker.default_min_occurrences)
    as (s & -> & _).
  unfold mbind, res_bind.
  destruct (drop_aggregators_sublist s filtered Hf) as (out & -> & Hout).
  by etrans.
Qed.

End Subsequences.


(** ** Rounded arithmetic *)

#[local] Open Scope Q_scope.

Section Pow2.

Import Float.









End Pow2.

Section RoundedSum.

Variable fl : Q -> Q.
Variable u : Q.
Hypothesis Hfl : standard_model fl u.
Hypothesis Hu : u <= 1 # 16.





End RoundedSum.

Section RoundedInit.

Variable fl : Q -> Q.
Variable fsum : ConfidenceScorer.Weights -> Q.
Variable u : Q.
Hypothesis Hfl : standard_model fl u.
Hypothesis Hsum : sum_model fsum u.
Hypothesis Hu : u <= 1 # 16.






End RoundedInit.

(** Exact arithmetic is the case without rounding. *)
Lemma exact_standard_model : standard_model (fun x => x) 0.
Proof.
  split; [lra|]. intros x.
  assert (E : x - x == 0) by ring. rewrite E. change (Qabs 0) with 0.
  pose proof (Qabs_nonneg x). lra.
Qed.

Lemma exact_sum_model : sum_model ConfidenceScorer.total_weight 0.
Proof. intros w _. lra. Qed.

Lemma exact_init (weights : option ConfidenceScorer.Weights) :
  FloatScorer.__init__ (fun x => x) ConfidenceScorer.total_weight weights
  = ConfidenceScorer.__init__ weights.
Proof. reflexivity. Qed.

(** * The properties of the specification *)

Lemma heavy_weights_nonneg : nonneg_weights heavy_weights.
Proof. unfold nonneg_weights; simpl; repeat split; lra. Qed.

(** The score depends on the library only through the netloc of the
    candidate's URL and the order of the company's words. *)
Lemma calculate_score_ext P P' order order' weights company result :
  P (url result) = P' (url result) ->
  order (company_words_of company) = order' (company_words_of company) ->
  ConfidenceScorer.calculate_score P order weights company result =
  ConfidenceScorer.calculate_score P' order' weights company result.
Proof.
  unfold company_words_of. intros HP Ho.
  unfold ConfidenceScorer.calculate_score, ConfidenceScorer._calculate_domain_match,
    ConfidenceScorer._calculate_tld_relevance, netloc_of, ConfidenceScorer.mk_set.
  by rewrite HP, Ho.
Qed.

Lemma two_searches_distinct :
  DomainFrequencyTracker.reachable_distinct urlsplit_netloc two_searches.
Proof.
  apply DomainFrequencyTracker.reachable_distinct_track; [|constructor].
  apply DomainFrequencyTracker.reachable_distinct_track; [constructor|].
  change (NoDup ["a.com"; "b.com"]).
  apply NoDup_cons. split; [|apply NoDup_singleton].
  intros H%list_elem_of_singleton. discriminate H.
Defined.

(** C1.  For every company, every candidate (whatever its URL, title
    and position) and every weight mapping without negative weights
    handed to the constructor, [calculate_score] returns a value
    between 0 and 100, whatever the library's parser and the iteration
    order of the word set do. *)
Theorem calculate_score_in_range
    (urlparse_netloc : string -> option string)
    (set_order : list string -> list string)
    (weights : ConfidenceScorer.Weights) (company : Company) (result : SearchResult) :
  nonneg_weights weights ->
  exists score,
    ConfidenceScorer.calculate_score urlparse_netloc set_order
      (ConfidenceScorer.__init__ (Some weights)) company result = Ok score /\
    0 <= score <= 100.
Proof.
  intros Hw. destruct (init_nonneg weights Hw) as [Hn Ht].
  by apply calculate_score_ok.
Qed.

Lemma calculate_score_in_range_witness :
  nonneg_weights heavy_weights /\
  exists score,
    ConfidenceScorer.calculate_score urlsplit_netloc id
      (ConfidenceScorer.__init__ (Some heavy_weights)) acme unparseable = Ok score /\
    0 <= score <= 100.
Proof.
  split; [exact heavy_weights_nonneg|].
  apply (calculate_score_in_range urlsplit_netloc id heavy_weights acme unparseable).
  exact heavy_weights_nonneg.
Defined.

(** C2, as stated, fails: on a URL the parser rejects, the TLD
    sub-score is 0.2, not 0. *)
Lemma tld_relevance_on_parse_failure :
  urlsplit_netloc (url unparseable) = None /\
  ConfidenceScorer._calculate_tld_relevance urlsplit_netloc unparseable acme = Ok 0.2 /\
  ~ 0.2 == 0.
Proof. split; [reflexivity|]. split; [reflexivity|]. intros H. discriminate H. Qed.

(** C2, amended.  [calculate_score] never raises, for any stored
    weights.  An empty URL gives a domain-match and a TLD sub-score of
    0.0; a URL the parser rejects gives a domain-match sub-score of 0.0
    and a TLD sub-score of 0.2; an empty title gives a title sub-score
    of 0.0.  The position sub-score parses nothing. *)
Theorem calculate_score_total
    (urlparse_netloc : string -> option string)
    (set_order : list string -> list string)
    (weights : ConfidenceScorer.Weights) (company : Company) (result : SearchResult) :
  returns (ConfidenceScorer.calculate_score urlparse_netloc set_order weights
             company result) /\
  (url result = EmptyString ->
     ConfidenceScorer._calculate_domain_match urlparse_netloc set_order company result
       = Ok 0.0 /\
     ConfidenceScorer._calculate_tld_relevance urlparse_netloc result company = Ok 0.0) /\
  (url result <> EmptyString -> urlparse_netloc (url result) = None ->
     ConfidenceScorer._calculate_domain_match urlparse_netloc set_order company result
       = Ok 0.0 /\
     ConfidenceScorer._calculate_tld_relevance urlparse_netloc result company = Ok 0.2) /\
  (title result = EmptyString ->
     ConfidenceScorer._calculate_title_match company result = Ok 0.0).
Proof.
  split; [apply calculate_score_returns|].
  unfold ConfidenceScorer._calculate_domain_match,
    ConfidenceScorer._calculate_tld_relevance,
    ConfidenceScorer._calculate_title_match, netloc_of.
  split; [|split].
  - intros ->. by split.
  - intros Hu%is_empty_false ->. rewrite Hu. by split.
  - by intros ->.
Qed.

Lemma calculate_score_total_witness :
  returns (ConfidenceScorer.calculate_score urlsplit_netloc id
             ConfidenceScorer.default_weights acme unparseable) /\
  ConfidenceScorer._calculate_domain_match urlsplit_netloc id acme unparseable = Ok 0.0 /\
  ConfidenceScorer._calculate_tld_relevance urlsplit_netloc unparseable acme = Ok 0.2 /\
  ConfidenceScorer._calculate_title_match acme unparseable = Ok 0.0.
Proof.
  destruct (calculate_score_total urlsplit_netloc id ConfidenceScorer.default_weights
              acme unparseable)
    as (Hret & _ & Hparse & Htitle).
  split; [exact Hret|].
  destruct Hparse as [Hd Ht]; [discriminate | reflexivity |].
  split; [exact Hd|]. split; [exact Ht|]. apply Htitle. reflexivity.
Defined.

(** C3.  In every tracker state, [identify_aggregators] returns, without
    raising, exactly the domains of the count dictionary whose count is
    at least [min_occurrences] and whose count divided by the total
    number of searches is at least [threshold]; when the total is 0 it
    returns the empty set and the frequency is 0 instead of a division
    error.  When the total is positive the frequency is that quotient. *)
Theorem identify_aggregators_exact
    (t : DomainFrequencyTracker.Tracker) (threshold : Q) (min_occurrences : Z) :
  exists aggregators,
    DomainFrequencyTracker.identify_aggregators t threshold min_occurrences
      = Ok aggregators /\
    (forall d, d ∈ aggregators <->
       DomainFrequencyTracker.total_searches t <> 0%Z /\
       exists c, (d, c) ∈ DomainFrequencyTracker.domain_counts t /\
                 (min_occurrences <= c)%Z /\
                 threshold
                   <= inject_Z c / inject_Z (DomainFrequencyTracker.total_searches t)) /\
    (DomainFrequencyTracker.total_searches t = 0%Z ->
       aggregators = ∅ /\ forall c, DomainFrequencyTracker.frequency t c = 0) /\
    ((0 < DomainFrequencyTracker.total_searches t)%Z ->
       forall c, DomainFrequencyTracker.frequency t c
                 = inject_Z c / inject_Z (DomainFrequencyTracker.total_searches t)).
Proof.
  destruct (identify_aggregators_spec t threshold min_occurrences) as (s & Hs & Hchar).
  exists s. split; [done|]. split; [done|]. split.
  - intros H0. split.
    + apply set_eq. intros d. rewrite Hchar.
      split; [by intros [? _] | by intros ?%elem_of_empty].
    + intros c. unfold DomainFrequencyTracker.frequency. by rewrite H0.
  - intros Hpos c. unfold DomainFrequencyTracker.frequency.
    apply Z.ltb_lt in Hpos. by rewrite Hpos.
Qed.

Lemma identify_aggregators_exact_witness :
  exists aggregators,
    DomainFrequencyTracker.identify_aggregators two_searches 0.3 1 = Ok aggregators /\
    "a.com" ∈ aggregators /\
    DomainFrequencyTracker.frequency two_searches 1 = inject_Z 1 / inject_Z 2.
Proof.
  destruct (identify_aggregators_exact two_searches 0.3 1)
    as (s & Hs & Hchar & _ & Hfreq).
  exists s. split; [exact Hs|]. split.
  - apply Hchar. split; [discriminate|].
    exists 1%Z. split; [left|]. split; [lia | discriminate].
  - apply Hfreq. reflexivity.
Defined.

(** C4.  The company "ACME SOFTWARE LIMITED" with postcode "SW1A 1AA"
    and the candidate https://acmesoftware.co.uk, titled "Acme Software
    Ltd", at position 1, score at least 80 under the default weights:
    for every parser that finds the netloc acmesoftware.co.uk in that
    URL and every iteration order of the word set. *)
Theorem acme_scenario_score
    (urlparse_netloc : string -> option string)
    (set_order : list string -> list string) :
  urlparse_netloc (url acme_site) = Some "acmesoftware.co.uk" ->
  valid_set_order set_order ->
  exists score,
    ConfidenceScorer.calculate_score urlparse_netloc set_order
      (ConfidenceScorer.__init__ None) acme acme_site = Ok score /\
    80 <= score.
Proof.
  intros HP Hord.
  pose proof (Hord ["acme"; "software"]) as Hperm.
  apply Permutation_sym, Permutation_length_2_inv in Hperm.
  destruct Hperm as [E | E].
  - rewrite (calculate_score_ext urlparse_netloc (fun _ => Some "acmesoftware.co.uk")
               set_order (fun _ => ["acme"; "software"])); [|exact HP | exact E].
    vm_compute. eexists. split; [reflexivity|]. discriminate.
  - rewrite (calculate_score_ext urlparse_netloc (fun _ => Some "acmesoftware.co.uk")
               set_order (fun _ => ["software"; "acme"])); [|exact HP | exact E].
    vm_compute. eexists. split; [reflexivity|]. discriminate.
Qed.

Lemma acme_scenario_score_witness :
  exists score,
    ConfidenceScorer.calculate_score urlsplit_netloc id
      (ConfidenceScorer.__init__ None) acme acme_site = Ok score /\
    80 <= score.
Proof.
  apply (acme_scenario_score urlsplit_netloc id).
  - reflexivity.
  - intros l. reflexivity.
Defined.




(** C6, as stated, fails: after one search whose two results are on
    the same domain, that domain's count is 2 and the total is 1. *)
Lemma repeated_domain_exceeds_total :
  DomainFrequencyTracker.reachable urlsplit_netloc doubled /\
  DomainFrequencyTracker.count_of doubled "a.com" = 2%Z /\
  DomainFrequencyTracker.total_searches doubled = 1%Z /\
  ~ (DomainFrequencyTracker.count_of doubled "a.com"
     <= DomainFrequencyTracker.total_searches doubled)%Z.
Proof.
  split; [apply DomainFrequencyTracker.reachable_track,
            DomainFrequencyTracker.reachable_init|].
  split; [reflexivity|]. split; [reflexivity|]. vm_compute. auto.
Qed.

(** C6, amended.  In every state reached from a fresh tracker by calls
    of [track_search_results] none of which lists a domain twice, the
    count of every domain is at most the total number of searches. *)
Theorem count_le_total_distinct
    (urlparse_netloc : string -> option string)
    (t : DomainFrequencyTracker.Tracker) (d : string) :
  DomainFrequencyTracker.reachable_distinct urlparse_netloc t ->
  (DomainFrequencyTracker.count_of t d <= DomainFrequencyTracker.total_searches t)%Z.
Proof. intros Hr. by apply (reachable_distinct_bound urlparse_netloc). Qed.

Lemma count_le_total_distinct_witness :
  DomainFrequencyTracker.reachable_distinct urlsplit_netloc two_searches /\
  (DomainFrequencyTracker.count_of two_searches "a.com"
   <= DomainFrequencyTracker.total_searches two_searches)%Z.
Proof.
  split; [exact two_searches_distinct|].
  apply (count_le_total_distinct urlsplit_netloc two_searches "a.com").
  exact two_searches_distinct.
Defined.

(** C7.  The filter does not keep exactly the candidates whose
    normalized domain is unblocked: [_is_blocked] compares the netloc
    with its port, so under the blocklist [blocked.co.uk] the page
    https://blocked.co.uk:8080/x, whose normalized domain is
    blocked.co.uk, is kept ([_extract_domain] of the tracker cuts the
    port of the same URL).  For candidates whose netloc has no port the
    filter keeps, in order, exactly those whose normalized domain is
    neither an entry nor a subdomain of one. *)
Theorem blocklist_filter_keeps_port
    (urlparse_netloc : string -> option string)
    (blocklist : list string) (results : list SearchResult) :
  (Spec.normalize urlsplit_netloc (url with_port) = "blocked.co.uk" /\
   Spec.blocked ["blocked.co.uk"] (Spec.normalize urlsplit_netloc (url with_port)) /\
   BlocklistFilter.filter_results urlsplit_netloc
     (BlocklistFilter.__init__ ["blocked.co.uk"]) [with_port] = Ok [with_port] /\
   DomainFrequencyTracker._extract_domain urlsplit_netloc (url with_port)
     = Ok "blocked.co.uk") /\
  exists keep : SearchResult -> bool,
    BlocklistFilter.filter_results urlparse_netloc (BlocklistFilter.__init__ blocklist)
      results = Ok (List.filter keep results) /\
    forall r, portless urlparse_netloc r ->
      (keep r = true <->
       ~ Spec.blocked blocklist (Spec.normalize urlparse_netloc (url r))).
Proof.
  split.
  - split; [reflexivity|]. split; [|split; reflexivity].
    exists "blocked.co.uk". split; [left|]. split; [discriminate|]. by left.
  - exists (fun r => negb (existsb
              (entry_test (compared_domain urlparse_netloc (url r)))
              (BlocklistFilter.__init__ blocklist))).
    split; [apply filter_results_filter, init_nonempty|].
    intros r Hp. rewrite normalize_portless by done.
    rewrite negb_true_iff, <- not_true_iff_false.
    by rewrite blocked_spec.
Qed.

Lemma blocklist_filter_keeps_port_witness :
  portless urlsplit_netloc (page "https://api.blocked.co.uk") /\
  exists keep : SearchResult -> bool,
    BlocklistFilter.filter_results urlsplit_netloc
      (BlocklistFilter.__init__ ["BLOCKED.CO.UK"])
      [page "https://api.blocked.co.uk"; page "https://notblocked.co.uk"]
      = Ok (List.filter keep
              [page "https://api.blocked.co.uk"; page "https://notblocked.co.uk"]) /\
    keep (page "https://api.blocked.co.uk") = false.
Proof.
  assert (Hp : portless urlsplit_netloc (page "https://api.blocked.co.uk")).
  { intros netloc H. change (Some "api.blocked.co.uk" = Some netloc) in H.
    injection H as <-. reflexivity. }
  split; [exact Hp|].
  destruct (blocklist_filter_keeps_port urlsplit_netloc ["BLOCKED.CO.UK"]
              [page "https://api.blocked.co.uk"; page "https://notblocked.co.uk"])
    as (_ & keep & Hf & Hk).
  exists keep. split; [exact Hf|].
  destruct (keep (page "https://api.blocked.co.uk")) eqn:E; [|reflexivity].
  exfalso. apply (proj1 (Hk _ Hp) E).
  exists "BLOCKED.CO.UK". split; [left|]. split; [discriminate|].
  right. exists "api". reflexivity.
Defined.

(** C8, as stated, fails: after a single search with a single result,
    the domain of that result is reported as suspected with frequency
    1, which is not below the aggregator threshold 0.3. *)
Lemma suspected_above_threshold :
  DomainFrequencyTracker.reachable urlsplit_netloc single /\
  match EnhancedBlocklistFilter.get_suspected_aggregators [] single 0.1 with
  | Ok [s] =>
      EnhancedBlocklistFilter.domain s = "a.com" /\
      EnhancedBlocklistFilter.frequency s == 1 /\
      ~ EnhancedBlocklistFilter.frequency s < DomainFrequencyTracker.default_threshold
  | _ => False
  end.
Proof.
  split; [apply DomainFrequencyTracker.reachable_track,
            DomainFrequencyTracker.reachable_init|].
  vm_compute. split; [reflexivity|]. split; [reflexivity|]. discriminate.
Qed.

(** C8, amended.  In a tracker state whose count dictionary is empty
    when no search was tracked, [get_suspected_aggregators] returns,
    without raising, exactly the entries of the domains of the count
    dictionary that are outside the static blocklist, are not confirmed
    aggregators (count at least 3 and frequency at least 0.3) and have
    a frequency of at least [min_suspicion]; the list is in descending
    order of frequency. *)
Theorem suspected_aggregators_exact
    (static_blocklist : list string) (t : DomainFrequencyTracker.Tracker)
    (min_suspicion : Q) :
  (DomainFrequencyTracker.total_searches t = 0%Z ->
   DomainFrequencyTracker.domain_counts t = []) ->
  exists suspected,
    EnhancedBlocklistFilter.get_suspected_aggregators static_blocklist t min_suspicion
      = Ok suspected /\
    (forall s, s ∈ suspected <->
       exists d c, (d, c) ∈ DomainFrequencyTracker.domain_counts t /\
                   (d ∉ static_blocklist) /\
                   ~ confirmed t d /\
                   min_suspicion
                     <= inject_Z c / inject_Z (DomainFrequencyTracker.total_searches t) /\
                   s = suspect_entry t d c) /\
    StronglySorted (desc EnhancedBlocklistFilter.frequency) suspected.
Proof.
  intros Hzero. unfold EnhancedBlocklistFilter.get_suspected_aggregators.
  destruct (identify_aggregators_spec t DomainFrequencyTracker.default_threshold
              DomainFrequencyTracker.default_min_occurrences)
    as (conf & -> & Hconf).
  unfold mbind, res_bind.
  destruct (decide (DomainFrequencyTracker.total_searches t = 0%Z)) as [H0 | Hne].
  - rewrite (Hzero H0). simpl. exists []. split; [done|]. split; [|constructor].
    intros s. split; [by intros ?%elem_of_nil|].
    by intros (d & c & ?%elem_of_nil & _).
  - destruct (suspected_of_spec static_blocklist t conf min_suspicion
                (DomainFrequencyTracker.domain_counts t) Hne) as (l & -> & Hl).
    eexists. split; [reflexivity|]. split; [|apply sort_desc_sorted].
    intros s. rewrite sort_desc_perm, Hl.
    split; intros (d & c & H1 & H2 & H3 & H4); exists d, c;
      (split; [done|]); (split; [done|]); (split; [|done]).
    + intros Hc. apply H3, Hconf, Hc.
    + intros Hc. apply H3, Hconf, Hc.
Qed.

Lemma suspected_aggregators_exact_witness :
  exists suspected,
    EnhancedBlocklistFilter.get_suspected_aggregators [] two_searches 0.1
      = Ok suspected /\
    suspect_entry two_searches "b.com" 1 ∈ suspected /\
    StronglySorted (desc EnhancedBlocklistFilter.frequency) suspected.
Proof.
  destruct (suspected_aggregators_exact [] two_searches 0.1) as (l & Hl & Hchar & Hs).
  - intros H. discriminate H.
  - exists l. split; [exact Hl|]. split; [|exact Hs].
    apply Hchar. exists "b.com", 1%Z.
    split; [right; left|]. split; [apply not_elem_of_nil|].
    split; [|split; [discriminate | reflexivity]].
    intros (_ & c & Hin & Hc & _). revert Hc.
    change (DomainFrequencyTracker.domain_counts two_searches)
      with [("a.com", 1%Z); ("b.com", 1%Z)] in Hin.
    apply elem_of_cons in Hin as [Heq | Hin]; [discriminate Heq|].
    apply elem_of_cons in Hin as [Heq | Hin].
    + injection Heq as ->. unfold DomainFrequencyTracker.default_min_occurrences. lia.
    + by apply elem_of_nil in Hin.
Defined.

(** C9.  For the company "Acme Ltd" and the domain acmecheck.com the
    only aggregator keyword in the domain is "check": the specified
    score is 100 - 20 + 5 = 85, and [_analyze_domain] returns 65,
    because "check" is listed twice among the keywords and is charged
    twice. *)
Theorem analyze_domain_repeated_keyword :
  URLQualityAnalyzer._analyze_domain "Acme Ltd" "acmecheck.com" == 65 /\
  Spec.analyze_domain URLQualityAnalyzer._aggregator_keywords "Acme Ltd" "acmecheck.com"
    == 85.
Proof. split; reflexivity. Qed.

(** C10.  The combined filter does not always return a subsequence
    of its input: on a list with a URL the parser rejects it returns
    nothing and raises [ValueError], because [_extract_domain] parses
    without a guard, where the static blocklist filter returns the same
    list unchanged.  The static blocklist filter and the confidence
    filter always return a subsequence of their input; the combined
    filter returns one unless the parser rejects the URL of some
    candidate. *)
Theorem combined_filter_raises
    (urlparse_netloc : string -> option string)
    (set_order : list string -> list string)
    (results : list SearchResult) :
  (snd (EnhancedBlocklistFilter.filter_results urlsplit_netloc []
          [page "https://a.com/1"; unparseable] "A" DomainFrequencyTracker.__init__)
     = Raise ValueError /\
   BlocklistFilter.filter_results urlsplit_netloc (BlocklistFilter.__init__ [])
     [page "https://a.com/1"; unparseable] = Ok [page "https://a.com/1"; unparseable]) /\
  (forall blocklist, exists out,
     BlocklistFilter.filter_results urlparse_netloc (BlocklistFilter.__init__ blocklist)
       results = Ok out /\
     out `sublist_of` results) /\
  (forall weights company threshold, exists out,
     ConfidenceScorer.filter_by_confidence urlparse_netloc set_order
       (ConfidenceScorer.__init__ weights) results company threshold = Ok out /\
     out `sublist_of` results) /\
  (forall static_blocklist company_name t,
     match snd (EnhancedBlocklistFilter.filter_results urlparse_netloc static_blocklist
                  results company_name t) with
     | Ok out => out `sublist_of` results
     | Raise e =>
         e = ValueError /\ exists r, r ∈ results /\ urlparse_netloc (url r) = None
     end).
Proof.
  split; [split; reflexivity|]. split; [|split].
  - intros bl. apply blocklist_filter_sublist.
  - intros w c th. apply filter_by_confidence_sublist.
  - intros st c t. apply enhanced_filter_cases.
Qed.

Lemma combined_filter_raises_witness :
  snd (EnhancedBlocklistFilter.filter_results urlsplit_netloc ["blocked.com"]
         [unparseable; page "https://blocked.com/x"] "A" single) = Raise ValueError /\
  exists r, r ∈ [unparseable; page "https://blocked.com/x"] /\
            urlsplit_netloc (url r) = None.
Proof.
  split; [reflexivity|].
  destruct (combined_filter_raises urlsplit_netloc id
              [unparseable; page "https://blocked.com/x"])
    as (_ & _ & _ & H).
  specialize (H ["blocked.com"] "A" single).
  change (snd (EnhancedBlocklistFilter.filter_results urlsplit_netloc ["blocked.com"]
                 [unparseable; page "https://blocked.com/x"] "A" single))
    with (@Raise (list SearchResult) ValueError) in H.
  exact (proj2 H).
Defined.

(** * Further properties of the code *)

Import Invariants Scenarios.

Section StripFacts.

Lemma lstrip_fixed s :
  match s with String c _ => isspace c = false | EmptyString => True end ->
  lstrip s = s.
Proof. destruct s as [|c s]; simpl; [done|]. by intros ->. Qed.

Lemma lstrip_head s :
  match lstrip s with String c _ => isspace c = false | EmptyString => True end.
Proof.
  induction s as [|c s IH]; simpl; [done|].
  destruct (isspace c) eqn:E; [done|]. done.
Qed.

Lemma rstrip_head s :
  match s with String c _ => isspace c = false | EmptyString => True end ->
  match rstrip s with String c _ => isspace c = false | EmptyString => True end.
Proof.
  destruct s as [|c s]; simpl; [done|]. intros Hc.
  destruct (rstrip s); [by rewrite Hc | done].
Qed.

Lemma rstrip_idemp s : rstrip (rstrip s) = rstrip s.
Proof.
  induction s as [|c s IH]; simpl; [done|].
  destruct (rstrip s) as [|c' r] eqn:E.
  - destruct (isspace c) eqn:Ec; simpl; [done|]. by rewrite Ec.
  - simpl. simpl in IH. destruct (rstrip r) as [|c'' r'] eqn:E'.
    + destruct (isspace c') eqn:Ec'; [done|]. by rewrite IH.
    + by rewrite IH.
Qed.

Lemma strip_idemp s : strip (strip s) = strip s.
Proof.
  unfold strip.
  rewrite (lstrip_fixed (rstrip (lstrip s))) by apply rstrip_head, lstrip_head.
  apply rstrip_idemp.
Qed.

End StripFacts.

Section BlocklistFacts.

Variable urlparse_netloc : string -> option string.

Lemma filter_results_as_filter stored :
  exists keep : SearchResult -> bool, forall results,
    BlocklistFilter.filter_results urlparse_netloc stored results
      = Ok (List.filter keep results).
Proof.
  exists (fun r => match BlocklistFilter._is_blocked urlparse_netloc stored (url r) with
                   | Ok b => negb b
                   | Raise _ => true
                   end).
  induction results as [|r rs IH]; simpl; [done|].
  destruct (_is_blocked_returns urlparse_netloc stored (url r)) as [b ->].
  rewrite IH. unfold mbind, res_bind. by destruct b.
Qed.

Lemma filter_filter_same {A} (f : A -> bool) l :
  List.filter f (List.filter f l) = List.filter f l.
Proof.
  induction l as [|x l IH]; simpl; [done|].
  destruct (f x) eqn:E; simpl; [by rewrite E, IH | done].
Qed.

Lemma init_app bl1 bl2 :
  BlocklistFilter.__init__ (bl1 ++ bl2) =
  BlocklistFilter.__init__ bl1 ++ BlocklistFilter.__init__ bl2.
Proof. unfold BlocklistFilter.__init__. by rewrite filter_app, map_app. Qed.

End BlocklistFacts.

Section DictKeys.

Context {V : Type}.

Lemma dict_get_None (d : dict V) k : dict_get d k = None <-> k ∉ map fst d.
Proof.
  induction d as [|[k0 v] d IH]; simpl.
  - split; [intros _; apply not_elem_of_nil | done].
  - rewrite eqb_decide. case_bool_decide as E.
    + split; [done|]. intros H. exfalso. apply H. subst. left.
    + rewrite IH, not_elem_of_cons. split; [by intros ?; split; [congruence|] | by intros [_
        ?]].
Qed.

Lemma dict_update_keys (dflt : V) f k (d : dict V) :
  map fst (dict_update dflt f k d) =
  if bool_decide (k ∈ map fst d) then map fst d else map fst d ++ [k].
Proof.
  induction d as [|[k0 v] d IH]; simpl.
  - done.
  - rewrite eqb_decide. destruct (decide (k0 = k)) as [-> | E].
    + rewrite !bool_decide_eq_true_2 by (done || left). done.
    + rewrite bool_decide_eq_false_2 by done. simpl map. rewrite IH.
      destruct (decide (k ∈ map fst d)) as [E1 | E1].
      * rewrite !bool_decide_eq_true_2 by (done || by right). done.
      * rewrite !bool_decide_eq_false_2; [done | | done].
        rewrite not_elem_of_cons. split; [congruence | done].
Qed.

Lemma dict_update_keys_NoDup (dflt : V) f k (d : dict V) :
  NoDup (map fst d) -> NoDup (map fst (dict_update dflt f k d)).
Proof.
  intros Hnd. rewrite dict_update_keys. case_bool_decide as E; [done|].
  apply NoDup_app. split; [done|]. split; [|apply NoDup_singleton].
  intros x Hx ->%list_elem_of_singleton. done.
Qed.

Lemma elem_of_dict_get (d : dict V) k v :
  NoDup (map fst d) -> (k, v) ∈ d -> dict_get d k = Some v.
Proof.
  induction d as [|[k0 v0] d IH]; simpl; [by intros _ ?%elem_of_nil|].
  intros [Hk0 Hnd]%NoDup_cons [[= -> ->] | Hin]%elem_of_cons.
  - by rewrite String.eqb_refl.
  - rewrite eqb_decide. case_bool_decide as E; [|by apply IH].
    subst. exfalso. apply Hk0. apply list_elem_of_fmap. by exists (k, v).
Qed.

End DictKeys.

Section TrackerInvariants.

Variable urlparse_netloc : string -> option string.

Lemma default_Some {A} (x y : A) : default x (Some y) = y.
Proof. reflexivity. Qed.

Lemma size_add (s : gset string) (c : string) :
  (size (s ∪ {[c]}) <= size s + 1)%nat.
Proof.
  rewrite size_union_alt.
  assert (size (({[c]} : gset string) ∖ s) <= size ({[c]} : gset string))%nat
    by (apply subseteq_size; intros x [Hx _]%elem_of_difference; exact Hx).
  rewrite size_singleton in *. lia.
Qed.

Lemma add_nonempty (s : gset string) (c : string) : s ∪ {[c]} <> ∅.
Proof.
  intros H0. assert (c ∈ (∅ : gset string)) as Hin.
  { rewrite <- H0. apply elem_of_union. right. by apply elem_of_singleton. }
  by apply elem_of_empty in Hin.
Qed.

Lemma record_domain_well_formed company d t :
  well_formed t -> well_formed (DomainFrequencyTracker.record_domain company d t).
Proof.
  intros (Hnd & Hkeys & Hpos & Hcomp).
  unfold well_formed, DomainFrequencyTracker.record_domain, DomainFrequencyTracker.count_of.
  cbn [DomainFrequencyTracker.domain_counts DomainFrequencyTracker.company_domains
      DomainFrequencyTracker.total_searches].
  split; [by apply dict_update_keys_NoDup|].
  split; [by rewrite !dict_update_keys, Hkeys|].
  split.
  - intros d' c'. rewrite dict_get_update. case_bool_decide; [|apply Hpos].
    intros [= <-]. destruct (dict_get (DomainFrequencyTracker.domain_counts t) d) as [c0|]
        eqn:E;
      cbn [from_option]; unfold id.
    + specialize (Hpos d c0 E). lia.
    + lia.
  - intros d' s'. rewrite !dict_get_update. case_bool_decide as E.
    + intros [= <-]. split; [apply add_nonempty|].
      pose proof (size_add (default ∅ (dict_get (DomainFrequencyTracker.company_domains t)
          d)) company)
        as Hsz.
      assert (Hle : (Z.of_nat (size (default ∅ (dict_get
          (DomainFrequencyTracker.company_domains t) d)))
                     <= default 0 (dict_get (DomainFrequencyTracker.domain_counts t) d))%Z).
      { destruct (dict_get (DomainFrequencyTracker.company_domains t) d) as [s0|] eqn:Es.
        - apply (Hcomp d s0 Es).
        - change (Z.of_nat (size (∅ : gset string))
                  <= default 0 (dict_get (DomainFrequencyTracker.domain_counts t) d))%Z.
          rewrite size_empty.
          destruct (dict_get (DomainFrequencyTracker.domain_counts t) d) as [c0|] eqn:Ec.
          + specialize (Hpos d c0 Ec). change (0 <= c0)%Z. lia.
          + done. }
      rewrite default_Some. lia.
    + intros Hs. apply (Hcomp d' s' Hs).
Qed.

Lemma track_loop_preserves (inv : DomainFrequencyTracker.Tracker -> Prop) company :
  (forall d t, inv t -> inv (DomainFrequencyTracker.record_domain company d t)) ->
  forall rs t, inv t ->
    inv (fst (DomainFrequencyTracker.track_loop urlparse_netloc company rs t)).
Proof.
  intros Hstep. induction rs as [|r rs IH]; intros t Ht; simpl; [done|].
  destruct (DomainFrequencyTracker._extract_domain urlparse_netloc (url r)); [|done].
  apply IH, Hstep, Ht.
Qed.

Lemma reachable_well_formed t :
  DomainFrequencyTracker.reachable urlparse_netloc t -> well_formed t.
Proof.
  induction 1 as [|t company rs Hr IH].
  - repeat split; simpl; try done. constructor.
  - unfold DomainFrequencyTracker.track_search_results.
    apply track_loop_preserves; [apply record_domain_well_formed|].
    exact IH.
Qed.

Lemma remove_add (s : gset string) (c : string) :
  (s ∪ {[c]}) ∖ {[c]} = s ∖ {[c]}.
Proof.
  apply set_eq. intros x.
  rewrite !elem_of_difference, elem_of_union. split.
  - intros [[Hx | Hx] Hn]; [by split | done].
  - intros [Hx Hn]. split; [by left | done].
Qed.

Lemma size_remove (s : gset string) (c : string) :
  (size s <= size (s ∖ {[c]}) + 1)%nat.
Proof.
  assert (s ⊆ (s ∖ {[c]}) ∪ {[c]}) as Hsub.
  { intros x Hx. apply elem_of_union. destruct (decide (x = c)) as [-> | Hne].
    - right. by apply elem_of_singleton.
    - left. apply elem_of_difference. split; [done|].
      by intros ?%elem_of_singleton. }
  apply subseteq_size in Hsub. pose proof (size_add (s ∖ {[c]}) c). lia.
Qed.

Lemma size_remove_le (s : gset string) (c : string) :
  (size (s ∖ {[c]}) <= size s)%nat.
Proof. apply subseteq_size. intros x [Hx _]%elem_of_difference. exact Hx. Qed.

Lemma dict_update_nonempty {V} (dflt : V) f k (d : dict V) : dict_update dflt f k d <> [].
Proof. destruct d as [|[k0 v] d]; simpl; [done|]. by destruct (String.eqb k0 k). Qed.

Lemma reachable_companies_bounded t :
  DomainFrequencyTracker.reachable urlparse_netloc t -> companies_bounded t.
Proof.
  induction 1 as [|t company rs Hr (H0 & Hz & Hb)].
  - repeat split; simpl; done.
  - unfold DomainFrequencyTracker.track_search_results.
    set (T := DomainFrequencyTracker.total_searches t) in *.
    pose (J := fun t' : DomainFrequencyTracker.Tracker =>
      DomainFrequencyTracker.total_searches t' = (T + 1)%Z /\
      forall d s, dict_get (DomainFrequencyTracker.company_domains t') d = Some s ->
                  (Z.of_nat (size (s ∖ {[company]})) <= T)%Z).
    assert (HJ : J (fst (DomainFrequencyTracker.track_loop urlparse_netloc company rs
                     {| DomainFrequencyTracker.domain_counts :=
                         DomainFrequencyTracker.domain_counts t;
                        DomainFrequencyTracker.company_domains :=
                            DomainFrequencyTracker.company_domains t;
                        DomainFrequencyTracker.total_searches := T + 1 |}))).
    { apply track_loop_preserves.
      - intros d t' [Ht' Hs]. split; [done|].
        cbn [DomainFrequencyTracker.record_domain DomainFrequencyTracker.company_domains].
        intros d' s'. rewrite dict_get_update. case_bool_decide; [|apply Hs].
        intros [= <-]. rewrite remove_add.
        destruct (dict_get (DomainFrequencyTracker.company_domains t') d) as [s0|] eqn:Es;
          cbn [from_option]; unfold id.
        + apply (Hs d s0 Es).
        + pose proof (size_remove_le ∅ company) as Hle.
          rewrite size_empty in Hle. lia.
      - split; [done|]. cbn [DomainFrequencyTracker.company_domains]. intros d s Hs.
        specialize (Hb d s Hs). pose proof (size_remove_le s company). lia. }
    destruct HJ as [HT HJ]. split; [lia|]. split; [lia|].
    intros d s Hs. specialize (HJ d s Hs). pose proof (size_remove s company). lia.
Qed.

End TrackerInvariants.

Section TrackerFacts.

Variable urlparse_netloc : string -> option string.

Lemma dict_get_Some_elem {V} (d : dict V) k v : dict_get d k = Some v -> (k, v) ∈ d.
Proof. apply dict_get_elem_of. Qed.

Lemma track_loop_app company rs1 rs2 : forall t,
  Forall (parses urlparse_netloc) rs1 ->
  DomainFrequencyTracker.track_loop urlparse_netloc company (rs1 ++ rs2) t =
  DomainFrequencyTracker.track_loop urlparse_netloc company rs2
    (fst (DomainFrequencyTracker.track_loop urlparse_netloc company rs1 t)).
Proof.
  induction rs1 as [|r rs1 IH]; intros t Hall; simpl; [done|].
  apply Forall_cons in Hall as [Hr Hall].
  destruct (_extract_domain_parses urlparse_netloc r Hr) as [d ->]. by apply IH.
Qed.

Lemma aggregators_of_size items total threshold min_occurrences : forall acc s,
  DomainFrequencyTracker.aggregators_of items total threshold min_occurrences acc = Ok s ->
  (size s <= size acc + length items)%nat.
Proof.
  induction items as [|[d c] items IH]; intros acc s; simpl.
  - intros [= <-]. lia.
  - destruct (div (inject_Z c) (inject_Z total)) as [f|e]; [|done].
    unfold mbind, res_bind. intros H. apply IH in H.
    destruct (_ && _); [|lia].
    pose proof (size_add acc d). lia.
Qed.

Lemma suspected_of_zero_total static t min_suspicion items :
  DomainFrequencyTracker.total_searches t = 0%Z ->
  (exists d c, (d, c) ∈ items /\ (d ∉ static)) ->
  EnhancedBlocklistFilter.suspected_of static t ∅ min_suspicion items = Raise ZeroDivisionError.
Proof.
  intros Ht. induction items as [|[d0 c0] items IH]; simpl.
  - by intros (d & c & ?%elem_of_nil & _).
  - intros (d & c & Hin & Hd). unfold mem.
    rewrite (bool_decide_eq_false_2 (d0 ∈ (∅ : gset string))) by apply not_elem_of_empty.
    rewrite orb_false_r. case_bool_decide as E.
    + apply IH. apply elem_of_cons in Hin as [[= -> ->] | Hin]; [done|]. eauto.
    + rewrite Ht. by rewrite div_zero.
Qed.

(** [_is_aggregator] and [identify_aggregators] on the states a tracker
    goes through. *)
Lemma is_aggregator_spec t threshold min_occurrences :
  DomainFrequencyTracker.reachable urlparse_netloc t ->
  (0 < min_occurrences)%Z ->
  exists aggregators,
    DomainFrequencyTracker.identify_aggregators t threshold min_occurrences
      = Ok aggregators /\
    forall d, d ∈ aggregators <->
              DomainFrequencyTracker._is_aggregator t d threshold min_occurrences = true.
Proof.
  intros Hr Hm.
  destruct (reachable_well_formed _ _ Hr) as (Hnd & _ & _ & _).
  destruct (reachable_companies_bounded _ _ Hr) as (H0 & Hz & _).
  destruct (identify_aggregators_spec t threshold min_occurrences) as (s & Hs & Hchar).
  exists s. split; [done|]. intros d. rewrite Hchar.
  unfold DomainFrequencyTracker._is_aggregator, DomainFrequencyTracker.count_of,
    DomainFrequencyTracker.frequency.
  rewrite andb_true_iff, Z.leb_le, Qle_bool_iff. split.
  - intros (Hne & c & Hin & Hc & Hf).
    rewrite (elem_of_dict_get _ _ _ Hnd Hin). cbn [from_option]. unfold id.
    assert ((0 <? DomainFrequencyTracker.total_searches t)%Z = true) as ->
      by (apply Z.ltb_lt; lia).
    done.
  - intros [Hc Hf].
    destruct (dict_get (DomainFrequencyTracker.domain_counts t) d) as [c|] eqn:E;
      cbn [from_option] in *; unfold id in *; [|lia].
    assert (Hne : DomainFrequencyTracker.total_searches t <> 0%Z).
    { intros Ht. destruct (Hz Ht) as [Hd _]. by rewrite Hd in E. }
    split; [done|]. exists c. split; [by apply dict_get_Some_elem|]. split; [done|].
    assert ((0 <? DomainFrequencyTracker.total_searches t)%Z = true) as Hpos
      by (apply Z.ltb_lt; lia).
    by rewrite Hpos in Hf.
Qed.

End TrackerFacts.

Section CombinedFilter.

Variable urlparse_netloc : string -> option string.

Lemma static_filter_out static results out :
  EnhancedBlocklistFilter._apply_static_filter urlparse_netloc static results = Ok out ->
  Forall (fun r => exists d, DomainFrequencyTracker._extract_domain urlparse_netloc (url r)
      = Ok d /\
                             d ∉ static) out.
Proof.
  revert out. induction results as [|r rs IH]; intros out; simpl.
  - intros [= <-]. constructor.
  - destruct (DomainFrequencyTracker._extract_domain urlparse_netloc (url r)) as [d|e]
      eqn:E; [|done].
    unfold mbind, res_bind.
    destruct (EnhancedBlocklistFilter._apply_static_filter urlparse_netloc static rs) as
        [out'|e]; [|done].
    unfold mem. case_bool_decide as Hd; intros [= <-]; [by apply IH|].
    constructor; [eauto | by apply IH].
Qed.

Lemma drop_aggregators_out aggregators results out :
  EnhancedBlocklistFilter.drop_aggregators urlparse_netloc aggregators results = Ok out ->
  Forall (fun r => exists d, DomainFrequencyTracker._extract_domain urlparse_netloc (url r)
      = Ok d /\
                             d ∉ aggregators) out.
Proof.
  revert out. induction results as [|r rs IH]; intros out; simpl.
  - intros [= <-]. constructor.
  - destruct (DomainFrequencyTracker._extract_domain urlparse_netloc (url r)) as [d|e]
      eqn:E; [|done].
    unfold mbind, res_bind.
    destruct (EnhancedBlocklistFilter.drop_aggregators urlparse_netloc aggregators rs) as
        [out'|e]; [|done].
    case_bool_decide as Hd; intros [= <-]; [by apply IH|].
    constructor; [eauto | by apply IH].
Qed.

(** The steps of [filter_results] when the static pass returns. *)

Lemma filter_results_steps static results company t filtered :
  EnhancedBlocklistFilter._apply_static_filter urlparse_netloc static results = Ok filtered ->
  exists aggregators out,
    let t' := fst (DomainFrequencyTracker.track_search_results urlparse_netloc company
        filtered t) in
    DomainFrequencyTracker.identify_aggregators t' DomainFrequencyTracker.default_threshold
        DomainFrequencyTracker.default_min_occurrences
      = Ok aggregators /\
    EnhancedBlocklistFilter.drop_aggregators urlparse_netloc aggregators filtered = Ok out /\
    EnhancedBlocklistFilter.filter_results urlparse_netloc static results company t = (t',
        Ok out).
Proof.
  intros Hs. pose proof (static_filter_cases urlparse_netloc static results) as Hc.
  rewrite Hs in Hc. destruct Hc as [Hsub Hall].
  assert (Hf : Forall (parses urlparse_netloc) filtered).
  { rewrite Forall_forall in Hall |- *. intros r Hr. eauto using elem_of_sublist. }
  unfold EnhancedBlocklistFilter.filter_results,
      EnhancedBlocklistFilter._apply_dynamic_filter. rewrite Hs.
  pose proof (track_loop_returns urlparse_netloc company filtered
    {| DomainFrequencyTracker.domain_counts := DomainFrequencyTracker.domain_counts t;
       DomainFrequencyTracker.company_domains := DomainFrequencyTracker.company_domains t;
       DomainFrequencyTracker.total_searches := DomainFrequencyTracker.total_searches t + 1
           |} Hf) as Ht.
  unfold DomainFrequencyTracker.track_search_results in *.
  destruct (DomainFrequencyTracker.track_loop _ _ _ _) as [t' tracked]. simpl in Ht. subst
      tracked.
  cbn [fst].
  destruct (identify_aggregators_spec t' DomainFrequencyTracker.default_threshold
      DomainFrequencyTracker.default_min_occurrences)
    as (s & Hid & _).
  destruct (drop_aggregators_sublist urlparse_netloc s filtered Hf) as (out & Hout & _).
  exists s, out. split; [done|]. split; [done|].
  unfold mbind, res_bind. by rewrite Hid, Hout.
Qed.

Lemma track_loop_total company rs : forall t,
  DomainFrequencyTracker.total_searches (fst (DomainFrequencyTracker.track_loop
      urlparse_netloc company rs t))
  = DomainFrequencyTracker.total_searches t.
Proof.
  induction rs as [|r rs IH]; intros t; simpl; [done|].
  destruct (DomainFrequencyTracker._extract_domain urlparse_netloc (url r)); [|done].
  by rewrite IH.
Qed.

Lemma track_loop_count_other company d rs : forall t,
  Forall (fun r => DomainFrequencyTracker._extract_domain urlparse_netloc (url r) <> Ok d) rs ->
  DomainFrequencyTracker.count_of (fst (DomainFrequencyTracker.track_loop urlparse_netloc
      company rs t)) d
  = DomainFrequencyTracker.count_of t d.
Proof.
  induction rs as [|r rs IH]; intros t Hall; simpl; [done|].
  apply Forall_cons in Hall as [Hr Hall].
  destruct (DomainFrequencyTracker._extract_domain urlparse_netloc (url r)) as [d0|] eqn:E;
      [|done].
  rewrite IH by done. rewrite count_of_record.
  case_bool_decide; [congruence | done].
Qed.

Lemma filter_results_reachable static results company t :
  DomainFrequencyTracker.reachable urlparse_netloc t ->
  DomainFrequencyTracker.reachable urlparse_netloc
    (fst (EnhancedBlocklistFilter.filter_results urlparse_netloc static results
            company t)).
Proof.
  intros Hr.
  destruct (EnhancedBlocklistFilter._apply_static_filter urlparse_netloc static results)
    as [filtered|e] eqn:Hs.
  - destruct (filter_results_steps _ _ company t _ Hs) as (aggs & out & _ & _ & ->).
    by apply DomainFrequencyTracker.reachable_track.
  - unfold EnhancedBlocklistFilter.filter_results. by rewrite Hs.
Qed.

End CombinedFilter.

Section Persistence.

Lemma dict_set_update {V} (dflt : V) f k (d : dict V) :
  dict_set k (f (default dflt (dict_get d k))) d = dict_update dflt f k d.
Proof.
  induction d as [|[k0 v] d IH]; simpl; [done|].
  destruct (String.eqb k0 k); [done|]. by rewrite IH.
Qed.

Lemma dict_update_fixed {V} (dflt : V) f k v (d : dict V) :
  dict_get d k = Some v -> f v = v -> dict_update dflt f k d = d.
Proof.
  induction d as [|[k0 v0] d IH]; simpl; [done|].
  destruct (String.eqb k0 k).
  - intros [= ->] ->. done.
  - intros H1 H2. by rewrite IH.
Qed.

Lemma dict_get_map (d : dict (list string)) k :
  dict_get (map to_set d) k = (list_to_set : list string -> gset string) <$> dict_get d k.
Proof.
  induction d as [|[k0 v] d IH]; simpl; [done|].
  by destruct (String.eqb k0 k).
Qed.

Lemma dict_update_map (f : list string -> list string) g k (d : dict (list string)) :
  (forall l, (list_to_set (f l) : gset string) = g (list_to_set l)) ->
  map to_set (dict_update [] f k d) = dict_update ∅ g k (map to_set d).
Proof.
  intros Hfg. induction d as [|[k0 v] d IH]; simpl.
  - f_equal. f_equal. rewrite Hfg. done.
  - destruct (String.eqb k0 k); simpl; [by rewrite Hfg | by rewrite IH].
Qed.

Lemma load_update_cache (domain company_name : string) (cache : DomainCachePersistence.Cache) :
  DomainCachePersistence.load_into_tracker (DomainCachePersistence.update_cache domain
      company_name cache) =
  DomainFrequencyTracker.record_domain company_name domain
      (DomainCachePersistence.load_into_tracker cache).
Proof.
  unfold DomainCachePersistence.load_into_tracker, DomainCachePersistence.update_cache,
      DomainFrequencyTracker.record_domain.
  cbn [DomainCachePersistence.domain_counts DomainCachePersistence.company_domains
      DomainCachePersistence.total_searches
       DomainFrequencyTracker.domain_counts DomainFrequencyTracker.company_domains
           DomainFrequencyTracker.total_searches].
  f_equal.
  - apply (dict_set_update 0%Z (fun c => (c + 1)%Z)).
  - change (fun '(domain0, companies) => (domain0, list_to_set companies))
      with to_set.
    unfold mem. case_bool_decide as Hin.
    + symmetry.
      destruct (dict_get (DomainCachePersistence.company_domains cache) domain) as [known|]
          eqn:E;
        [|by apply elem_of_nil in Hin].
      apply (dict_update_fixed _ _ _ (list_to_set known)).
      * by rewrite dict_get_map, E.
      * apply set_eq. intros x.
        rewrite elem_of_union, elem_of_singleton, elem_of_list_to_set.
        split; [intros [? | ->]; done | by left].
    + rewrite (dict_set_update [] (fun l => l ++ [company_name])).
      apply dict_update_map. intros l. apply list_to_set_snoc_L.
Qed.

End Persistence.

Section PersistenceReplay.

Variable urlparse_netloc : string -> option string.

Lemma replay_loop company rs : forall cache,
  Forall (parses urlparse_netloc) rs ->
  DomainCachePersistence.load_into_tracker
    (foldl (fun cache domain => DomainCachePersistence.update_cache domain company cache) cache
           (DomainFrequencyTracker.call_domains urlparse_netloc rs)) =
  fst (DomainFrequencyTracker.track_loop urlparse_netloc company rs
      (DomainCachePersistence.load_into_tracker cache)).
Proof.
  induction rs as [|r rs IH]; intros cache Hall; [done|].
  apply Forall_cons in Hall as [Hr Hall].
  destruct (_extract_domain_parses urlparse_netloc r Hr) as [d Hd].
  unfold DomainFrequencyTracker.call_domains. simpl. rewrite Hd. simpl.
  fold (DomainFrequencyTracker.call_domains urlparse_netloc rs).
  rewrite IH by done. by rewrite load_update_cache.
Qed.

End PersistenceReplay.

Ltac z_to_q :=
  repeat match goal with
  | H : (?a < ?b)%Z |- _ => rewrite (Zlt_Qlt a b) in H
  | H : (?a <= ?b)%Z |- _ => rewrite (Zle_Qle a b) in H
  end;
  change (inject_Z 0) with 0 in *; change (inject_Z 1) with 1 in *;
  change (inject_Z 2) with 2 in *; change (inject_Z 5) with 5 in *;
  change (inject_Z 10) with 10 in *; change (inject_Z 14) with 14 in *.

Ltac position_cases :=
  repeat match goal with
  | |- context [(?a <=? ?b)%Z] =>
      let H := fresh "Hz" in destruct (Z.leb_spec a b) as [H | H]
  | |- context [(?a =? ?b)%Z] =>
      let H := fresh "Hz" in destruct (Z.eqb_spec a b) as [H | H]
  end; try lia.

Lemma position_score_order r r' :
  (1 <= position r <= position r')%Z ->
  ConfidenceScorer._calculate_position_score r'
    <= ConfidenceScorer._calculate_position_score r.
Proof.
  intros [H1 Hle]. unfold ConfidenceScorer._calculate_position_score.
  generalize dependent (position r'). generalize dependent (position r).
  intros p H1 p' Hle.
  position_cases; z_to_q; unfold max; qcases; lra.
Qed.

Section DomainMatchFacts.

Lemma edit_distance_check_high cn dc mr :
  0.75 < mr -> ConfidenceScorer.edit_distance_check cn dc mr = Ok mr.
Proof.
  intros H. unfold ConfidenceScorer.edit_distance_check.
  assert (Qle_bool mr 0.75 = false) as -> by (apply Qle_bool_false; lra).
  by rewrite andb_false_r.
Qed.

Lemma domain_match_chain_empty ws cn dc mr :
  unit_interval mr ->
  cn = EmptyString \/ dc = EmptyString ->
  exists q,
    (mr1 ← ConfidenceScorer.fuzzy_containment ws cn dc mr;
     mr2 ← ConfidenceScorer.prefix_matching cn dc mr1;
     mr5 ← ConfidenceScorer.initialism_matching ws cn dc
             (ConfidenceScorer.acronym_matching cn dc (ConfidenceScorer.hyphen_normalization
                 cn dc mr2));
     ConfidenceScorer.edit_distance_check cn dc mr5) = Ok q /\ 0.95 <= q <= 1.
Proof.
  intros Hmr He. unfold mbind, res_bind.
  destruct (fuzzy_containment_ok ws cn dc mr Hmr) as (mr1 & -> & H1 & _).
  destruct (prefix_matching_ok cn dc mr1 H1) as (mr2 & -> & H2 & _).
  destruct (hyphen_normalization_ok cn dc mr2 H2) as (H3 & _ & H3e).
  specialize (H3e He).
  destruct (acronym_matching_ok cn dc _ H3) as (H4 & H4m).
  destruct (initialism_matching_ok ws cn dc _ H4) as (mr5 & -> & H5 & H5m).
  unfold unit_interval in *.
  rewrite edit_distance_check_high by lra.
  exists mr5. split; [done | lra].
Qed.

End DomainMatchFacts.

Ltac qcases_all :=
  repeat match goal with
  | |- context [Qltb ?a ?b] =>
      let H := fresh "Hq" in
      destruct (Qltb a b) eqn:H;
      [apply Qltb_true in H | apply Qltb_false in H]
  | H0 : context [Qltb ?a ?b] |- _ =>
      let H := fresh "Hq" in
      destruct (Qltb a b) eqn:H;
      [apply Qltb_true in H | apply Qltb_false in H]
  end.

Section Rounding.

Lemma round_half_even_between q (m n : Z) :
  inject_Z m <= q <= inject_Z n -> (m <= round_half_even q <= n)%Z.
Proof.
  intros [Hm Hn]. unfold round_half_even.
  pose proof (Qfloor_le q) as Hfl.
  pose proof (Qlt_floor q) as Hlt.
  assert (Hfm : (m <= Qfloor q)%Z).
  { rewrite <- (Qfloor_Z m). by apply Qfloor_resp_le. }
  assert (Hfn : (Qfloor q <= n)%Z).
  { rewrite <- (Qfloor_Z n). by apply Qfloor_resp_le. }
  assert (Hup : inject_Z (Qfloor q) < q -> (Qfloor q + 1 <= n)%Z).
  { intros Hgt. assert (Hq : inject_Z (Qfloor q) < inject_Z n) by lra.
    rewrite <- Zlt_Qlt in Hq. lia. }
  qcases; try lia.
  all: destruct (Z.even (Qfloor q)); try lia.
  all: split; [lia|]; apply Hup; lra.
Qed.

Lemma round1_between x (m n : Z) :
  inject_Z m <= x * 10 <= inject_Z n ->
  inject_Z m / 10 <= round x 1 <= inject_Z n / 10.
Proof.
  intros Hx. unfold round.
  change (inject_Z (10 ^ Z.of_nat 1)) with 10.
  destruct (round_half_even_between (x * 10) m n Hx) as [Hlo Hhi].
  rewrite (Zle_Qle m) in Hlo. rewrite (Zle_Qle _ n) in Hhi.
  assert (H10 : 0 <= / 10) by (apply Qinv_le_0_compat; lra).
  unfold Qdiv. split; by apply Qmult_le_compat_r.
Qed.

End Rounding.

Section AnalyzerFacts.

Variable urlparse : string -> option ParseResult.

Lemma _analyze_domain_bounds company_name domain :
  0 <= URLQualityAnalyzer._analyze_domain company_name domain <= 100.
Proof. unfold URLQualityAnalyzer._analyze_domain. cbv zeta. unfold max, min. qcases; lra. Qed.

Lemma _analyze_path_bounds path : 70 <= URLQualityAnalyzer._analyze_path path <= 100.
Proof.
  unfold URLQualityAnalyzer._analyze_path. cbv zeta.
  destruct (existsb _ URLQualityAnalyzer._aggregator_paths);
    destruct (existsb _ URLQualityAnalyzer._genuine_paths); unfold max, min; qcases_all; lra.
Qed.

Lemma _analyze_parameters_bounds query : 60 <= URLQualityAnalyzer._analyze_parameters query
    <= 100.
Proof.
  unfold URLQualityAnalyzer._analyze_parameters. cbv zeta.
  destruct (is_empty query); [lra|].
  destruct (existsb _ _); unfold max, min; qcases_all; lra.
Qed.

Lemma _analyze_tld_bounds domain : 70 <= URLQualityAnalyzer._analyze_tld domain <= 100.
Proof.
  unfold URLQualityAnalyzer._analyze_tld. cbv zeta.
  destruct (mem _ _); [lra|]. destruct (_ <=? _)%Z; lra.
Qed.

Lemma calculate_url_quality_lower (name name' u : string) :
  lower name = lower name' ->
  URLQualityAnalyzer.calculate_url_quality urlparse name u =
      URLQualityAnalyzer.calculate_url_quality urlparse name' u.
Proof.
  intros H. unfold URLQualityAnalyzer.calculate_url_quality,
      URLQualityAnalyzer._analyze_domain. by rewrite H.
Qed.

End AnalyzerFacts.

Section DomainAnalysis.

Lemma Qltb_compat a a' b b' : a == a' -> b == b' -> Qltb a b = Qltb a' b'.
Proof.
  intros Ha Hb. destruct (Qltb a' b') eqn:E.
  - apply Qltb_true in E. apply Qltb_true. lra.
  - apply Qltb_false in E. apply Qltb_false. lra.
Qed.

Lemma max_compat a a' b b' : a == a' -> b == b' -> max a b == max a' b'.
Proof. intros Ha Hb. unfold max. rewrite (Qltb_compat a a' b b') by done. by destruct (Qltb
    a' b'). Qed.

Lemma min_compat a a' b b' : a == a' -> b == b' -> min a b == min a' b'.
Proof. intros Ha Hb. unfold min. rewrite (Qltb_compat b b' a a') by done. by destruct (Qltb
    b' a'). Qed.

Lemma hits_filter (p : string -> bool) (l : list string) :
  length (filter (fun keyword => p keyword) l) = hits p l.
Proof. reflexivity. Qed.

Lemma hits_cons p x l : hits p (x :: l) = (Nat.b2n (p x) + hits p l)%nat.
Proof.
  unfold hits. rewrite filter_cons. by destruct (p x).
Qed.

Lemma foldl_penalty (p : string -> bool) (l : list string) : forall score,
  foldl (fun score keyword => if p keyword then score - 20.0 else score) score l
  == score - 20 * inject_Z (Z.of_nat (hits p l)).
Proof.
  induction l as [|k l IH]; intros score.
  - unfold hits. simpl. ring.
  - simpl foldl. rewrite IH, hits_cons. destruct (p k); simpl Nat.b2n.
    + rewrite Nat2Z.inj_succ, <- Z.add_1_r, inject_Z_plus. simpl Nat.add.
      change (inject_Z 1) with 1. ring.
    + reflexivity.
Qed.

Lemma hits_keywords (p : string -> bool) :
  p "check" = false -> p "search" = false -> p "directory" = false ->
  hits p URLQualityAnalyzer._aggregator_keywords = hits p (remove_dups
      URLQualityAnalyzer._aggregator_keywords).
Proof.
  intros H1 H2 H3.
  assert (E : remove_dups URLQualityAnalyzer._aggregator_keywords =
    ["company"; "business"; "data"; "info"; "profile"; "register"; "database";
     "browse"; "insight"; "report"; "detail"; "find"; "check"; "verify"; "search";
     "lookup"; "directory"]) by reflexivity.
  rewrite E. unfold URLQualityAnalyzer._aggregator_keywords.
  rewrite !hits_cons, H1, H2, H3. simpl Nat.b2n. lia.
Qed.

End DomainAnalysis.

Section RoundMonotone.

Lemma round_half_even_monotone q q' :
  q <= q' -> (round_half_even q <= round_half_even q')%Z.
Proof.
  intros Hle.
  pose proof (Qfloor_resp_le q q' Hle) as Hf.
  pose proof (Qfloor_le q) as H1. pose proof (Qlt_floor q) as H2.
  pose proof (Qfloor_le q') as H1'. pose proof (Qlt_floor q') as H2'.
  assert (Hbase : (Qfloor q <= round_half_even q <= Qfloor q + 1)%Z).
  { unfold round_half_even. qcases; try lia. destruct (Z.even _); lia. }
  assert (Hbase' : (Qfloor q' <= round_half_even q' <= Qfloor q' + 1)%Z).
  { unfold round_half_even. qcases; try lia. destruct (Z.even _); lia. }
  destruct (Z_lt_le_dec (Qfloor q) (Qfloor q')) as [Hlt | Hge]; [lia|].
  assert (E : Qfloor q' = Qfloor q) by lia.
  unfold round_half_even. rewrite E in *.
  qcases; try lia; try lra.
  all: destruct (Z.even (Qfloor q)); lia.
Qed.

Lemma round_monotone x y n : x <= y -> round x n <= round y n.
Proof.
  intros Hxy. unfold round.
  set (scale := inject_Z (10 ^ Z.of_nat n)).
  assert (Hs : 0 < scale).
  { apply inject_Z_pos. apply Z.pow_pos_nonneg; lia. }
  assert (Hm : (round_half_even (x * scale) <= round_half_even (y * scale))%Z).
  { apply round_half_even_monotone. nra. }
  rewrite Zle_Qle in Hm.
  assert (Hinv : 0 <= / scale) by (apply Qinv_le_0_compat; lra).
  unfold Qdiv. by apply Qmult_le_compat_r.
Qed.

End RoundMonotone.

Section TitleFacts.

Lemma contains_refl s : contains s s = true.
Proof.
  assert (H : startswith s s = true).
  { induction s as [|c s IH]; simpl; [done|]. by rewrite Ascii.eqb_refl. }
  destruct s; simpl in *; [done|]. by rewrite H.
Qed.

End TitleFacts.

(** * The further properties *)

(** ** Static blocklist filter *)

(** X1.  Filtering is idempotent: [filter_results] returns a list that
    the same filter returns unchanged, whatever the stored entries. *)
Theorem blocklist_filter_idempotent
    (urlparse_netloc : string -> option string)
    (stored : list string) (results : list SearchResult) :
  exists out,
    BlocklistFilter.filter_results urlparse_netloc stored results = Ok out /\
    BlocklistFilter.filter_results urlparse_netloc stored out = Ok out.
Proof.
  destruct (filter_results_as_filter urlparse_netloc stored) as [keep Hk].
  exists (List.filter keep results). split; [apply Hk|].
  by rewrite Hk, filter_filter_same.
Qed.

(** X2.  A blocklist of blank entries only (empty, or white space) is
    stored as the empty blocklist, and its filter returns every list of
    candidates unchanged. *)
Theorem blocklist_filter_blank
    (urlparse_netloc : string -> option string)
    (blocklist : list string) (results : list SearchResult) :
  Forall (fun entry => strip entry = EmptyString) blocklist ->
  BlocklistFilter.__init__ blocklist = [] /\
  BlocklistFilter.filter_results urlparse_netloc (BlocklistFilter.__init__ blocklist)
    results = Ok results.
Proof.
  intros Hb.
  assert (E : BlocklistFilter.__init__ blocklist = []).
  { unfold BlocklistFilter.__init__.
    induction Hb as [|e bl He Hb IH]; [done|].
    rewrite filter_cons, He. simpl. apply IH. }
  split; [done|]. rewrite E.
  induction results as [|r rs IH]; simpl; [done|].
  rewrite IH. unfold BlocklistFilter._is_blocked, netloc_of.
  destruct (is_empty (url r)); [done|].
  by destruct (urlparse_netloc (url r)).
Qed.

Lemma blocklist_filter_blank_witness :
  Forall (fun entry => strip entry = EmptyString) ["  "; ""] /\
  BlocklistFilter.__init__ ["  "; ""] = [] /\
  BlocklistFilter.filter_results urlsplit_netloc (BlocklistFilter.__init__ ["  "; ""])
    [acme_site; unparseable] = Ok [acme_site; unparseable].
Proof.
  assert (H : Forall (fun entry => strip entry = EmptyString) ["  "; ""]).
  { apply Forall_cons. split; [reflexivity|].
    apply Forall_cons. split; [reflexivity|]. apply Forall_nil_2. }
  split; [exact H|].
  exact (blocklist_filter_blank urlsplit_netloc ["  "; ""] [acme_site; unparseable] H).
Defined.

(** X3.  Filtering with the blocklist [bl1 ++ bl2] is filtering with
    [bl1] and then filtering what is left with [bl2]. *)
Theorem blocklist_filter_concat
    (urlparse_netloc : string -> option string)
    (bl1 bl2 : list string) (results : list SearchResult) :
  exists out1,
    BlocklistFilter.filter_results urlparse_netloc (BlocklistFilter.__init__ bl1) results
      = Ok out1 /\
    BlocklistFilter.filter_results urlparse_netloc
      (BlocklistFilter.__init__ (bl1 ++ bl2)) results =
    BlocklistFilter.filter_results urlparse_netloc (BlocklistFilter.__init__ bl2) out1.
Proof.
  rewrite init_app.
  pose proof (init_nonempty bl1) as H1. pose proof (init_nonempty bl2) as H2.
  assert (H12 : Forall (fun e => e <> EmptyString)
                  (BlocklistFilter.__init__ bl1 ++ BlocklistFilter.__init__ bl2))
    by by apply Forall_app.
  rewrite !filter_results_filter by done.
  eexists. split; [reflexivity|].
  rewrite filter_results_filter by done. f_equal.
  induction results as [|r rs IH]; simpl; [done|].
  rewrite existsb_app.
  destruct (existsb _ (BlocklistFilter.__init__ bl1)); simpl; [done|].
  destruct (existsb _ (BlocklistFilter.__init__ bl2)); simpl; by rewrite IH.
Qed.

(** X4.  [update_blocklist] normalizes as the constructor does, and
    normalizing is idempotent: replacing the blocklist by the stored
    entries of a filter stores the same entries again. *)
Theorem update_blocklist_stored (blocklist : list string) :
  BlocklistFilter.update_blocklist (BlocklistFilter.__init__ blocklist) =
  BlocklistFilter.__init__ blocklist.
Proof.
  unfold BlocklistFilter.update_blocklist.
  pose proof (fun e => proj1 (init_elem_of blocklist e)) as Hin.
  induction (BlocklistFilter.__init__ blocklist) as [|e l IH]; [done|].
  destruct (Hin e) as (raw & _ & Hne & ->); [left|].
  unfold Spec.entry_of in *.
  assert (Hs : strip (lower (strip raw)) = lower (strip raw)).
  { by rewrite strip_lower, strip_idemp. }
  rewrite filter_cons, Hs.
  destruct (is_empty (lower (strip raw))) eqn:E; [by apply is_empty_true in E|].
  simpl. rewrite lower_idemp, Hs. f_equal.
  apply IH. intros e' He'. apply Hin. by right.
Qed.

(** X30.  Matching does not depend on case: blocklists that agree up
    to case build the same filter, and URLs whose netlocs agree up to
    case are treated alike; an empty URL or a URL the parser rejects is
    never blocked.  With the entry BLOCKED.CO.UK or blocked.co.uk
    alike, blocked.co.uk, BLOCKED.CO.UK and api.blocked.co.uk are
    dropped and notblocked.co.uk is kept; with the entry
    companycheck.co.uk, www.companycheck.co.uk and companycheck.co.uk
    are dropped and other.com is kept. *)
Theorem blocklist_filter_case_insensitive
    (urlparse_netloc : string -> option string) (blocklist : list string) :
  (forall blocklist',
     map lower blocklist' = map lower blocklist ->
     BlocklistFilter.__init__ blocklist' = BlocklistFilter.__init__ blocklist) /\
  (forall u u',
     u <> EmptyString -> u' <> EmptyString ->
     lower <$> urlparse_netloc u = lower <$> urlparse_netloc u' ->
     BlocklistFilter._is_blocked urlparse_netloc (BlocklistFilter.__init__ blocklist) u =
     BlocklistFilter._is_blocked urlparse_netloc (BlocklistFilter.__init__ blocklist) u') /\
  (forall u,
     u = EmptyString \/ urlparse_netloc u = None ->
     BlocklistFilter._is_blocked urlparse_netloc (BlocklistFilter.__init__ blocklist) u
       = Ok false) /\
  BlocklistFilter.filter_results urlsplit_netloc
    (BlocklistFilter.__init__ ["BLOCKED.CO.UK"])
    [page "https://blocked.co.uk"; page "https://BLOCKED.CO.UK/x";
     page "https://api.blocked.co.uk"; page "https://notblocked.co.uk"]
    = Ok [page "https://notblocked.co.uk"] /\
  BlocklistFilter.filter_results urlsplit_netloc
    (BlocklistFilter.__init__ ["blocked.co.uk"])
    [page "https://blocked.co.uk"; page "https://BLOCKED.CO.UK/x";
     page "https://api.blocked.co.uk"; page "https://notblocked.co.uk"]
    = Ok [page "https://notblocked.co.uk"] /\
  BlocklistFilter.filter_results urlsplit_netloc
    (BlocklistFilter.__init__ ["companycheck.co.uk"])
    [page "https://www.companycheck.co.uk/x"; page "https://companycheck.co.uk";
     page "https://other.com"]
    = Ok [page "https://other.com"].
Proof.
  split; [|split; [|split; [|split; [|split]; reflexivity]]].
  - intros bl' H. by rewrite <- (init_lower bl'), H, init_lower.
  - intros u u' Hu%is_empty_false Hu'%is_empty_false H.
    unfold BlocklistFilter._is_blocked, netloc_of. rewrite Hu, Hu'.
    destruct (urlparse_netloc u) as [n|], (urlparse_netloc u') as [n'|];
      simpl in *; try done.
    by injection H as ->.
  - intros u [-> | H]; [done|].
    unfold BlocklistFilter._is_blocked, netloc_of. rewrite H. by destruct (is_empty u).
Qed.

Lemma blocklist_filter_case_insensitive_witness :
  BlocklistFilter.__init__ ["CompanyCheck.co.uk"]
    = BlocklistFilter.__init__ ["companycheck.co.uk"] /\
  BlocklistFilter._is_blocked urlsplit_netloc
    (BlocklistFilter.__init__ ["companycheck.co.uk"]) "http://[bad" = Ok false.
Proof.
  destruct (blocklist_filter_case_insensitive urlsplit_netloc ["companycheck.co.uk"])
    as (Hcase & _ & Hfail & _).
  split.
  - apply Hcase. reflexivity.
  - apply Hfail. right. reflexivity.
Defined.

(** ** Domain frequency tracker *)

Lemma two_searches_reachable :
  DomainFrequencyTracker.reachable urlsplit_netloc two_searches.
Proof.
  apply DomainFrequencyTracker.reachable_track.
  apply DomainFrequencyTracker.reachable_track.
  apply DomainFrequencyTracker.reachable_init.
Defined.

(** X5.  In every state a tracker goes through, the dictionary of
    counts and the dictionary of companies hold the same domains; every
    recorded count is at least 1; every recorded set of companies is
    non-empty and has at most as many companies as the domain has
    occurrences. *)
Theorem tracker_dictionaries_aligned
    (urlparse_netloc : string -> option string)
    (t : DomainFrequencyTracker.Tracker) :
  DomainFrequencyTracker.reachable urlparse_netloc t -> well_formed t.
Proof. apply reachable_well_formed. Qed.

Lemma tracker_dictionaries_aligned_witness :
  DomainFrequencyTracker.reachable urlsplit_netloc two_searches /\
  well_formed two_searches.
Proof.
  split; [exact two_searches_reachable|].
  exact (tracker_dictionaries_aligned urlsplit_netloc two_searches
           two_searches_reachable).
Defined.

(** X6.  In every state a tracker goes through, the number of searches
    is not negative, both dictionaries are empty as long as it is 0,
    and no domain is associated with more companies than there were
    searches (although its count may exceed the number of searches). *)
Theorem tracker_companies_bounded
    (urlparse_netloc : string -> option string)
    (t : DomainFrequencyTracker.Tracker) :
  DomainFrequencyTracker.reachable urlparse_netloc t -> companies_bounded t.
Proof. apply reachable_companies_bounded. Qed.

Lemma tracker_companies_bounded_witness :
  DomainFrequencyTracker.reachable urlsplit_netloc two_searches /\
  companies_bounded two_searches.
Proof.
  split; [exact two_searches_reachable|].
  exact (tracker_companies_bounded urlsplit_netloc two_searches two_searches_reachable).
Defined.

(** X7.  In every state a tracker goes through, and for a positive
    [min_occurrences], the private test [_is_aggregator] holds of
    exactly the domains [identify_aggregators] returns. *)
Theorem is_aggregator_agrees
    (urlparse_netloc : string -> option string)
    (t : DomainFrequencyTracker.Tracker) (threshold : Q) (min_occurrences : Z) :
  DomainFrequencyTracker.reachable urlparse_netloc t ->
  (0 < min_occurrences)%Z ->
  exists aggregators,
    DomainFrequencyTracker.identify_aggregators t threshold min_occurrences
      = Ok aggregators /\
    forall d, d ∈ aggregators <->
              DomainFrequencyTracker._is_aggregator t d threshold min_occurrences = true.
Proof. apply is_aggregator_spec. Qed.

Lemma is_aggregator_agrees_witness :
  DomainFrequencyTracker.reachable urlsplit_netloc two_searches /\
  exists aggregators,
    DomainFrequencyTracker.identify_aggregators two_searches 0.3 1 = Ok aggregators /\
    forall d, d ∈ aggregators <->
              DomainFrequencyTracker._is_aggregator two_searches d 0.3 1 = true.
Proof.
  split; [exact two_searches_reachable|].
  apply (is_aggregator_agrees urlsplit_netloc two_searches 0.3 1
           two_searches_reachable).
  reflexivity.
Defined.

(** X8.  Raising the threshold or the minimum number of occurrences
    never adds a domain: the aggregators under the stricter pair are
    among those under the looser pair, in every state. *)
Theorem identify_aggregators_monotone (t : DomainFrequencyTracker.Tracker)
    (threshold threshold' : Q) (min_occurrences min_occurrences' : Z) :
  threshold <= threshold' ->
  (min_occurrences <= min_occurrences')%Z ->
  exists strict loose,
    DomainFrequencyTracker.identify_aggregators t threshold' min_occurrences'
      = Ok strict /\
    DomainFrequencyTracker.identify_aggregators t threshold min_occurrences
      = Ok loose /\
    strict ⊆ loose.
Proof.
  intros Ht Hm.
  destruct (identify_aggregators_spec t threshold' min_occurrences') as (s' & Hs' & Hc').
  destruct (identify_aggregators_spec t threshold min_occurrences) as (s & Hs & Hc).
  exists s', s. split; [done|]. split; [done|].
  intros d. rewrite Hc', Hc. intros (Hne & c & Hin & Hmc & Hf).
  split; [done|]. exists c. split; [done|]. split; [lia | lra].
Qed.

Lemma identify_aggregators_monotone_witness :
  exists strict loose,
    DomainFrequencyTracker.identify_aggregators two_searches 0.5 2 = Ok strict /\
    DomainFrequencyTracker.identify_aggregators two_searches 0.3 1 = Ok loose /\
    strict ⊆ loose.
Proof.
  apply (identify_aggregators_monotone two_searches 0.3 0.5 1 2).
  - discriminate.
  - discriminate.
Defined.

(** X9.  A call of [track_search_results] is not atomic.  When the URL
    of a result is rejected by the parser and the URLs before it parse,
    the call raises [ValueError] after it has counted the search and
    the results before the rejected one: the state left behind is the
    state after tracking those results alone, and the results after the
    rejected one are not counted. *)
Theorem track_search_results_partial
    (urlparse_netloc : string -> option string)
    (company_name : string) (before after : list SearchResult)
    (bad : SearchResult) (t : DomainFrequencyTracker.Tracker) :
  Forall (parses urlparse_netloc) before ->
  urlparse_netloc (url bad) = None ->
  DomainFrequencyTracker.track_search_results urlparse_netloc company_name
    (before ++ bad :: after) t =
  (fst (DomainFrequencyTracker.track_search_results urlparse_netloc company_name
          before t),
   Raise ValueError).
Proof.
  intros Hall Hbad. unfold DomainFrequencyTracker.track_search_results.
  rewrite track_loop_app by done. simpl.
  pose proof (_extract_domain_cases urlparse_netloc (url bad)) as Hc.
  rewrite Hbad in Hc. by rewrite Hc.
Qed.

Lemma track_search_results_partial_witness :
  Forall (parses urlsplit_netloc) [page "https://a.com/1"] /\
  urlsplit_netloc (url unparseable) = None /\
  DomainFrequencyTracker.track_search_results urlsplit_netloc "A"
    ([page "https://a.com/1"] ++ unparseable :: [page "https://b.com"])
    DomainFrequencyTracker.__init__ =
  (single, Raise ValueError).
Proof.
  assert (H : Forall (parses urlsplit_netloc) [page "https://a.com/1"]).
  { apply Forall_cons. split; [discriminate | apply Forall_nil_2]. }
  split; [exact H|]. split; [reflexivity|].
  exact (track_search_results_partial urlsplit_netloc "A" [page "https://a.com/1"]
           [page "https://b.com"] unparseable DomainFrequencyTracker.__init__
           H eq_refl).
Defined.

(** X10.  For a domain the tracker has not counted, [get_domain_stats]
    reports a count of 0, a frequency of 0, no company, and that the
    domain is not an aggregator, in every state a tracker goes
    through. *)
Theorem get_domain_stats_untracked
    (urlparse_netloc : string -> option string)
    (t : DomainFrequencyTracker.Tracker) (d : string) :
  DomainFrequencyTracker.reachable urlparse_netloc t ->
  dict_get (DomainFrequencyTracker.domain_counts t) d = None ->
  DomainFrequencyTracker.stats_count (DomainFrequencyTracker.get_domain_stats t d)
    = 0%Z /\
  DomainFrequencyTracker.stats_frequency (DomainFrequencyTracker.get_domain_stats t d)
    == 0 /\
  DomainFrequencyTracker.stats_companies (DomainFrequencyTracker.get_domain_stats t d)
    = ∅ /\
  DomainFrequencyTracker.stats_is_aggregator
    (DomainFrequencyTracker.get_domain_stats t d) = false.
Proof.
  intros Hr Hd.
  destruct (reachable_well_formed _ _ Hr) as (_ & Hkeys & _ & _).
  unfold DomainFrequencyTracker.get_domain_stats, DomainFrequencyTracker._is_aggregator,
    DomainFrequencyTracker.count_of, DomainFrequencyTracker.frequency.
  cbn [DomainFrequencyTracker.stats_count DomainFrequencyTracker.stats_frequency
       DomainFrequencyTracker.stats_companies
       DomainFrequencyTracker.stats_is_aggregator].
  rewrite Hd. cbn [from_option].
  assert (dict_get (DomainFrequencyTracker.company_domains t) d = None) as ->.
  { apply dict_get_None. rewrite Hkeys. by apply dict_get_None. }
  split; [done|]. split; [|done].
  destruct (0 <? DomainFrequencyTracker.total_searches t)%Z; [|reflexivity].
  unfold Qdiv. rewrite Qmult_0_l. reflexivity.
Qed.

Lemma get_domain_stats_untracked_witness :
  DomainFrequencyTracker.reachable urlsplit_netloc two_searches /\
  dict_get (DomainFrequencyTracker.domain_counts two_searches) "c.com" = None /\
  DomainFrequencyTracker.stats_count
    (DomainFrequencyTracker.get_domain_stats two_searches "c.com") = 0%Z /\
  DomainFrequencyTracker.stats_frequency
    (DomainFrequencyTracker.get_domain_stats two_searches "c.com") == 0 /\
  DomainFrequencyTracker.stats_companies
    (DomainFrequencyTracker.get_domain_stats two_searches "c.com") = ∅ /\
  DomainFrequencyTracker.stats_is_aggregator
    (DomainFrequencyTracker.get_domain_stats two_searches "c.com") = false.
Proof.
  split; [exact two_searches_reachable|]. split; [reflexivity|].
  exact (get_domain_stats_untracked urlsplit_netloc two_searches "c.com"
           two_searches_reachable eq_refl).
Defined.

(** X11.  [get_summary] returns in every state, without a division
    error: the number of identified aggregators is the size of the set
    of aggregator domains and is at most the number of unique domains,
    and the average number of domains per search is 0 when no search
    was counted. *)
Theorem get_summary_counts (t : DomainFrequencyTracker.Tracker) :
  exists summary,
    DomainFrequencyTracker.get_summary t = Ok summary /\
    (0 <= DomainFrequencyTracker.identified_aggregators summary
       <= DomainFrequencyTracker.unique_domains summary)%Z /\
    DomainFrequencyTracker.identified_aggregators summary
      = Z.of_nat (size (DomainFrequencyTracker.aggregator_domains summary)) /\
    ((DomainFrequencyTracker.total_searches t <= 0)%Z ->
       DomainFrequencyTracker.average_domains_per_search summary = 0).
Proof.
  unfold DomainFrequencyTracker.get_summary.
  destruct (identify_aggregators_spec t DomainFrequencyTracker.default_threshold
              DomainFrequencyTracker.default_min_occurrences)
    as (s & Hs & _).
  rewrite Hs. unfold mbind, res_bind.
  assert (Hsize : (size s <= length (DomainFrequencyTracker.domain_counts t))%nat).
  { revert Hs. unfold DomainFrequencyTracker.identify_aggregators.
    destruct (DomainFrequencyTracker.total_searches t =? 0)%Z.
    - intros [= <-]. rewrite size_empty. lia.
    - intros H%aggregators_of_size. rewrite size_empty in H. lia. }
  destruct (0 <? DomainFrequencyTracker.total_searches t)%Z eqn:Hpos.
  - apply Z.ltb_lt in Hpos. rewrite div_ok by (apply inject_Z_nonzero; lia).
    eexists. split; [reflexivity|]. simpl. split; [lia|]. split; [done|]. lia.
  - eexists. split; [reflexivity|]. simpl. split; [lia|]. done.
Qed.

Lemma get_summary_counts_witness :
  exists summary,
    DomainFrequencyTracker.get_summary DomainFrequencyTracker.__init__ = Ok summary /\
    DomainFrequencyTracker.average_domains_per_search summary = 0.
Proof.
  destruct (get_summary_counts DomainFrequencyTracker.__init__)
    as (summary & Hs & _ & _ & Havg).
  exists summary. split; [exact Hs|]. apply Havg. discriminate.
Defined.

(** X12.  [get_suspected_aggregators] divides by the number of searches
    without the guard [identify_aggregators] has: in a state with no
    search counted and a counted domain outside the static blocklist
    (a state [load_into_tracker] can build), it raises
    [ZeroDivisionError]. *)
Theorem get_suspected_aggregators_zero_total
    (static_blocklist : list string) (t : DomainFrequencyTracker.Tracker)
    (min_suspicion : Q) :
  DomainFrequencyTracker.total_searches t = 0%Z ->
  (exists d c, (d, c) ∈ DomainFrequencyTracker.domain_counts t /\
               (d ∉ static_blocklist)) ->
  EnhancedBlocklistFilter.get_suspected_aggregators static_blocklist t min_suspicion
    = Raise ZeroDivisionError.
Proof.
  intros Ht Hex.
  unfold EnhancedBlocklistFilter.get_suspected_aggregators,
    DomainFrequencyTracker.identify_aggregators.
  rewrite Ht. simpl. unfold mbind, res_bind.
  by rewrite suspected_of_zero_total.
Qed.

Lemma get_suspected_aggregators_zero_total_witness :
  DomainFrequencyTracker.total_searches
    (DomainCachePersistence.load_into_tracker sighting_only) = 0%Z /\
  EnhancedBlocklistFilter.get_suspected_aggregators []
    (DomainCachePersistence.load_into_tracker sighting_only) 0.1
    = Raise ZeroDivisionError.
Proof.
  split; [reflexivity|].
  apply (get_suspected_aggregators_zero_total []
           (DomainCachePersistence.load_into_tracker sighting_only) 0.1).
  - reflexivity.
  - exists "a.com", 1%Z. split; [left | apply not_elem_of_nil].
Defined.

(** ** Combined filter *)

(** X13.  When the combined filter returns, the domain of every
    candidate it returns is outside the static blocklist and outside
    the set of aggregators of the state the call leaves behind, which
    already counts this search. *)
Theorem enhanced_filter_excludes
    (urlparse_netloc : string -> option string)
    (static_blocklist : list string) (results : list SearchResult)
    (company_name : string) (t t' : DomainFrequencyTracker.Tracker)
    (out : list SearchResult) :
  EnhancedBlocklistFilter.filter_results urlparse_netloc static_blocklist results
    company_name t = (t', Ok out) ->
  exists aggregators,
    DomainFrequencyTracker.identify_aggregators t'
      DomainFrequencyTracker.default_threshold
      DomainFrequencyTracker.default_min_occurrences = Ok aggregators /\
    forall r, r ∈ out ->
      exists d, DomainFrequencyTracker._extract_domain urlparse_netloc (url r) = Ok d /\
                (d ∉ static_blocklist) /\ (d ∉ aggregators).
Proof.
  intros H.
  destruct (EnhancedBlocklistFilter._apply_static_filter urlparse_netloc
              static_blocklist results) as [filtered|e] eqn:Hs.
  - destruct (filter_results_steps _ _ _ company_name t _ Hs)
      as (aggs & out' & Hid & Hdrop & Hres).
    rewrite Hres in H. injection H as <- <-.
    exists aggs. split; [done|]. intros r Hr.
    pose proof (drop_aggregators_out _ _ _ _ Hdrop) as Hd.
    pose proof (static_filter_out _ _ _ _ Hs) as Hst.
    rewrite Forall_forall in Hd, Hst.
    destruct (Hd r Hr) as (d & Hd1 & Hd2).
    assert (Hin : r ∈ filtered).
    { destruct (drop_aggregators_sublist urlparse_netloc aggs filtered)
        as (o & Ho & Hsub).
      - pose proof (static_filter_cases urlparse_netloc static_blocklist results) as Hc.
        rewrite Hs in Hc. destruct Hc as [Hsub Hall].
        rewrite Forall_forall in Hall |- *. intros r' Hr'. eauto using elem_of_sublist.
      - rewrite Hdrop in Ho. injection Ho as <-. eauto using elem_of_sublist. }
    destruct (Hst r Hin) as (d' & Hd1' & Hd2').
    rewrite Hd1 in Hd1'. injection Hd1' as <-. eauto.
  - unfold EnhancedBlocklistFilter.filter_results in H. by rewrite Hs in H.
Qed.

Lemma enhanced_filter_excludes_witness :
  EnhancedBlocklistFilter.filter_results urlsplit_netloc ["blocked.com"]
    [page "https://blocked.com/x"; page "https://a.com/1"] "A"
    DomainFrequencyTracker.__init__ = (single, Ok [page "https://a.com/1"]) /\
  exists aggregators,
    DomainFrequencyTracker.identify_aggregators single
      DomainFrequencyTracker.default_threshold
      DomainFrequencyTracker.default_min_occurrences = Ok aggregators /\
    forall r, r ∈ [page "https://a.com/1"] ->
      exists d, DomainFrequencyTracker._extract_domain urlsplit_netloc (url r) = Ok d /\
                (d ∉ ["blocked.com"]) /\ (d ∉ aggregators).
Proof.
  split; [reflexivity|].
  apply (enhanced_filter_excludes urlsplit_netloc ["blocked.com"]
           [page "https://blocked.com/x"; page "https://a.com/1"] "A"
           DomainFrequencyTracker.__init__ single [page "https://a.com/1"]).
  reflexivity.
Defined.

(** X14.  When the combined filter returns, it has counted one search
    and it has not changed the count of any domain of the static
    blocklist: candidates dropped by the static pass are not tracked.
    When it raises, it has left the tracker as it was. *)
Theorem enhanced_filter_tracks
    (urlparse_netloc : string -> option string)
    (static_blocklist : list string) (results : list SearchResult)
    (company_name : string) (t : DomainFrequencyTracker.Tracker) :
  match EnhancedBlocklistFilter.filter_results urlparse_netloc static_blocklist
          results company_name t with
  | (t', Ok _) =>
      DomainFrequencyTracker.total_searches t'
        = (DomainFrequencyTracker.total_searches t + 1)%Z /\
      forall d, d ∈ static_blocklist ->
                DomainFrequencyTracker.count_of t' d = DomainFrequencyTracker.count_of t d
  | (t', Raise _) => t' = t
  end.
Proof.
  destruct (EnhancedBlocklistFilter._apply_static_filter urlparse_netloc
              static_blocklist results) as [filtered|e] eqn:Hs.
  - destruct (filter_results_steps _ _ _ company_name t _ Hs)
      as (aggs & out & _ & _ & ->).
    unfold DomainFrequencyTracker.track_search_results. split.
    + by rewrite track_loop_total.
    + intros d Hd. rewrite track_loop_count_other; [done|].
      pose proof (static_filter_out _ _ _ _ Hs) as Hst.
      eapply Forall_impl; [exact Hst|].
      intros r (d' & -> & Hd') [= ->]. done.
  - unfold EnhancedBlocklistFilter.filter_results. by rewrite Hs.
Qed.

Lemma enhanced_filter_tracks_witness :
  fst (EnhancedBlocklistFilter.filter_results urlsplit_netloc ["blocked.com"]
         [page "https://a.com/1"; unparseable] "A" single) = single /\
  DomainFrequencyTracker.count_of
    (fst (EnhancedBlocklistFilter.filter_results urlsplit_netloc ["blocked.com"]
            [page "https://blocked.com/x"; page "https://a.com/1"] "A" single))
    "blocked.com"
  = DomainFrequencyTracker.count_of single "blocked.com".
Proof.
  split.
  - exact (enhanced_filter_tracks urlsplit_netloc ["blocked.com"]
             [page "https://a.com/1"; unparseable] "A" single).
  - refine (proj2 (enhanced_filter_tracks urlsplit_netloc ["blocked.com"]
                     [page "https://blocked.com/x"; page "https://a.com/1"] "A" single
                   : _ /\ forall d, d ∈ ["blocked.com"] -> _ = _)
                  "blocked.com" _).
    left.
Defined.

(** X15.  On a tracker that is fed through the combined filter,
    [get_suspected_aggregators] never raises: after any call of
    [filter_results] from a state a tracker goes through, it returns,
    and every entry it returns is for a domain outside the static
    blocklist that was seen at least once, has a positive frequency of
    at least [min_suspicion], and fails the confirmed-aggregator test
    [_is_aggregator]. *)
Theorem suspected_after_filtering
    (urlparse_netloc : string -> option string)
    (static_blocklist : list string) (results : list SearchResult)
    (company_name : string) (t : DomainFrequencyTracker.Tracker) (min_suspicion : Q) :
  DomainFrequencyTracker.reachable urlparse_netloc t ->
  exists suspected,
    EnhancedBlocklistFilter.get_suspected_aggregators static_blocklist
      (fst (EnhancedBlocklistFilter.filter_results urlparse_netloc static_blocklist
              results company_name t))
      min_suspicion = Ok suspected /\
    forall s, s ∈ suspected ->
      (EnhancedBlocklistFilter.domain s ∉ static_blocklist) /\
      (1 <= EnhancedBlocklistFilter.count s)%Z /\
      0 < EnhancedBlocklistFilter.frequency s /\
      min_suspicion <= EnhancedBlocklistFilter.frequency s /\
      DomainFrequencyTracker._is_aggregator
        (fst (EnhancedBlocklistFilter.filter_results urlparse_netloc static_blocklist
                results company_name t))
        (EnhancedBlocklistFilter.domain s)
        DomainFrequencyTracker.default_threshold
        DomainFrequencyTracker.default_min_occurrences = false.
Proof.
  intros Hr0.
  pose proof (filter_results_reachable urlparse_netloc static_blocklist results
                company_name t Hr0) as Hr.
  set (t' := fst (EnhancedBlocklistFilter.filter_results urlparse_netloc
                    static_blocklist results company_name t)) in *.
  destruct (reachable_well_formed _ _ Hr) as (Hnd & _ & Hcount & _).
  destruct (reachable_companies_bounded _ _ Hr) as (H0 & Hz & _).
  destruct (is_aggregator_spec urlparse_netloc t'
              DomainFrequencyTracker.default_threshold
              DomainFrequencyTracker.default_min_occurrences Hr)
    as (conf & Hconf & Hagg); [reflexivity|].
  unfold EnhancedBlocklistFilter.get_suspected_aggregators.
  rewrite Hconf. unfold mbind, res_bind.
  destruct (decide (DomainFrequencyTracker.total_searches t' = 0%Z)) as [Ht | Hne].
  - destruct (Hz Ht) as [-> _]. simpl. exists []. split; [done|].
    by intros s ?%elem_of_nil.
  - destruct (suspected_of_spec static_blocklist t' conf min_suspicion
                (DomainFrequencyTracker.domain_counts t') Hne) as (l & -> & Hl).
    eexists. split; [reflexivity|].
    intros s. rewrite sort_desc_perm, Hl.
    intros (d & c & Hin & Hst & Hnc & Hms & ->).
    unfold suspect_entry. cbn [EnhancedBlocklistFilter.domain
      EnhancedBlocklistFilter.count EnhancedBlocklistFilter.frequency].
    assert (Hc : (1 <= c)%Z) by (apply (Hcount d), elem_of_dict_get; done).
    split; [done|]. split; [done|]. split; [|split; [done|]].
    + apply Qlt_shift_div_l.
      * apply inject_Z_pos. lia.
      * rewrite Qmult_0_l. apply inject_Z_pos. lia.
    + destruct (DomainFrequencyTracker._is_aggregator t' d _ _) eqn:E; [|done].
      apply Hagg in E. done.
Qed.

Lemma suspected_after_filtering_witness :
  DomainFrequencyTracker.reachable urlsplit_netloc single /\
  exists suspected,
    EnhancedBlocklistFilter.get_suspected_aggregators ["blocked.com"]
      (fst (EnhancedBlocklistFilter.filter_results urlsplit_netloc ["blocked.com"]
              [page "https://blocked.com/x"; page "https://b.com"] "B" single))
      0.1 = Ok suspected /\
    forall s, s ∈ suspected ->
      (EnhancedBlocklistFilter.domain s ∉ ["blocked.com"]) /\
      (1 <= EnhancedBlocklistFilter.count s)%Z /\
      0 < EnhancedBlocklistFilter.frequency s /\
      0.1 <= EnhancedBlocklistFilter.frequency s /\
      DomainFrequencyTracker._is_aggregator
        (fst (EnhancedBlocklistFilter.filter_results urlsplit_netloc ["blocked.com"]
                [page "https://blocked.com/x"; page "https://b.com"] "B" single))
        (EnhancedBlocklistFilter.domain s)
        DomainFrequencyTracker.default_threshold
        DomainFrequencyTracker.default_min_occurrences = false.
Proof.
  assert (H : DomainFrequencyTracker.reachable urlsplit_netloc single).
  { apply DomainFrequencyTracker.reachable_track,
      DomainFrequencyTracker.reachable_init. }
  split; [exact H|].
  exact (suspected_after_filtering urlsplit_netloc ["blocked.com"]
           [page "https://blocked.com/x"; page "https://b.com"] "B" single 0.1 H).
Defined.

(** ** Persistence of the tracker *)

(** X16.  The cache mirrors the tracker.  Counting a search in the
    cache and then recording, in order, the domains of its results
    (all of whose URLs parse) gives a cache that loads into the state
    the tracker itself reaches by tracking that search from the state
    the old cache loads into. *)
Theorem cache_replay
    (urlparse_netloc : string -> option string)
    (company_name : string) (results : list SearchResult)
    (cache : DomainCachePersistence.Cache) :
  Forall (parses urlparse_netloc) results ->
  DomainCachePersistence.load_into_tracker
    (foldl (fun cache domain =>
              DomainCachePersistence.update_cache domain company_name cache)
           (DomainCachePersistence.increment_search_count cache)
           (DomainFrequencyTracker.call_domains urlparse_netloc results)) =
  fst (DomainFrequencyTracker.track_search_results urlparse_netloc company_name results
         (DomainCachePersistence.load_into_tracker cache)).
Proof. intros Hall. by rewrite replay_loop. Qed.

Lemma cache_replay_witness :
  Forall (parses urlsplit_netloc) [page "https://a.com/1"; page "https://a.com/2"] /\
  DomainCachePersistence.load_into_tracker
    (foldl (fun cache domain => DomainCachePersistence.update_cache domain "A" cache)
           (DomainCachePersistence.increment_search_count
              DomainCachePersistence.empty_cache)
           (DomainFrequencyTracker.call_domains urlsplit_netloc
              [page "https://a.com/1"; page "https://a.com/2"])) =
  fst (DomainFrequencyTracker.track_search_results urlsplit_netloc "A"
         [page "https://a.com/1"; page "https://a.com/2"]
         (DomainCachePersistence.load_into_tracker DomainCachePersistence.empty_cache)).
Proof.
  assert (H : Forall (parses urlsplit_netloc)
                [page "https://a.com/1"; page "https://a.com/2"]).
  { apply Forall_cons. split; [discriminate|].
    apply Forall_cons. split; [discriminate | apply Forall_nil_2]. }
  split; [exact H|].
  exact (cache_replay urlsplit_netloc "A"
           [page "https://a.com/1"; page "https://a.com/2"]
           DomainCachePersistence.empty_cache H).
Defined.

(** ** Confidence scorer *)

(** X17.  Normalization of the weights is idempotent: constructing a
    scorer from the weights another scorer has stored stores the same
    weights again, for every argument of the constructor. *)
Theorem init_idempotent (weights : option ConfidenceScorer.Weights) :
  weights_eq (ConfidenceScorer.__init__ (Some (ConfidenceScorer.__init__ weights)))
             (ConfidenceScorer.__init__ weights).
Proof.
  set (w := match weights with Some w => w | None => ConfidenceScorer.default_weights end).
  assert (Hinit : ConfidenceScorer.__init__ weights = ConfidenceScorer.__init__ (Some w))
    by by destruct weights.
  rewrite Hinit.
  destruct (Qlt_le_dec 0 (ConfidenceScorer.total_weight w)) as [Hpos | Hle].
  - pose proof (init_total w Hpos) as H1.
    remember (ConfidenceScorer.__init__ (Some w)) as w' eqn:Ew'.
    unfold ConfidenceScorer.__init__ at 1.
    assert (Qltb 0 (ConfidenceScorer.total_weight w') = true) as ->
      by (apply Qltb_true; lra).
    unfold weights_eq. simpl. rewrite H1.
    repeat split; field.
  - assert (ConfidenceScorer.__init__ (Some w) = w) as ->.
    { unfold ConfidenceScorer.__init__. by apply Qltb_false in Hle as ->. }
    unfold ConfidenceScorer.__init__. apply Qltb_false in Hle as ->.
    unfold weights_eq. repeat split; reflexivity.
Qed.

(** X18.  Only the proportions of the weights matter: multiplying
    every weight of a mapping of positive sum by the same positive
    factor leaves the stored weights unchanged. *)
Theorem init_scale_invariant (k : Q) (weights : ConfidenceScorer.Weights) :
  0 < k ->
  0 < ConfidenceScorer.total_weight weights ->
  weights_eq (ConfidenceScorer.__init__ (Some (scale_weights k weights)))
             (ConfidenceScorer.__init__ (Some weights)).
Proof.
  intros Hk Hpos.
  assert (Ht : ConfidenceScorer.total_weight (scale_weights k weights)
               == k * ConfidenceScorer.total_weight weights).
  { unfold ConfidenceScorer.total_weight, scale_weights. simpl. ring. }
  assert (Hpos' : 0 < ConfidenceScorer.total_weight (scale_weights k weights))
    by (rewrite Ht; nra).
  unfold ConfidenceScorer.__init__.
  apply Qltb_true in Hpos as E. apply Qltb_true in Hpos' as E'. rewrite E, E'.
  unfold weights_eq.
  cbn [ConfidenceScorer.domain_match ConfidenceScorer.tld_relevance
       ConfidenceScorer.search_position ConfidenceScorer.title_match].
  rewrite Ht. unfold scale_weights.
  cbn [ConfidenceScorer.domain_match ConfidenceScorer.tld_relevance
       ConfidenceScorer.search_position ConfidenceScorer.title_match].
  repeat split; field; split; lra.
Qed.

Lemma init_scale_invariant_witness :
  0 < 2 /\ 0 < ConfidenceScorer.total_weight heavy_weights /\
  weights_eq (ConfidenceScorer.__init__ (Some (scale_weights 2 heavy_weights)))
             (ConfidenceScorer.__init__ (Some heavy_weights)).
Proof.
  split; [reflexivity|]. split; [reflexivity|].
  apply (init_scale_invariant 2 heavy_weights); reflexivity.
Defined.

(** X19.  From position 1 on, the position sub-score never increases
    with the position, and it is 0 from position 14 on. *)
Theorem position_score_monotone (r r' : SearchResult) :
  (1 <= position r <= position r')%Z ->
  ConfidenceScorer._calculate_position_score r'
    <= ConfidenceScorer._calculate_position_score r /\
  ((14 <= position r)%Z -> ConfidenceScorer._calculate_position_score r == 0).
Proof.
  intros Hp. split; [by apply position_score_order|].
  destruct Hp as [H1 _]. unfold ConfidenceScorer._calculate_position_score.
  generalize dependent (position r). intros p H1 H14.
  position_cases; z_to_q; unfold max; qcases; lra.
Qed.

Lemma position_score_monotone_witness :
  (1 <= position (ranked 14) <= position (ranked 20))%Z /\
  ConfidenceScorer._calculate_position_score (ranked 20)
    <= ConfidenceScorer._calculate_position_score (ranked 14) /\
  ConfidenceScorer._calculate_position_score (ranked 14) == 0.
Proof.
  assert (H : (1 <= position (ranked 14) <= position (ranked 20))%Z)
    by (split; discriminate).
  split; [exact H|].
  destruct (position_score_monotone (ranked 14) (ranked 20) H) as [Hle H0].
  split; [exact Hle|]. apply H0. discriminate.
Defined.

(** X20.  Ranking matters in one direction only: of two candidates
    with the same URL and the same title, the one at the better
    (smaller) position never has the lower score, for every stored
    mapping without negative weights, every parser and every iteration
    order of the word set. *)
Theorem score_monotone_in_position
    (urlparse_netloc : string -> option string)
    (set_order : list string -> list string)
    (weights : ConfidenceScorer.Weights) (company : Company)
    (r r' : SearchResult) :
  nonneg_weights weights ->
  url r' = url r -> title r' = title r ->
  (1 <= position r <= position r')%Z ->
  exists s s',
    ConfidenceScorer.calculate_score urlparse_netloc set_order weights company r
      = Ok s /\
    ConfidenceScorer.calculate_score urlparse_netloc set_order weights company r'
      = Ok s' /\
    s' <= s.
Proof.
  intros (Hw1 & Hw2 & Hw3 & Hw4) Hu Ht Hp.
  unfold ConfidenceScorer.calculate_score.
  assert (Ed : ConfidenceScorer._calculate_domain_match urlparse_netloc set_order
                 company r' =
               ConfidenceScorer._calculate_domain_match urlparse_netloc set_order
                 company r).
  { unfold ConfidenceScorer._calculate_domain_match. by rewrite Hu. }
  assert (Et : ConfidenceScorer._calculate_tld_relevance urlparse_netloc r' company =
               ConfidenceScorer._calculate_tld_relevance urlparse_netloc r company).
  { unfold ConfidenceScorer._calculate_tld_relevance. by rewrite Hu. }
  assert (Eti : ConfidenceScorer._calculate_title_match company r' =
                ConfidenceScorer._calculate_title_match company r).
  { unfold ConfidenceScorer._calculate_title_match. by rewrite Ht. }
  rewrite Ed, Et, Eti.
  destruct (_calculate_domain_match_ok urlparse_netloc set_order company r)
    as (d & -> & Hd).
  destruct (_calculate_tld_relevance_ok urlparse_netloc r company) as (t & -> & Htl).
  destruct (_calculate_title_match_ok company r) as (ti & -> & Hti).
  unfold mbind, res_bind. cbv beta iota zeta.
  eexists _, _. split; [reflexivity|]. split; [reflexivity|].
  apply round_monotone.
  pose proof (position_score_order r r' Hp) as Hpos.
  nra.
Qed.

Lemma score_monotone_in_position_witness :
  nonneg_weights heavy_weights /\
  (1 <= position (ranked 1) <= position (ranked 4))%Z /\
  exists s s',
    ConfidenceScorer.calculate_score urlsplit_netloc id heavy_weights acme (ranked 1)
      = Ok s /\
    ConfidenceScorer.calculate_score urlsplit_netloc id heavy_weights acme (ranked 4)
      = Ok s' /\
    s' <= s.
Proof.
  assert (H : (1 <= position (ranked 1) <= position (ranked 4))%Z)
    by (split; discriminate).
  split; [exact heavy_weights_nonneg|]. split; [exact H|].
  exact (score_monotone_in_position urlsplit_netloc id heavy_weights acme
           (ranked 1) (ranked 4) heavy_weights_nonneg eq_refl eq_refl H).
Defined.

(** X21.  A UK domain always beats a non-UK domain on TLD relevance:
    for a netloc ending in a UK TLD the sub-score is at least 0.8, for
    any other netloc it is at most 0.7, and it is at most 0.5 when the
    UK one scores 1.0, the company being the same. *)
Theorem tld_relevance_prefers_uk
    (urlparse_netloc : string -> option string)
    (company : Company) (r r' : SearchResult) (netloc netloc' : string) :
  url r <> EmptyString -> url r' <> EmptyString ->
  urlparse_netloc (url r) = Some netloc ->
  urlparse_netloc (url r') = Some netloc' ->
  has_uk_tld netloc = true ->
  has_uk_tld netloc' = false ->
  exists q q',
    ConfidenceScorer._calculate_tld_relevance urlparse_netloc r company = Ok q /\
    ConfidenceScorer._calculate_tld_relevance urlparse_netloc r' company = Ok q' /\
    0.8 <= q /\ q' <= 0.7 /\
    (q == 1 -> q' <= 0.5).
Proof.
  intros Hu%is_empty_false Hu'%is_empty_false Hn Hn' Huk Huk'.
  unfold has_uk_tld in *.
  unfold ConfidenceScorer._calculate_tld_relevance, netloc_of.
  rewrite Hu, Hu', Hn, Hn'.
  unfold mbind, res_bind. cbv beta iota zeta. rewrite Huk, Huk'.
  destruct (negb (is_empty (postcode company)) && _); simpl andb.
  - repeat match goal with |- context [if ?b then _ else _] => destruct b end;
      (eexists; eexists; split; [reflexivity|]; split; [reflexivity|]);
      repeat split; intros; try lra.
  - repeat match goal with |- context [if ?b then _ else _] => destruct b end;
      (eexists; eexists; split; [reflexivity|]; split; [reflexivity|]);
      repeat split; intros; try lra.
    all: exfalso; match goal with H : _ == _ |- _ => revert H end; discriminate.
Qed.

Lemma tld_relevance_prefers_uk_witness :
  has_uk_tld "acmesoftware.co.uk" = true /\
  has_uk_tld "acmesoftware.com" = false /\
  exists q q',
    ConfidenceScorer._calculate_tld_relevance urlsplit_netloc acme_site acme = Ok q /\
    ConfidenceScorer._calculate_tld_relevance urlsplit_netloc
      (page "https://acmesoftware.com") acme = Ok q' /\
    0.8 <= q /\ q' <= 0.7 /\
    (q == 1 -> q' <= 0.5).
Proof.
  split; [reflexivity|]. split; [reflexivity|].
  apply (tld_relevance_prefers_uk urlsplit_netloc acme acme_site
           (page "https://acmesoftware.com")
           "acmesoftware.co.uk" "acmesoftware.com");
    (discriminate || reflexivity).
Defined.

(** X22.  A candidate whose title is the company's name, when that
    name has a content word (more than two characters, not a stop
    word), has a title sub-score of 1.0. *)
Theorem title_match_identical (company : Company) (r : SearchResult) :
  title r = company_name company ->
  ConfidenceScorer.content_words (lower (sub_nonword (company_name company))) <> ∅ ->
  exists q, ConfidenceScorer._calculate_title_match company r = Ok q /\ q == 1.
Proof.
  intros Ht Hw. unfold ConfidenceScorer._calculate_title_match. rewrite Ht.
  destruct (is_empty (company_name company)) eqn:He.
  { apply is_empty_true in He. rewrite He in Hw. by exfalso; apply Hw. }
  cbv zeta. rewrite bool_decide_eq_false_2 by done.
  set (words := ConfidenceScorer.content_words _) in *.
  assert (words ∩ words = words) as ->
    by (apply set_eq; intros x; rewrite elem_of_intersection; tauto).
  assert (words ∪ words = words) as ->
    by (apply set_eq; intros x; rewrite elem_of_union; tauto).
  rewrite bool_decide_eq_false_2 by done.
  assert (Hpos : (0 < size words)%nat).
  { apply Nat.neq_0_lt_0. intros Hsz. apply size_empty_iff in Hsz.
    apply Hw. by apply leibniz_equiv. }
  rewrite div_ok by (apply inject_Z_nonzero; lia).
  unfold mbind, res_bind. rewrite contains_refl. unfold catch.
  eexists. split; [reflexivity|].
  assert (E : inject_Z (Z.of_nat (size words)) / inject_Z (Z.of_nat (size words)) == 1).
  { field. apply inject_Z_nonzero. lia. }
  unfold min. qcases; lra.
Qed.

Lemma title_match_identical_witness :
  title namesake = company_name acme /\
  exists q, ConfidenceScorer._calculate_title_match acme namesake = Ok q /\ q == 1.
Proof.
  split; [reflexivity|].
  apply (title_match_identical acme namesake); [reflexivity|].
  intros H.
  assert (Hin : "acme" ∈ (∅ : gset string)).
  { rewrite <- H. vm_compute. reflexivity. }
  exact (not_elem_of_empty (C := gset string) "acme" Hin).
Defined.

(** X23.  With a threshold of 0 or less [filter_by_confidence] keeps
    every candidate, and with a threshold above 100 it keeps none, for
    every weight mapping without negative weights handed to the
    constructor. *)
Theorem filter_by_confidence_extremes
    (urlparse_netloc : string -> option string)
    (set_order : list string -> list string)
    (weights : ConfidenceScorer.Weights)
    (results : list SearchResult) (company : Company) (threshold : Q) :
  nonneg_weights weights ->
  (threshold <= 0 ->
     ConfidenceScorer.filter_by_confidence urlparse_netloc set_order
       (ConfidenceScorer.__init__ (Some weights)) results company threshold
       = Ok results) /\
  (100 < threshold ->
     ConfidenceScorer.filter_by_confidence urlparse_netloc set_order
       (ConfidenceScorer.__init__ (Some weights)) results company threshold
       = Ok []).
Proof.
  intros Hw. destruct (init_nonneg weights Hw) as [Hn Ht].
  split; intros Hth; induction results as [|r rs IH]; simpl; try done.
  - destruct (calculate_score_ok urlparse_netloc set_order _ company r Hn Ht)
      as (s & -> & Hs).
    rewrite IH. unfold mbind, res_bind.
    assert (Qle_bool threshold s = true) as -> by (apply Qle_bool_iff; lra). done.
  - destruct (calculate_score_ok urlparse_netloc set_order _ company r Hn Ht)
      as (s & -> & Hs).
    rewrite IH. unfold mbind, res_bind.
    assert (Qle_bool threshold s = false) as -> by (apply Qle_bool_false; lra). done.
Qed.

Lemma filter_by_confidence_extremes_witness :
  nonneg_weights heavy_weights /\
  ConfidenceScorer.filter_by_confidence urlsplit_netloc id
    (ConfidenceScorer.__init__ (Some heavy_weights)) [acme_site; unparseable] acme 0
    = Ok [acme_site; unparseable] /\
  ConfidenceScorer.filter_by_confidence urlsplit_netloc id
    (ConfidenceScorer.__init__ (Some heavy_weights)) [acme_site; unparseable] acme 101
    = Ok [].
Proof.
  split; [exact heavy_weights_nonneg|]. split.
  - apply (filter_by_confidence_extremes urlsplit_netloc id heavy_weights
             [acme_site; unparseable] acme 0 heavy_weights_nonneg).
    discriminate.
  - apply (filter_by_confidence_extremes urlsplit_netloc id heavy_weights
             [acme_site; unparseable] acme 101 heavy_weights_nonneg).
    reflexivity.
Defined.

(** X24.  Raising the threshold never lets a candidate in: what
    [filter_by_confidence] keeps under the higher threshold is a
    subsequence of what it keeps under the lower one. *)
Theorem filter_by_confidence_monotone
    (urlparse_netloc : string -> option string)
    (set_order : list string -> list string)
    (weights : ConfidenceScorer.Weights)
    (results : list SearchResult) (company : Company) (threshold threshold' : Q) :
  threshold <= threshold' ->
  exists out out',
    ConfidenceScorer.filter_by_confidence urlparse_netloc set_order weights results
      company threshold = Ok out /\
    ConfidenceScorer.filter_by_confidence urlparse_netloc set_order weights results
      company threshold' = Ok out' /\
    out' `sublist_of` out.
Proof.
  intros Hth. induction results as [|r rs (out & out' & IH & IH' & Hsub)]; simpl.
  - exists [], []. done.
  - destruct (calculate_score_returns urlparse_netloc set_order weights company r)
      as [s ->].
    rewrite IH, IH'. unfold mbind, res_bind.
    destruct (Qle_bool threshold' s) eqn:E'.
    + assert (Qle_bool threshold s = true) as ->.
      { apply Qle_bool_iff in E'. apply Qle_bool_iff. lra. }
      eexists _, _. split; [done|]. split; [done|]. by apply sublist_skip.
    + destruct (Qle_bool threshold s); eexists _, _;
        (split; [done|]); (split; [done|]); [by apply sublist_cons | done].
Qed.

Lemma filter_by_confidence_monotone_witness :
  exists out out',
    ConfidenceScorer.filter_by_confidence urlsplit_netloc id
      ConfidenceScorer.default_weights [acme_site; unparseable] acme 50 = Ok out /\
    ConfidenceScorer.filter_by_confidence urlsplit_netloc id
      ConfidenceScorer.default_weights [acme_site; unparseable] acme 95 = Ok out' /\
    out' `sublist_of` out.
Proof.
  apply (filter_by_confidence_monotone urlsplit_netloc id
           ConfidenceScorer.default_weights [acme_site; unparseable] acme 50 95).
  discriminate.
Defined.

(** X25.  A URL that parses but has nothing alphanumeric in its
    registrable domain (a URL without a netloc, such as "not-a-url")
    is not scored 0 on domain match: for a company whose name has a
    word, the sub-score is at least 0.95. *)
Theorem domain_match_without_domain
    (urlparse_netloc : string -> option string)
    (set_order : list string -> list string)
    (company : Company) (r : SearchResult) (netloc : string) :
  valid_set_order set_order ->
  url r <> EmptyString ->
  urlparse_netloc (url r) = Some netloc ->
  alnum_only (ConfidenceScorer.main_domain netloc) = EmptyString ->
  company_words_of company <> [] ->
  exists q,
    ConfidenceScorer._calculate_domain_match urlparse_netloc set_order company r
      = Ok q /\
    0.95 <= q <= 1.
Proof.
  intros Hord Hu%is_empty_false Hn Hdom Hwords.
  unfold ConfidenceScorer._calculate_domain_match, netloc_of. rewrite Hu, Hn.
  unfold mbind, res_bind. cbv beta iota zeta.
  fold (company_words_of company). unfold ConfidenceScorer.mk_set.
  unfold company_words_of in Hwords |- *.
  destruct (set_order _) as [|first_word ws] eqn:Hws.
  { exfalso. apply Hwords. apply Permutation_nil. rewrite <- Hws.
    exact (Hord _). }
  match goal with
  | |- context [div (inject_Z ?a) (inject_Z ?b)] =>
      assert (Hr : unit_interval (inject_Z a / inject_Z b));
      [apply ratio_unit;
       [split; [lia|]; apply inj_le; apply length_filter | simpl length; lia]
      | rewrite (div_ok (inject_Z a) (inject_Z b))
          by (apply inject_Z_nonzero; simpl length; lia);
        set (mr0 := inject_Z a / inject_Z b) in * ]
  end.
  rewrite Hdom.
  match goal with
  | |- context [ConfidenceScorer.fuzzy_containment ws ?cn ?dc ?mr] =>
      destruct (domain_match_chain_empty ws cn dc mr) as (q & Hq & Hb)
  end.
  { unfold unit_interval in *. destruct (startswith _ _); [|done].
    unfold min. qcases; lra. }
  { by right. }
  exists q. split; [|done].
  cbv beta iota. unfold mbind, res_bind in Hq. by rewrite Hq.
Qed.

Lemma domain_match_without_domain_witness :
  urlsplit_netloc (url (page "not-a-url")) = Some "" /\
  exists q,
    ConfidenceScorer._calculate_domain_match urlsplit_netloc id acme (page "not-a-url")
      = Ok q /\
    0.95 <= q <= 1.
Proof.
  split; [reflexivity|].
  apply (domain_match_without_domain urlsplit_netloc id acme (page "not-a-url") "").
  - intros l. reflexivity.
  - discriminate.
  - reflexivity.
  - reflexivity.
  - discriminate.
Defined.

(** X26.  In exact arithmetic, for a candidate at position 1 or
    beyond, [_approximate_confidence] returns a value between 0 and 96,
    or raises [ValueError] because the parser rejects the URL; it
    returns 0 without parsing when the title or the URL is empty.  (In
    doubles the last place of the upper bound is subject to rounding:
    the three products of the top case add up to 96.00000000000001.) *)
Theorem approximate_confidence_bounds
    (urlparse_netloc : string -> option string) (r : SearchResult) :
  (1 <= position r)%Z ->
  match ConfidenceScorer._approximate_confidence urlparse_netloc r with
  | Ok confidence =>
      0 <= confidence <= 96 /\
      (title r = EmptyString \/ url r = EmptyString -> confidence = 0.0)
  | Raise e => e = ValueError /\ urlparse_netloc (url r) = None
  end.
Proof.
  intros Hp. unfold ConfidenceScorer._approximate_confidence, netloc_of.
  destruct (is_empty (title r) || is_empty (url r)) eqn:He; [split; [lra | done]|].
  apply orb_false_iff in He as [He1%is_empty_false He2%is_empty_false].
  destruct (urlparse_netloc (url r)) as [n|]; [|done].
  unfold mbind, res_bind. cbv beta iota zeta.
  split; [|by intros [? | ?]].
  set (words := inject_Z (Z.of_nat (length (split_ws (title r))))).
  assert (Hw : 0 <= words) by (apply inject_Z_nonneg; lia).
  assert (Hpos : 0 <= inject_Z (position r - 1)) by (apply inject_Z_nonneg; lia).
  assert (Hdiv : 0 <= words / 5.0) by (apply Qdiv_nonneg; lra).
  repeat match goal with |- context [if ?b then _ else _] =>
    match b with
    | Qltb _ _ => fail 1
    | _ => destruct b
    end end;
  unfold min, max; qcases; split; nra.
Qed.

Lemma approximate_confidence_bounds_witness :
  (1 <= position acme_site)%Z /\
  match ConfidenceScorer._approximate_confidence urlsplit_netloc acme_site with
  | Ok confidence =>
      0 <= confidence <= 96 /\
      (title acme_site = EmptyString \/ url acme_site = EmptyString ->
       confidence = 0.0)
  | Raise e => e = ValueError /\ urlsplit_netloc (url acme_site) = None
  end.
Proof.
  split; [discriminate|].
  apply (approximate_confidence_bounds urlsplit_netloc acme_site).
  discriminate.
Defined.

(** ** URL quality analyzer *)

(** X27.  The URL quality score is always between 40 and 100, and it
    is the neutral score 50.0 when the parser rejects the URL. *)
Theorem calculate_url_quality_bounds
    (urlparse : string -> option ParseResult) (company_name u : string) :
  40 <= URLQualityAnalyzer.calculate_url_quality urlparse company_name u <= 100 /\
  (urlparse u = None ->
   URLQualityAnalyzer.calculate_url_quality urlparse company_name u = 50.0).
Proof.
  unfold URLQualityAnalyzer.calculate_url_quality.
  destruct (urlparse u) as [parsed|]; [|split; [lra | done]].
  split; [|done]. cbv zeta.
  pose proof (_analyze_domain_bounds company_name
                (URLQualityAnalyzer._clean_domain (netloc parsed))).
  pose proof (_analyze_path_bounds (path parsed)).
  pose proof (_analyze_parameters_bounds (query parsed)).
  pose proof (_analyze_tld_bounds (URLQualityAnalyzer._clean_domain (netloc parsed))).
  match goal with |- _ <= round ?x 1 <= _ =>
    destruct (round1_between x 400 1000) as [Hlo Hhi]
  end.
  { change (inject_Z 400) with 400. change (inject_Z 1000) with 1000. lra. }
  assert (E1 : inject_Z 400 / 10 == 40) by reflexivity.
  assert (E2 : inject_Z 1000 / 10 == 100) by reflexivity.
  rewrite E1 in Hlo. rewrite E2 in Hhi. by split.
Qed.

Lemma calculate_url_quality_bounds_witness :
  urlsplit_parts "http://[bad" = None /\
  URLQualityAnalyzer.calculate_url_quality urlsplit_parts "Acme Ltd" "http://[bad"
    = 50.0.
Proof.
  split; [reflexivity|].
  apply (calculate_url_quality_bounds urlsplit_parts "Acme Ltd" "http://[bad").
  reflexivity.
Defined.

(** X28.  The cache is transparent.  Company names that differ only in
    case have the same quality score for a URL; so a cache in which
    every stored score is the computed one answers [get_score] with
    the computed score, on a hit as on a miss, and is still such a
    cache afterwards. *)
Theorem cache_get_score_coherent
    (urlparse : string -> option ParseResult) (company_name u : string)
    (cache : gmap (string * string) Q) :
  (forall other_name, lower other_name = lower company_name ->
     URLQualityAnalyzer.calculate_url_quality urlparse other_name u
       = URLQualityAnalyzer.calculate_url_quality urlparse company_name u) /\
  (cache_coherent urlparse cache ->
     snd (URLQualityCache.get_score urlparse company_name u cache)
       = URLQualityAnalyzer.calculate_url_quality urlparse company_name u /\
     cache_coherent urlparse
       (fst (URLQualityCache.get_score urlparse company_name u cache))).
Proof.
  split; [intros other_name Hl; by apply calculate_url_quality_lower|].
  intros Hc. unfold URLQualityCache.get_score. cbv zeta.
  destruct (cache !! URLQualityCache.cache_key company_name u) as [score|] eqn:E; simpl.
  - split; [by apply Hc | done].
  - split; [done|]. intros name' u' score'.
    destruct (decide (URLQualityCache.cache_key name' u'
                      = URLQualityCache.cache_key company_name u)) as [Hk | Hk].
    + rewrite Hk, lookup_insert_eq. intros [= <-].
      unfold URLQualityCache.cache_key in Hk. injection Hk as Hl ->.
      by apply calculate_url_quality_lower.
    + rewrite lookup_insert_ne by done. apply Hc.
Qed.

Lemma cache_get_score_coherent_witness :
  cache_coherent urlsplit_parts (URLQualityCache.clear_cache ∅) /\
  snd (URLQualityCache.get_score urlsplit_parts "Acme Ltd" "https://acme.com"
         (URLQualityCache.clear_cache ∅))
    = URLQualityAnalyzer.calculate_url_quality urlsplit_parts "Acme Ltd"
        "https://acme.com" /\
  cache_coherent urlsplit_parts
    (fst (URLQualityCache.get_score urlsplit_parts "Acme Ltd" "https://acme.com"
            (URLQualityCache.clear_cache ∅))).
Proof.
  assert (H : cache_coherent urlsplit_parts (URLQualityCache.clear_cache ∅)).
  { intros name u score Hl. unfold URLQualityCache.clear_cache in Hl.
    rewrite lookup_empty in Hl. discriminate Hl. }
  split; [exact H|].
  exact (proj2 (cache_get_score_coherent urlsplit_parts "Acme Ltd" "https://acme.com"
                  (URLQualityCache.clear_cache ∅)) H).
Defined.

(** X29.  The double charge for a repeated keyword is the only
    departure of [_analyze_domain] from the specified score: for a
    domain that contains none of the three keywords listed twice
    ("check", "search", "directory"), the code returns the specified
    score, 20 off per keyword found. *)
Theorem analyze_domain_meets_spec (company_name domain : string) :
  contains (lower domain) "check" = false ->
  contains (lower domain) "search" = false ->
  contains (lower domain) "directory" = false ->
  URLQualityAnalyzer._analyze_domain company_name domain ==
  Spec.analyze_domain URLQualityAnalyzer._aggregator_keywords company_name domain.
Proof.
  intros H1 H2 H3.
  unfold URLQualityAnalyzer._analyze_domain, Spec.analyze_domain. cbv zeta.
  apply max_compat; [reflexivity|]. apply min_compat; [reflexivity|].
  pose proof (hits_keywords (contains (lower domain)) H1 H2 H3) as Hh.
  unfold Spec.keywords_found.
  rewrite (hits_filter (contains (lower domain))), <- Hh.
  destruct (existsb _ _); destruct (startswith _ _); simpl negb; cbv iota;
    rewrite (foldl_penalty (contains (lower domain))); ring.
Qed.

Lemma analyze_domain_meets_spec_witness :
  URLQualityAnalyzer._analyze_domain "Acme Ltd" "acme-business-data.com" ==
  Spec.analyze_domain URLQualityAnalyzer._aggregator_keywords "Acme Ltd"
    "acme-business-data.com".
Proof.
  apply (analyze_domain_meets_spec "Acme Ltd" "acme-business-data.com"); reflexivity.
Defined.
